(** * Double-entry ledger: posting engine

    A shallow embedding of the posting engine of the ledger service
    (validation schemas, account / journal / idempotency / balance
    repositories and the services on top of them), followed by the
    properties of the specification that were checked against it.

    Conventions of the embedding.
    - The PostgreSQL database is a record of tables; a table is the list of
      its rows in insertion order.  Statements are total functions on that
      record; a statement that violates a constraint returns an error and a
      transaction that throws leaves the record as it was ([ROLLBACK]).
      The lengths of [VARCHAR] columns are bounded before the statements
      are reached (schemas, middleware) and are not checked again.
    - [uuidv4()] is a counter kept next to the tables: ids are fresh
      naturals.  Timestamp columns ([created_at], [posted_at]) are not read
      by any function modelled here and are left out.
    - Requests are typed records: what the schemas reject for its type
      only (a missing field, a string that is no date or no UUID) has no
      counterpart.  The rules of a schema apply as the validation library
      applies them with the options of [validateInput] (values converted,
      all errors collected).
    - JavaScript numbers holding decimal amounts are exact rationals
      ([Q]); integer cents are [Z].  [Math.round x] is [floor (x + 1/2)].
    - A calendar date (the ISO string of the request, the [DATE] column) is
      the number of its day in UTC; "today" is the day of the server clock.
    - SHA-256 is idealised as collision free: the digest of a text is the
      text itself, here the list of tokens [JSON.stringify] emits.
    - Error messages are values of [Message], one constructor per message
      template of the source, carrying the interpolated values. *)

From Stdlib Require Import ZArith QArith Qround List String Ascii Bool Lia Lqa
  Permutation Sorted PeanoNat.
From Stdlib Require OrderedTypeEx.
Import ListNotations.

Set Implicit Arguments.
Local Set Warnings "-register-all".

Local Open Scope string_scope.
Local Open Scope list_scope.
Local Open Scope Z_scope.

(** ** Errors and results *)

Definition Id := nat.
Bind Scope nat_scope with Id.

(** The message templates of the source.  The constructor comment quotes
    the template; schema messages without a custom template use the
    library's default text, identified here by rule and path. *)
Inductive Message : Type :=
  (* journalEntrySchema *)
  | MsgFutureDate                       (* 'Entry date cannot be in the future' *)
  | MsgNarrationEmpty                   (* string.empty on narration *)
  | MsgNarrationMax                     (* 'Narration must not exceed 500 characters' *)
  | MsgLineCodeEmpty (i : nat)          (* string.empty on lines[i].account_code *)
  | MsgLineCodeAlphanum (i : nat)       (* string.alphanum on lines[i].account_code *)
  | MsgLineCodeMax (i : nat)            (* string.max on lines[i].account_code *)
  | MsgLineDebitMin (i : nat)           (* number.min on lines[i].debit *)
  | MsgLineCreditMin (i : nat)          (* number.min on lines[i].credit *)
  | MsgLineBoth                         (* 'A line cannot have both debit and credit amounts' *)
  | MsgLineNeither                      (* 'A line must have either a debit or credit amount' *)
  | MsgLinesMin                         (* 'At least 2 lines are required for a journal entry' *)
  | MsgUnbalanced (totalDebits totalCredits : Q)
                                        (* 'Total debits (..) must equal total credits (..)' *)
  | MsgZeroAmount                       (* 'Total amount must be greater than zero' *)
  (* accountSchema *)
  | MsgCodeEmpty                        (* string.empty on code *)
  | MsgCodeAlphanum                     (* 'Account code must contain only alphanumeric characters' *)
  | MsgCodeMax                          (* 'Account code must not exceed 20 characters' *)
  | MsgNameEmpty                        (* string.empty on name *)
  | MsgNameMax                          (* 'Account name must not exceed 100 characters' *)
  (* trialBalanceQuerySchema *)
  | MsgInvalidDateRange                 (* 'to date must be greater than or equal to from date' *)
  (* AccountService *)
  | MsgAccountExists (code : string)    (* `Account with code '${code}' already exists` *)
  | MsgAccountCodeRequired              (* 'Account code is required' *)
  | MsgAccountNotFound (code : string)  (* `Account with code '${code}' not found` *)
  | MsgCodesRequired                    (* 'At least one account code is required' *)
  | MsgInvalidCode (code : string)      (* `Invalid account code: '${code}'` *)
  | MsgAccountsNotFound (codes : list string)
                                        (* `Accounts not found: ${missingCodes.join(', ')}` *)
  (* JournalService *)
  | MsgKeyReused (key : string)         (* `Idempotency key '${key}' already used with different request data` *)
  | MsgReversedNotFound (id : Id)       (* `Reversed entry with ID '${id}' not found` *)
  | MsgDuplicateAccount (code : string) (* `Account '${code}' appears multiple times in the same entry. ...` *)
  | MsgNegativeAmount                   (* 'Debit and credit amounts must be non-negative' *)
  | MsgBothSides (code : string)        (* `Line for account '${code}' has both debit and credit amounts. ...` *)
  | MsgZeroLine (code : string)         (* `Line for account '${code}' has zero amount. ...` *)
  | MsgNotBalanced (totalDebits totalCredits : Q)
                                        (* `Entry is not balanced. Total debits (..) must equal total credits (..)` *)
  | MsgZeroTotal                        (* 'Journal entry must have a total amount greater than zero' *)
  | MsgTooFewLines                      (* 'Journal entry must have at least 2 lines' *)
  | MsgEntryNotFound (id : Id)          (* `Journal entry with ID '${id}' not found` *)
  (* IdempotencyService / IdempotencyRepository *)
  | MsgKeyRequired                      (* 'Idempotency key is required and must be a non-empty string' *)
  | MsgKeyExists (key : string)         (* `Idempotency key '${key}' already exists` *)
  (* BalanceService *)
  | MsgNoBalanceData (code : string)    (* `No balance data found for account '${code}'` *)
  | MsgTrialBalanceBroken (debits credits : Z)
                                        (* `Trial balance does not balance! ...` *)
  (* errors raised by the database driver *)
  | MsgDbConstraint                     (* a CHECK, range or foreign-key violation *)
  | MsgTypeError                        (* a property read on [undefined] *)
  | MsgDbUnique.                        (* code 23505 rethrown as is *)

(** [LedgerError] and its subclasses; [InternalError] is a plain [Error]
    (anything the controllers answer with status 500). *)
Inductive LedgerError : Type :=
  | ValidationError (messages : list Message)
  | NotFoundError (message : Message)
  | ConflictError (message : Message)
  | InternalError (message : Message).

Inductive Result (A : Type) : Type :=
  | Ok (a : A)
  | Err (e : LedgerError).
Arguments Ok {A} a.
Arguments Err {A} e.

Definition bind {A B} (r : Result A) (k : A -> Result B) : Result B :=
  match r with
  | Ok a => k a
  | Err e => Err e
  end.

Notation "x <- c ;; k" := (bind c (fun x => k))
  (at level 61, c at next level, right associativity).
Notation "c ;;; k" := (bind c (fun _ => k))
  (at level 61, right associativity).

Definition throw_if {A} (b : bool) (e : LedgerError) (k : Result A) : Result A :=
  if b then Err e else k.

Definition isOk {A} (r : Result A) : bool :=
  match r with Ok _ => true | Err _ => false end.

(** ** Money (utils/money) *)

(** [Math.round(amount * 100)] *)
Definition toCents (amount : Q) : Z := Qfloor (amount * 100 + (1 # 2)).

(** [cents / 100] *)
Definition fromCents (cents : Z) : Q := inject_Z cents / 100.

(** [x || 0] on an optional number. *)
Definition orZero (x : option Q) : Q :=
  match x with
  | Some v => if Qeq_bool v 0 then 0%Q else v
  | None => 0%Q
  end.

(** Comparisons of JavaScript numbers. *)
Definition Qgtb (x y : Q) : bool := negb (Qle_bool x y).
Definition Qltb (x y : Q) : bool := negb (Qle_bool y x).

(** ** Data model (models/types) *)

Inductive AccountType : Type := Asset | Liability | Equity | Revenue | Expense.

Record Account : Type := mkAccount {
  acc_id : Id;
  acc_code : string;
  acc_name : string;
  acc_type : AccountType
}.

Record CreateAccountRequest : Type := mkCreateAccountRequest {
  car_code : string;
  car_name : string;
  car_type : AccountType
}.

Record CreateJournalLineRequest : Type := mkLineReq {
  account_code : string;
  debit : option Q;
  credit : option Q
}.

Record CreateJournalEntryRequest : Type := mkEntryReq {
  date : Z;
  narration : string;
  lines : list CreateJournalLineRequest;
  reverses_entry_id : option Id
}.

(** A line as returned to callers: the [journal_lines] row together with
    the [account_code] attached by the repository. *)
Record JournalLine : Type := mkJournalLine {
  jl_id : Id;
  jl_entry_id : Id;
  jl_account_id : Id;
  jl_account_code : string;
  jl_debit_cents : Z;
  jl_credit_cents : Z;
  jl_line_index : nat
}.

Record JournalEntry : Type := mkJournalEntry {
  je_id : Id;
  je_date : Z;
  je_narration : string;
  je_reverses_entry_id : option Id;
  je_lines : list JournalLine
}.

Record AccountBalance : Type := mkAccountBalance {
  ab_account_code : string;
  ab_account_name : string;
  ab_account_type : AccountType;
  ab_debits : Z;
  ab_credits : Z;
  ab_balance : Z
}.

Record TrialBalanceReport : Type := mkTrialBalanceReport {
  tb_from : Z;
  tb_to : Z;
  tb_accounts : list AccountBalance;
  tb_total_debits : Z;
  tb_total_credits : Z
}.

(** ** Generic list helpers *)

(** [Array.prototype.sort] / [ORDER BY]: a stable insertion sort for a
    boolean "less or equal". *)
Section Sort.
Variable A : Type.
Variable le : A -> A -> bool.

Fixpoint insert_sorted (x : A) (l : list A) : list A :=
  match l with
  | [] => [x]
  | y :: r => if le x y then x :: l else y :: insert_sorted x r
  end.

Fixpoint sort_by (l : list A) : list A :=
  match l with
  | [] => []
  | x :: r => insert_sorted x (sort_by r)
  end.
End Sort.

(** [new Set(codes)] spread back into an array: first occurrences, in order. *)
Fixpoint dedupe (seen l : list string) : list string :=
  match l with
  | [] => []
  | c :: r =>
      if existsb (String.eqb c) seen then dedupe seen r
      else c :: dedupe (c :: seen) r
  end.

Definition sumZ (l : list Z) : Z := fold_right Z.add 0 l.

(** ** JSON values and [JSON.stringify] with an array replacer *)

Inductive JSON : Type :=
  | JNumber (q : Q)
  | JString (s : string)
  | JArray (items : list JSON)
  | JObject (fields : list (string * JSON)).

(** The text [JSON.stringify] produces, as the sequence of its tokens. *)
Inductive Token : Type :=
  | TBeginObject | TEndObject | TBeginArray | TEndArray
  | TKey (k : string)
  | TString (s : string)
  | TNumber (q : Q).

Fixpoint assoc {B} (k : string) (l : list (string * B)) : option B :=
  match l with
  | [] => None
  | (k', v) :: r => if String.eqb k k' then Some v else assoc k r
  end.

(** [JSON.stringify(value, propertyList)].  With an array as second
    argument the array is the list of property names that are serialised,
    in that order, for the value itself and for every object nested in
    it; properties whose name is not listed are left out. *)
Fixpoint stringify (propertyList : list string) (v : JSON) : list Token :=
  match v with
  | JNumber q => [TNumber q]
  | JString s => [TString s]
  | JArray items =>
      TBeginArray :: flat_map (stringify propertyList) items ++ [TEndArray]
  | JObject fields =>
      let rendered :=
        map (fun kv : string * JSON => let (k, x) := kv in (k, stringify propertyList x)) fields in
      TBeginObject ::
        flat_map (fun k => match assoc k rendered with
                           | Some ts => TKey k :: ts
                           | None => []
                           end) propertyList
        ++ [TEndObject]
  end.

(** [Object.keys(value)] for an object. *)
Definition object_keys (v : JSON) : list string :=
  match v with
  | JObject fields => map fst fields
  | _ => []
  end.

Definition Digest := list Token.

Definition token_eqb (a b : Token) : bool :=
  match a, b with
  | TBeginObject, TBeginObject | TEndObject, TEndObject
  | TBeginArray, TBeginArray | TEndArray, TEndArray => true
  | TKey x, TKey y | TString x, TString y => String.eqb x y
  | TNumber x, TNumber y => Qeq_bool x y
  | _, _ => false
  end.

Fixpoint digest_eqb (a b : Digest) : bool :=
  match a, b with
  | [], [] => true
  | x :: a', y :: b' => token_eqb x y && digest_eqb a' b'
  | _, _ => false
  end.

(** The object the services pass around for a request: [date], [narration]
    and [lines] always, [reverses_entry_id] only when it was given; every
    line carries [account_code], [debit] and [credit] when they are set. *)
Definition optional_field (k : string) (x : option Q) : list (string * JSON) :=
  match x with
  | Some v => [(k, JNumber v)]
  | None => []
  end.

Definition line_json (l : CreateJournalLineRequest) : JSON :=
  JObject (("account_code", JString (account_code l))
           :: optional_field "debit" (debit l) ++ optional_field "credit" (credit l)).

Definition request_json (r : CreateJournalEntryRequest) : JSON :=
  JObject ([("date", JNumber (inject_Z (date r)));
            ("narration", JString (narration r));
            ("lines", JArray (map line_json (lines r)))]
           ++ match reverses_entry_id r with
              | Some id => [("reverses_entry_id", JNumber (inject_Z (Z.of_nat id)))]
              | None => []
              end).

(** IdempotencyRepository.hashRequest:
    [JSON.stringify(requestBody, Object.keys(requestBody).sort())], then
    SHA-256 of that text. *)
Definition hashRequest (requestBody : JSON) : Digest :=
  stringify (sort_by String.leb (object_keys requestBody)) requestBody.

(** ** Validation schemas (utils/validation)

    A schema maps the submitted value to the converted value and the list
    of messages of the rules it violates, in the order the library reports
    them ([abortEarly: false]): keys in the order of the schema; for a key,
    the rules in the order they are chained; the rules of an object or an
    array (its [custom] function, [min]) only when none of its children
    reported an error. *)

Definition is_alphanum (c : ascii) : bool :=
  let n := nat_of_ascii c in
  ((48 <=? n) && (n <=? 57) || (65 <=? n) && (n <=? 90)
   || (97 <=? n) && (n <=? 122))%nat.

(** The characters [String.prototype.trim] removes, among ASCII. *)
Definition is_space (c : ascii) : bool :=
  let n := nat_of_ascii c in
  ((9 <=? n) && (n <=? 13) || (n =? 32))%nat.

(** [s.trim().length === 0] *)
Definition is_blank (s : string) : bool :=
  forallb is_space (list_ascii_of_string s).

Definition when (b : bool) (m : Message) : list Message :=
  if b then [m] else [].

(** [Joi.string().alphanum().min(1).max(n).required()] on a string. *)
Definition code_rules (empty alphanum max : Message) (code : string)
  : list Message :=
  if String.eqb code "" then [empty]
  else when (negb (forallb is_alphanum (list_ascii_of_string code))) alphanum
       ++ when (20 <? String.length code)%nat max.

(** [Joi.string().min(1).max(n).required()] *)
Definition text_rules (empty max : Message) (n : nat) (s : string)
  : list Message :=
  if String.eqb s "" then [empty]
  else when (n <? String.length s)%nat max.

(** The conversion of [.precision(2)]: [Math.round(value * 100) / 100]. *)
Definition precision2 (value : Q) : Q := fromCents (toCents value).

(** [Joi.number().min(0).precision(2).optional().default(0)] *)
Definition amount_rules (min : Message) (x : option Q) : Q * list Message :=
  match x with
  | None => (0%Q, [])
  | Some v => let v' := precision2 v in (v', when (Qltb v' 0) min)
  end.

Definition journalLineSchema (i : nat) (l : CreateJournalLineRequest)
  : CreateJournalLineRequest * list Message :=
  let code_errors :=
    code_rules (MsgLineCodeEmpty i) (MsgLineCodeAlphanum i) (MsgLineCodeMax i)
               (account_code l) in
  let (d, debit_errors) := amount_rules (MsgLineDebitMin i) (debit l) in
  let (c, credit_errors) := amount_rules (MsgLineCreditMin i) (credit l) in
  let value := mkLineReq (account_code l) (Some d) (Some c) in
  match code_errors ++ debit_errors ++ credit_errors with
  | [] =>
      (* Exactly one of debit or credit must be > 0 *)
      (value,
       if Qgtb d 0 && Qgtb c 0 then [MsgLineBoth]
       else if Qeq_bool d 0 && Qeq_bool c 0 then [MsgLineNeither]
       else [])
  | errors => (value, errors)
  end.

Fixpoint items (i : nat) (ls : list CreateJournalLineRequest)
  : list CreateJournalLineRequest * list Message :=
  match ls with
  | [] => ([], [])
  | l :: r =>
      let (v, e) := journalLineSchema i l in
      let (vs, es) := items (S i) r in
      (v :: vs, e ++ es)
  end.

(** The totals computed by the [custom] rule of [lines]:
    [Math.round((line.debit || 0) * 100)] summed over the lines. *)
Definition totalDebits (ls : list CreateJournalLineRequest) : Z :=
  sumZ (map (fun l => toCents (orZero (debit l))) ls).

Definition totalCredits (ls : list CreateJournalLineRequest) : Z :=
  sumZ (map (fun l => toCents (orZero (credit l))) ls).

Definition double_entry_validation (ls : list CreateJournalLineRequest)
  : list Message :=
  if negb (totalDebits ls =? totalCredits ls) then
    [MsgUnbalanced (inject_Z (totalDebits ls) / 100)
                   (inject_Z (totalCredits ls) / 100)]
  else if totalDebits ls =? 0 then [MsgZeroAmount]
  else [].

(** [Joi.array().items(journalLineSchema).min(2).required().custom(..)] *)
Definition linesSchema (ls : list CreateJournalLineRequest)
  : list CreateJournalLineRequest * list Message :=
  let (vs, item_errors) := items 0 ls in
  match item_errors with
  | [] => (vs, when (List.length vs <? 2)%nat MsgLinesMin
               ++ double_entry_validation vs)
  | errors => (vs, errors)
  end.

(** [journalEntrySchema]; [today] is the day of [new Date()]: an entry
    date is rejected when it lies after the end of today. *)
Definition journalEntrySchema (today : Z) (r : CreateJournalEntryRequest)
  : CreateJournalEntryRequest * list Message :=
  let date_errors := when (today <? date r) MsgFutureDate in
  let narration_errors :=
    text_rules MsgNarrationEmpty MsgNarrationMax 500 (narration r) in
  let (vs, lines_errors) := linesSchema (lines r) in
  (mkEntryReq (date r) (narration r) vs (reverses_entry_id r),
   date_errors ++ narration_errors ++ lines_errors).

Definition accountSchema (r : CreateAccountRequest)
  : CreateAccountRequest * list Message :=
  (r, code_rules MsgCodeEmpty MsgCodeAlphanum MsgCodeMax (car_code r)
      ++ text_rules MsgNameEmpty MsgNameMax 100 (car_name r)).

(** [trialBalanceQuerySchema]: [to] must not be before [from]. *)
Definition trialBalanceQuerySchema (q : Z * Z) : (Z * Z) * list Message :=
  (q, when (snd q <? fst q) MsgInvalidDateRange).

(** [validateInput(schema, data)]: the converted value, or a
    [ValidationError] whose message is all the messages joined. *)
Definition validateInput {T} (schema : T -> T * list Message) (data : T)
  : Result T :=
  let (value, errors) := schema data in
  match errors with
  | [] => Ok value
  | _ => Err (ValidationError errors)
  end.

(** ** The database (scripts/migrate: tables and constraints) *)

Record EntryRow : Type := mkEntryRow {
  er_id : Id;
  er_date : Z;
  er_narration : string;
  er_reverses_entry_id : option Id
}.

Record LineRow : Type := mkLineRow {
  lr_id : Id;
  lr_entry_id : Id;
  lr_account_id : Id;
  lr_debit_cents : Z;
  lr_credit_cents : Z;
  lr_line_index : nat
}.

Record IdempotencyRecord : Type := mkIdempotencyRecord {
  ik_key : string;
  ik_request_hash : Digest;
  ik_entry_id : Id
}.

Record Database : Type := mkDatabase {
  accounts : list Account;
  journal_entries : list EntryRow;
  journal_lines : list LineRow;
  idempotency_keys : list IdempotencyRecord;
  next_uuid : Id
}.

Definition empty_db : Database := mkDatabase [] [] [] [] 0%nat.

Definition entry_exists (db : Database) (id : Id) : bool :=
  existsb (fun e => er_id e =? id)%nat (journal_entries db).

Definition account_id_exists (db : Database) (id : Id) : bool :=
  existsb (fun a => acc_id a =? id)%nat (accounts db).

(** The range of an [INTEGER] column. *)
Definition int4 (z : Z) : bool := (-2147483648 <=? z) && (z <=? 2147483647).

(** The column and [CHECK] constraints of [journal_lines]:
    both amounts in range and non-negative, and [check_debit_or_credit]. *)
Definition line_checks (debit_cents credit_cents : Z) : bool :=
  int4 debit_cents && int4 credit_cents
  && (0 <=? debit_cents) && (0 <=? credit_cents)
  && ((0 <? debit_cents) && (credit_cents =? 0)
      || (debit_cents =? 0) && (0 <? credit_cents)).

Definition db_error {A} : Result A := Err (InternalError MsgDbConstraint).

(** ** AccountRepository *)

Definition AccountRepository_findByCode (db : Database) (code : string)
  : option Account :=
  find (fun a => String.eqb (acc_code a) code) (accounts db).

(** [INSERT INTO accounts]; the unique violation on [code] (23505) is
    turned into a [ConflictError]. *)
Definition AccountRepository_create (db : Database) (accountData : CreateAccountRequest)
  : Result (Database * Account) :=
  let id := next_uuid db in
  if existsb (fun a => String.eqb (acc_code a) (car_code accountData)) (accounts db)
  then Err (ConflictError (MsgAccountExists (car_code accountData)))
  else
    let account := mkAccount id (car_code accountData) (car_name accountData)
                             (car_type accountData) in
    Ok (mkDatabase (accounts db ++ [account]) (journal_entries db)
                   (journal_lines db) (idempotency_keys db) (S id),
        account).

Definition AccountRepository_getAccountsByCodesWithValidation
  (db : Database) (codes : list string) : Result (list Account) :=
  match codes with
  | [] => Ok []
  | _ =>
      let result :=
        filter (fun a => existsb (String.eqb (acc_code a)) codes) (accounts db) in
      let foundCodes := map acc_code result in
      let missingCodes :=
        filter (fun code => negb (existsb (String.eqb code) foundCodes)) codes in
      match missingCodes with
      | [] => Ok result
      | _ => Err (NotFoundError (MsgAccountsNotFound missingCodes))
      end
  end.

(** ** AccountService *)

Definition AccountService_createAccount (db : Database) (accountData : CreateAccountRequest)
  : Database * Result Account :=
  match validateInput accountSchema accountData with
  | Err e => (db, Err e)
  | Ok validatedData =>
      (* Check if account code already exists *)
      match AccountRepository_findByCode db (car_code validatedData) with
      | Some _ =>
          (db, Err (ValidationError [MsgAccountExists (car_code validatedData)]))
      | None =>
          match AccountRepository_create db validatedData with
          | Ok (db', account) => (db', Ok account)
          | Err e => (db, Err e)
          end
      end
  end.

Definition AccountService_getAccount (db : Database) (code : string) : Result Account :=
  if String.eqb code "" then Err (ValidationError [MsgAccountCodeRequired])
  else match AccountRepository_findByCode db code with
       | Some account => Ok account
       | None => Err (ValidationError [MsgAccountNotFound code])
       end.

Definition AccountService_validateAccountsExist (db : Database) (accountCodes : list string)
  : Result (list Account) :=
  match accountCodes with
  | [] => Err (ValidationError [MsgCodesRequired])
  | _ =>
      let uniqueCodes := dedupe [] accountCodes in
      match find is_blank uniqueCodes with
      | Some code => Err (ValidationError [MsgInvalidCode code])
      | None => AccountRepository_getAccountsByCodesWithValidation db uniqueCodes
      end
  end.

(** ** JournalRepository *)

(** The [accountMap] built from the resolved accounts: a later account
    replaces an earlier one with the same code. *)
Definition accountMap_get (accounts : list Account) (code : string) : option Account :=
  find (fun a => String.eqb (acc_code a) code) (rev accounts).

(** The loop over [entryData.lines] inside the transaction: one
    [INSERT INTO journal_lines] per line, with [line_index] the position of
    the line.  Returns the rows written, the lines handed back, and the next
    free id. *)
Fixpoint insert_lines (accountMap : list Account) (entryId : Id) (i : nat) (uuid : Id)
  (ls : list CreateJournalLineRequest)
  : Result (list LineRow * list JournalLine * Id) :=
  match ls with
  | [] => Ok ([], [], uuid)
  | lineData :: rest =>
      match accountMap_get accountMap (account_code lineData) with
      | None => Err (InternalError MsgTypeError)
      | Some account =>
          let lineId := uuid in
          let debitCents := toCents (orZero (debit lineData)) in
          let creditCents := toCents (orZero (credit lineData)) in
          if line_checks debitCents creditCents then
            r <- insert_lines accountMap entryId (S i) (S uuid) rest ;;
            let '(rows, out, uuid') := r in
            Ok (mkLineRow lineId entryId (acc_id account) debitCents creditCents i :: rows,
                mkJournalLine lineId entryId (acc_id account) (acc_code account)
                              debitCents creditCents i :: out,
                uuid')
          else db_error
      end
  end.

(** [JournalRepository.create]: one transaction that writes the entry row
    and every line row, or nothing. *)
Definition JournalRepository_create (db : Database)
  (entryData : CreateJournalEntryRequest) (accounts_ : list Account)
  : Result (Database * JournalEntry) :=
  let entryId := next_uuid db in
  let reverses_ok :=
    match reverses_entry_id entryData with
    | Some id => entry_exists db id
    | None => true
    end in
  if reverses_ok then
    r <- insert_lines accounts_ entryId 0%nat (S entryId) (lines entryData) ;;
    let '(rows, out, uuid') := r in
    if forallb (fun row => account_id_exists db (lr_account_id row)) rows then
      Ok (mkDatabase (accounts db)
                     (journal_entries db
                      ++ [mkEntryRow entryId (date entryData) (narration entryData)
                                     (reverses_entry_id entryData)])
                     (journal_lines db ++ rows)
                     (idempotency_keys db) uuid',
          mkJournalEntry entryId (date entryData) (narration entryData)
                         (reverses_entry_id entryData) out)
    else db_error
  else db_error.

(** [JournalRepository.findById]: the entry row, and its lines joined with
    their account, ordered by [line_index]. *)
Definition JournalRepository_findById (db : Database) (id : Id) : option JournalEntry :=
  match filter (fun e => er_id e =? id)%nat (journal_entries db) with
  | [] => None
  | entry :: _ =>
      let linesResult :=
        sort_by (fun a b => jl_line_index a <=? jl_line_index b)%nat
          (flat_map
             (fun jl =>
                map (fun a => mkJournalLine (lr_id jl) (lr_entry_id jl) (lr_account_id jl)
                                            (acc_code a) (lr_debit_cents jl)
                                            (lr_credit_cents jl) (lr_line_index jl))
                    (filter (fun a => acc_id a =? lr_account_id jl)%nat (accounts db)))
             (filter (fun jl => lr_entry_id jl =? id)%nat (journal_lines db))) in
      Some (mkJournalEntry (er_id entry) (er_date entry) (er_narration entry)
                           (er_reverses_entry_id entry) linesResult)
  end.

(** ** IdempotencyRepository and IdempotencyService *)

Definition IdempotencyRepository_findByKey (db : Database) (key : string)
  : option IdempotencyRecord :=
  find (fun r => String.eqb (ik_key r) key) (idempotency_keys db).

(** [INSERT INTO idempotency_keys]: [key] is the primary key (a second row
    raises 23505, turned into a [ConflictError]); [entry_id] references
    [journal_entries]. *)
Definition IdempotencyRepository_create (db : Database) (key : string)
  (requestBody : JSON) (entryId : Id) : Result Database :=
  let requestHash := hashRequest requestBody in
  if existsb (fun r => String.eqb (ik_key r) key) (idempotency_keys db)
  then Err (ConflictError (MsgKeyExists key))
  else if entry_exists db entryId then
    Ok (mkDatabase (accounts db) (journal_entries db) (journal_lines db)
                   (idempotency_keys db ++ [mkIdempotencyRecord key requestHash entryId])
                   (next_uuid db))
  else db_error.

(** The answer of [validateRequest]: [{ isValid, entryId?, message? }]. *)
Record IdempotencyCheck : Type := mkIdempotencyCheck {
  isValid : bool;
  entryId : option Id;
  message : option Message
}.

Definition IdempotencyRepository_validateRequest (db : Database) (key : string)
  (requestBody : JSON) : IdempotencyCheck :=
  match IdempotencyRepository_findByKey db key with
  | None => mkIdempotencyCheck true None None
  | Some existingRecord =>
      let currentRequestHash := hashRequest requestBody in
      if digest_eqb (ik_request_hash existingRecord) currentRequestHash then
        (* Same request - this is idempotent, return the existing entry *)
        mkIdempotencyCheck true (Some (ik_entry_id existingRecord)) None
      else
        (* Different request with same idempotency key - this is an error *)
        mkIdempotencyCheck false None (Some (MsgKeyReused key))
  end.

Definition IdempotencyService_validateRequest (db : Database) (key : string)
  (requestBody : JSON) : Result IdempotencyCheck :=
  if is_blank key then Err (InternalError MsgKeyRequired)
  else Ok (IdempotencyRepository_validateRequest db key requestBody).

Definition IdempotencyService_recordRequest (db : Database) (key : string)
  (requestBody : JSON) (entryId_ : Id) : Result Database :=
  if is_blank key then Err (InternalError MsgKeyRequired)
  else IdempotencyRepository_create db key requestBody entryId_.

(** ** JournalService *)

(** [if (idempotencyKey)]: an absent or empty key is no key. *)
Definition given (idempotencyKey : option string) : option string :=
  match idempotencyKey with
  | Some k => if String.eqb k "" then None else Some k
  | None => None
  end.

(** The loop of [validateDoubleEntryRules]: the running totals and the set
    of account codes seen so far; the first violation is thrown. *)
Fixpoint check_lines (ls : list CreateJournalLineRequest)
  (totalDebits_ totalCredits_ : Z) (accountCodes : list string) : Result (Z * Z) :=
  match ls with
  | [] => Ok (totalDebits_, totalCredits_)
  | line :: rest =>
      let debitCents := toCents (orZero (debit line)) in
      let creditCents := toCents (orZero (credit line)) in
      (* Check for duplicate accounts in the same entry *)
      if existsb (String.eqb (account_code line)) accountCodes then
        Err (ValidationError [MsgDuplicateAccount (account_code line)])
      (* Validate amounts are non-negative *)
      else if (debitCents <? 0) || (creditCents <? 0) then
        Err (ValidationError [MsgNegativeAmount])
      (* Validate exactly one of debit or credit is positive *)
      else if (0 <? debitCents) && (0 <? creditCents) then
        Err (ValidationError [MsgBothSides (account_code line)])
      else if (debitCents =? 0) && (creditCents =? 0) then
        Err (ValidationError [MsgZeroLine (account_code line)])
      else
        check_lines rest (totalDebits_ + debitCents) (totalCredits_ + creditCents)
                    (account_code line :: accountCodes)
  end.

Definition validateDoubleEntryRules (entryData : CreateJournalEntryRequest)
  : Result unit :=
  totals <- check_lines (lines entryData) 0 0 [] ;;
  let (totalDebits_, totalCredits_) := totals in
  (* Validate the fundamental double-entry rule: debits = credits *)
  if negb (totalDebits_ =? totalCredits_) then
    Err (ValidationError [MsgNotBalanced (fromCents totalDebits_) (fromCents totalCredits_)])
  (* Validate entry has a positive total amount *)
  else if totalDebits_ =? 0 then Err (ValidationError [MsgZeroTotal])
  (* Validate minimum number of lines *)
  else if (List.length (lines entryData) <? 2)%nat then
    Err (ValidationError [MsgTooFewLines])
  else Ok tt.

(** The idempotency block of [createJournalEntry]: [Some entry] when the
    request is a replay whose entry is found. *)
Definition idempotency_block (db : Database) (idempotencyKey : option string)
  (validatedData : CreateJournalEntryRequest) : Result (option JournalEntry) :=
  match given idempotencyKey with
  | None => Ok None
  | Some key =>
      idempotencyCheck <-
        IdempotencyService_validateRequest db key (request_json validatedData) ;;
      if negb (isValid idempotencyCheck) then
        Err (ConflictError match message idempotencyCheck with
                           | Some m => m
                           | None => MsgKeyReused key
                           end)
      else
        (* If this is a duplicate request, return the existing entry *)
        match entryId idempotencyCheck with
        | Some id => Ok (JournalRepository_findById db id)
        | None => Ok None
        end
  end.

(** Validate reversal entry if specified. *)
Definition reversal_block (db : Database) (validatedData : CreateJournalEntryRequest)
  : Result unit :=
  match reverses_entry_id validatedData with
  | None => Ok tt
  | Some id =>
      match JournalRepository_findById db id with
      | Some _ => Ok tt
      | None => Err (ValidationError [MsgReversedNotFound id])
      end
  end.

Definition JournalService_createJournalEntry (today : Z) (db : Database)
  (entryData : CreateJournalEntryRequest) (idempotencyKey : option string)
  : Database * Result JournalEntry :=
  (* Validate input *)
  match validateInput (journalEntrySchema today) entryData with
  | Err e => (db, Err e)
  | Ok validatedData =>
  (* Handle idempotency if key is provided *)
  match idempotency_block db idempotencyKey validatedData with
  | Err e => (db, Err e)
  | Ok (Some existingEntry) => (db, Ok existingEntry)
  | Ok None =>
  (* Validate that all referenced accounts exist *)
  let accountCodes := map account_code (lines validatedData) in
  match AccountService_validateAccountsExist db accountCodes with
  | Err e => (db, Err e)
  | Ok accounts_ =>
  match reversal_block db validatedData with
  | Err e => (db, Err e)
  | Ok _ =>
  (* Additional business rule validations *)
  match validateDoubleEntryRules validatedData with
  | Err e => (db, Err e)
  | Ok _ =>
  (* Create the journal entry *)
  match JournalRepository_create db validatedData accounts_ with
  | Err e => (db, Err e)
  | Ok (db1, createdEntry) =>
  (* Record idempotency if key was provided *)
  match given idempotencyKey with
  | None => (db1, Ok createdEntry)
  | Some key =>
      match IdempotencyService_recordRequest db1 key (request_json validatedData)
                                             (je_id createdEntry) with
      | Ok db2 => (db2, Ok createdEntry)
      | Err e => (db1, Err e)
      end
  end end end end end end end.

Definition JournalService_getJournalEntry (db : Database) (id : Id) : Result JournalEntry :=
  match JournalRepository_findById db id with
  | Some entry => Ok entry
  | None => Err (NotFoundError (MsgEntryNotFound id))
  end.

(** Create reversal lines (flip debits and credits). *)
Definition reversalLines (ls : list JournalLine) : list CreateJournalLineRequest :=
  map (fun line => mkLineReq (jl_account_code line)
                             (Some (fromCents (jl_credit_cents line)))
                             (Some (fromCents (jl_debit_cents line)))) ls.

Definition JournalService_createReversalEntry (today : Z) (db : Database)
  (originalEntryId : Id) (narration_ : string) (reversalDate : Z)
  (idempotencyKey : option string) : Database * Result JournalEntry :=
  match JournalService_getJournalEntry db originalEntryId with
  | Err e => (db, Err e)
  | Ok originalEntry =>
      let reversalEntryData :=
        mkEntryReq reversalDate narration_ (reversalLines (je_lines originalEntry))
                   (Some originalEntryId) in
      JournalService_createJournalEntry today db reversalEntryData idempotencyKey
  end.

(** ** BalanceRepository

    The three balance queries share one [FROM] clause,
    [accounts a LEFT JOIN journal_lines jl ON a.id = jl.account_id
     LEFT JOIN journal_entries je ON jl.entry_id = je.id],
    and group by the account ([a.id] is the primary key of [accounts], so
    the rows of one account are one group).  A group exists only when at
    least one joined row of the account passes the [WHERE] clause. *)

(** The right side of a [LEFT JOIN] for one left row: the matching rows, or
    one [NULL] row when there is none. *)
Definition left_join {B} (on : B -> bool) (table : list B) : list (option B) :=
  match filter on table with
  | [] => [None]
  | matches => map Some matches
  end.

Abbreviation JoinedRow := (option LineRow * option EntryRow)%type.

Definition joined_rows (db : Database) (a : Account) : list JoinedRow :=
  flat_map
    (fun jl =>
       map (fun je => (jl, je))
           match jl with
           | Some l => left_join (fun e => lr_entry_id l =? er_id e)%nat (journal_entries db)
           | None => [None]
           end)
    (left_join (fun l => acc_id a =? lr_account_id l)%nat (journal_lines db)).

(** [COALESCE(SUM(jl.column), 0)] over the rows of a group. *)
Definition sum_column (column : LineRow -> Z) (rows : list JoinedRow) : Z :=
  sumZ (map (fun r => match fst r with
                      | Some l => column l
                      | None => 0
                      end) rows).

(** [je.date <= $2]: not true on a [NULL] date. *)
Definition date_le (r : JoinedRow) (d : Z) : bool :=
  match snd r with
  | Some e => er_date e <=? d
  | None => false
  end.

(** [je.date IS NULL OR (je.date >= $1 AND je.date <= $2)] *)
Definition date_null_or_between (r : JoinedRow) (fromDate toDate : Z) : bool :=
  match snd r with
  | Some e => (fromDate <=? er_date e) && (er_date e <=? toDate)
  | None => true
  end.

(** BalanceRepository.calculateDisplayBalance *)
Definition calculateDisplayBalance (accountType : AccountType) (debits credits : Z) : Z :=
  let netAmount := debits - credits in
  match accountType with
  | Liability | Equity | Revenue => netAmount
  | _ => netAmount
  end.

(** One result row per group, mapped to an [AccountBalance]. *)
Definition group_row (a : Account) (rows : list JoinedRow) : list AccountBalance :=
  match rows with
  | [] => []
  | _ =>
      let debits := sum_column lr_debit_cents rows in
      let credits := sum_column lr_credit_cents rows in
      [mkAccountBalance (acc_code a) (acc_name a) (acc_type a) debits credits
                        (calculateDisplayBalance (acc_type a) debits credits)]
  end.

Definition BalanceRepository_getAccountBalance (db : Database) (accountCode : string)
  (asOfDate : option Z) : option AccountBalance :=
  let where_ (a : Account) (r : JoinedRow) :=
    String.eqb (acc_code a) accountCode
    && match asOfDate with
       | Some d => date_le r d
       | None => true
       end in
  let result :=
    flat_map (fun a => group_row a (filter (where_ a) (joined_rows db a))) (accounts db) in
  match result with
  | [] => None
  | row :: _ => Some row
  end.

Definition BalanceRepository_getTrialBalance (db : Database) (fromDate toDate : Z)
  : TrialBalanceReport :=
  let result :=
    sort_by (fun x y => String.leb (ab_account_code x) (ab_account_code y))
      (flat_map
         (fun a => group_row a (filter (fun r => date_null_or_between r fromDate toDate)
                                       (joined_rows db a)))
         (accounts db)) in
  mkTrialBalanceReport fromDate toDate result
    (sumZ (map ab_debits result)) (sumZ (map ab_credits result)).

(** ** BalanceService *)

Definition BalanceService_getAccountBalance (db : Database) (accountCode : string)
  (asOfDate : option Z) : Result AccountBalance :=
  if String.eqb accountCode "" then Err (ValidationError [MsgAccountCodeRequired])
  else
    (* Ensure account exists *)
    AccountService_getAccount db accountCode ;;;
    match BalanceRepository_getAccountBalance db accountCode asOfDate with
    | Some balance => Ok balance
    | None => Err (NotFoundError (MsgNoBalanceData accountCode))
    end.

Definition BalanceService_getTrialBalance (db : Database) (from to : Z)
  : Result TrialBalanceReport :=
  validated <- validateInput trialBalanceQuerySchema (from, to) ;;
  let trialBalance :=
    BalanceRepository_getTrialBalance db (fst validated) (snd validated) in
  (* Validate that debits equal credits *)
  if negb (tb_total_debits trialBalance =? tb_total_credits trialBalance) then
    Err (InternalError (MsgTrialBalanceBroken (tb_total_debits trialBalance)
                                              (tb_total_credits trialBalance)))
  else Ok trialBalance.

(** ** The scenario of the specification *)

Definition post (today : Z) (db : Database) (d : Z) (n : string)
  (ls : list (string * Q * Q)) (key : option string) : Database :=
  fst (JournalService_createJournalEntry today db
         (mkEntryReq d n
            (map (fun l => mkLineReq (fst (fst l)) (Some (snd (fst l))) (Some (snd l))) ls)
            None) key).

Definition chart : Database :=
  fold_left (fun db r => fst (AccountService_createAccount db r))
    [mkCreateAccountRequest "1001" "Cash" Asset;
     mkCreateAccountRequest "3001" "Capital" Equity;
     mkCreateAccountRequest "4001" "Sales" Revenue;
     mkCreateAccountRequest "5001" "Rent" Expense]
    empty_db.

Definition scenario : Database :=
  let db1 := post 31 chart 1 "Seed capital" [("1001", 1000#1, 0); ("3001", 0, 1000#1)]%Q None in
  let db2 := post 31 db1 5 "Cash sale" [("1001", 500#1, 0); ("4001", 0, 500#1)]%Q None in
  post 31 db2 7 "Office rent" [("5001", 200#1, 0); ("1001", 0, 200#1)]%Q None.

(** ** Requests as sequences of awaited stages

    [createJournalEntry] awaits the database several times; between two
    awaits another request may run.  Its writes are two: the transaction
    of [JournalRepository.create], and the insert of
    [IdempotencyRepository.create] issued after that transaction has
    committed.  A request in flight is at one of these points. *)

Inductive Task : Type :=
  | Called (today : Z) (entryData : CreateJournalEntryRequest)
           (idempotencyKey : option string)
      (* nothing awaited yet *)
  | Checked (validatedData : CreateJournalEntryRequest) (accounts_ : list Account)
            (idempotencyKey : option string)
      (* validation, idempotency check and look-ups done *)
  | Created (validatedData : CreateJournalEntryRequest) (createdEntry : JournalEntry)
            (idempotencyKey : option string)
      (* the entry is committed, the idempotency record not yet written *)
  | Returned (idempotencyKey : option string) (result : Result JournalEntry).

(** Everything [createJournalEntry] does before it creates the entry. *)
Definition checks (today : Z) (db : Database) (entryData : CreateJournalEntryRequest)
  (idempotencyKey : option string) : Task :=
  match validateInput (journalEntrySchema today) entryData with
  | Err e => Returned idempotencyKey (Err e)
  | Ok validatedData =>
  match idempotency_block db idempotencyKey validatedData with
  | Err e => Returned idempotencyKey (Err e)
  | Ok (Some existingEntry) => Returned idempotencyKey (Ok existingEntry)
  | Ok None =>
  match AccountService_validateAccountsExist db (map account_code (lines validatedData)) with
  | Err e => Returned idempotencyKey (Err e)
  | Ok accounts_ =>
  match reversal_block db validatedData with
  | Err e => Returned idempotencyKey (Err e)
  | Ok _ =>
  match validateDoubleEntryRules validatedData with
  | Err e => Returned idempotencyKey (Err e)
  | Ok _ => Checked validatedData accounts_ idempotencyKey
  end end end end end.

(** One stage of a request against the current database. *)
Definition advance (db : Database) (t : Task) : Database * Task :=
  match t with
  | Called today entryData idempotencyKey =>
      (db, checks today db entryData idempotencyKey)
  | Checked validatedData accounts_ idempotencyKey =>
      match JournalRepository_create db validatedData accounts_ with
      | Err e => (db, Returned idempotencyKey (Err e))
      | Ok (db1, createdEntry) =>
          match given idempotencyKey with
          | None => (db1, Returned idempotencyKey (Ok createdEntry))
          | Some _ => (db1, Created validatedData createdEntry idempotencyKey)
          end
      end
  | Created validatedData createdEntry idempotencyKey =>
      match given idempotencyKey with
      | None => (db, Returned idempotencyKey (Ok createdEntry))
      | Some key =>
          match IdempotencyService_recordRequest db key (request_json validatedData)
                                                 (je_id createdEntry) with
          | Ok db2 => (db2, Returned idempotencyKey (Ok createdEntry))
          | Err e => (db, Returned idempotencyKey (Err e))
          end
      end
  | Returned _ _ => (db, t)
  end.

Fixpoint replace_nth {A} (i : nat) (x : A) (l : list A) : list A :=
  match l, i with
  | [], _ => []
  | _ :: r, O => x :: r
  | y :: r, S j => y :: replace_nth j x r
  end.

(** The states the service can be in while requests interleave: new
    requests arrive, accounts are created, and any request in flight
    advances by one stage. *)
Inductive interleaved : Database -> list Task -> Prop :=
  | il_start : interleaved empty_db []
  | il_account db ts r :
      interleaved db ts ->
      interleaved (fst (AccountService_createAccount db r)) ts
  | il_call db ts today entryData idempotencyKey :
      interleaved db ts ->
      interleaved db (ts ++ [Called today entryData idempotencyKey])
  | il_advance db ts i t :
      interleaved db ts ->
      nth_error ts i = Some t ->
      interleaved (fst (advance db t)) (replace_nth i (snd (advance db t)) ts).

(** The states reached when every call runs to its end before the next. *)
Inductive reachable : Database -> Prop :=
  | reach_empty : reachable empty_db
  | reach_createAccount db r :
      reachable db -> reachable (fst (AccountService_createAccount db r))
  | reach_createJournalEntry db today entryData idempotencyKey :
      reachable db ->
      reachable (fst (JournalService_createJournalEntry today db entryData idempotencyKey))
  | reach_createReversalEntry db today id narration_ reversalDate idempotencyKey :
      reachable db ->
      reachable (fst (JournalService_createReversalEntry today db id narration_
                                                         reversalDate idempotencyKey)).

(** ** Notions used to state the properties *)

(** The rows of [journal_lines] that belong to an entry. *)
Definition entry_lines (db : Database) (id : Id) : list LineRow :=
  filter (fun l => lr_entry_id l =? id)%nat (journal_lines db).

Definition entry_debits (db : Database) (id : Id) : Z :=
  sumZ (map lr_debit_cents (entry_lines db id)).

Definition entry_credits (db : Database) (id : Id) : Z :=
  sumZ (map lr_credit_cents (entry_lines db id)).

(** The integrity of a ledger state: keys are unique and below the id
    counter, references resolve, every entry balances with a positive
    total and numbers its lines from zero. *)
Record wf (db : Database) : Prop := mk_wf {
  wf_acc_ids : NoDup (map acc_id (accounts db));
  wf_acc_codes : NoDup (map acc_code (accounts db));
  wf_acc_named : forall a, In a (accounts db) -> acc_code a <> "";
  wf_acc_fresh : forall a, In a (accounts db) -> (acc_id a < next_uuid db)%nat;
  wf_entry_ids : NoDup (map er_id (journal_entries db));
  wf_entry_fresh : forall e, In e (journal_entries db) -> (er_id e < next_uuid db)%nat;
  wf_line_entry : forall l, In l (journal_lines db) ->
                            entry_exists db (lr_entry_id l) = true;
  wf_line_account : forall l, In l (journal_lines db) ->
                              account_id_exists db (lr_account_id l) = true;
  wf_balanced : forall e, In e (journal_entries db) ->
                          entry_debits db (er_id e) = entry_credits db (er_id e)
                          /\ 0 < entry_debits db (er_id e);
  wf_indices : forall e, In e (journal_entries db) ->
                         map lr_line_index (entry_lines db (er_id e))
                         = seq 0 (List.length (entry_lines db (er_id e)));
  wf_idem_entry : forall r, In r (idempotency_keys db) ->
                            entry_exists db (ik_entry_id r) = true
}.

(** A candidate entry that breaks one of the rules named by the boundary
    cases: fewer than two lines, a line with both sides set, no amount at
    all, or a date after today.  Amounts are read in minor units. *)
Definition debitCents (l : CreateJournalLineRequest) : Z := toCents (orZero (debit l)).
Definition creditCents (l : CreateJournalLineRequest) : Z := toCents (orZero (credit l)).


(** The lines of an account that count for a balance as of a date: all of
    them without a date, else those whose entry is dated on or before it. *)
Definition counts_as_of (db : Database) (asOfDate : option Z) (l : LineRow) : bool :=
  match asOfDate with
  | None => true
  | Some d => existsb (fun e => (er_id e =? lr_entry_id l)%nat && (er_date e <=? d))
                      (journal_entries db)
  end.

Definition account_lines (db : Database) (a : Account) (asOfDate : option Z) : list LineRow :=
  filter (fun l => (lr_account_id l =? acc_id a)%nat && counts_as_of db asOfDate l)
         (journal_lines db).

(** What a line posts: its position, its account and its two amounts. *)
Definition posting (l : JournalLine) : nat * Id * string * Z * Z :=
  (jl_line_index l, jl_account_id l, jl_account_code l, jl_debit_cents l, jl_credit_cents l).

(** The same line with debit and credit swapped. *)
Definition swapped (p : nat * Id * string * Z * Z) : nat * Id * string * Z * Z :=
  let '(i, a, c, d, k) := p in (i, a, c, k, d).

(** ** Concrete ledgers and requests used as examples *)

Definition line (code : string) (d c : Q) : CreateJournalLineRequest :=
  mkLineReq code (Some d) (Some c).

Definition seed_capital : CreateJournalEntryRequest :=
  mkEntryReq 1 "Seed capital" [line "1001" (1000#1) 0; line "3001" 0 (1000#1)] None.

(** The same request with other amounts on its lines. *)
Definition seed_capital_doubled : CreateJournalEntryRequest :=
  mkEntryReq 1 "Seed capital" [line "1001" (2000#1) 0; line "3001" 0 (2000#1)] None.

(** The scenario ledger with one more account that has no activity. *)
Definition scenario_with_bank : Database :=
  fst (AccountService_createAccount scenario (mkCreateAccountRequest "1002" "Bank" Asset)).

(** A schedule runs the stages of the requests in flight in the given order. *)
Definition run_stage (s : Database * list Task) (i : nat) : Database * list Task :=
  match nth_error (snd s) i with
  | Some t => (fst (advance (fst s) t), replace_nth i (snd (advance (fst s) t)) (snd s))
  | None => s
  end.

Definition run_schedule (schedule : list nat) (s : Database * list Task)
  : Database * list Task :=
  fold_left run_stage schedule s.

(** Two requests with the same key and the same payload, each stage of the
    first followed by the same stage of the second. *)
Definition racing : Database * list Task :=
  run_schedule [0; 1; 0; 1; 0; 1]%nat
    (chart, [Called 31 seed_capital (Some "k1"); Called 31 seed_capital (Some "k1")]).

(** ** Notions used in the proofs *)

(** A line that posts one strictly positive amount on exactly one side. *)
Definition one_sided (l : CreateJournalLineRequest) : Prop :=
  (0 < debitCents l /\ creditCents l = 0) \/ (debitCents l = 0 /\ 0 < creditCents l).

(** The row of [journal_lines] behind a returned line. *)
Definition row_of (l : JournalLine) : LineRow :=
  mkLineRow (jl_id l) (jl_entry_id l) (jl_account_id l) (jl_debit_cents l)
            (jl_credit_cents l) (jl_line_index l).

(** How a returned line answers the request line it was made from. *)
Definition answers (accountMap : list Account) (l : CreateJournalLineRequest)
  (o : JournalLine) : Prop :=
  jl_debit_cents o = debitCents l /\ jl_credit_cents o = creditCents l
  /\ exists a, accountMap_get accountMap (account_code l) = Some a
               /\ jl_account_id o = acc_id a /\ jl_account_code o = acc_code a.

(** A call ends in one of three ways: it is rejected before anything is
    written; it is answered with the entry recorded for its key; or it
    creates an entry, and then records the key when one was given. *)
Definition rejected (db db' : Database) (r : Result JournalEntry) : Prop :=
  db' = db /\ exists e, r = Err e.

Definition replayed (today : Z) (db : Database) (entryData : CreateJournalEntryRequest)
  (idempotencyKey : option string) (db' : Database) (r : Result JournalEntry) : Prop :=
  db' = db
  /\ exists validatedData existingEntry,
       validateInput (journalEntrySchema today) entryData = Ok validatedData
       /\ idempotency_block db idempotencyKey validatedData = Ok (Some existingEntry)
       /\ r = Ok existingEntry.

Definition created (today : Z) (db : Database) (entryData : CreateJournalEntryRequest)
  (idempotencyKey : option string) (db' : Database) (r : Result JournalEntry) : Prop :=
  exists validatedData accounts_ db1 createdEntry,
    validateInput (journalEntrySchema today) entryData = Ok validatedData
    /\ idempotency_block db idempotencyKey validatedData = Ok None
    /\ AccountService_validateAccountsExist db (map account_code (lines validatedData))
       = Ok accounts_
    /\ reversal_block db validatedData = Ok tt
    /\ validateDoubleEntryRules validatedData = Ok tt
    /\ JournalRepository_create db validatedData accounts_ = Ok (db1, createdEntry)
    /\ match given idempotencyKey with
       | None => db' = db1 /\ r = Ok createdEntry
       | Some key =>
           match IdempotencyService_recordRequest db1 key (request_json validatedData)
                                                  (je_id createdEntry) with
           | Ok db2 => db' = db2 /\ r = Ok createdEntry
           | Err e => db' = db1 /\ r = Err e
           end
       end.

(** The joined rows of an account whose entries pass a condition [keep] on
    the entry ([NULL] entries are kept or not by [keep None]). *)
Definition kept (db : Database) (keep : option EntryRow -> bool) (l : LineRow) : bool :=
  existsb (fun e => (er_id e =? lr_entry_id l)%nat && keep (Some e)) (journal_entries db).

(** The condition of the trial-balance query on the entry of a row. *)
Definition between (fromDate toDate : Z) (je : option EntryRow) : bool :=
  match je with
  | Some e => (fromDate <=? er_date e) && (er_date e <=? toDate)
  | None => true
  end.

(** The condition of the balance query on the entry of a row. *)
Definition as_of (asOfDate : option Z) (je : option EntryRow) : bool :=
  match asOfDate with
  | Some d => match je with
              | Some e => er_date e <=? d
              | None => false
              end
  | None => true
  end.



(** What is known of a request in flight. *)
Definition task_ok (db : Database) (t : Task) : Prop :=
  match t with
  | Called _ _ _ => True
  | Checked validatedData _ _ => validateDoubleEntryRules validatedData = Ok tt
  | Created _ createdEntry _ => entry_exists db (je_id createdEntry) = true
  | Returned idempotencyKey (Ok e) =>
      forall key, given idempotencyKey = Some key ->
        entry_exists db (je_id e) = true
        /\ exists r, In r (idempotency_keys db) /\ ik_key r = key
                     /\ ik_entry_id r = je_id e
  | Returned _ (Err _) => True
  end.

(** Entries and idempotency records are only ever added. *)
Definition grows (db db' : Database) : Prop :=
  incl (journal_entries db) (journal_entries db')
  /\ incl (idempotency_keys db) (idempotency_keys db').

(** The join of [findById]: the lines of the entry, each with the code of
    its account. *)
Definition joined_lines (db : Database) (id : Id) : list JournalLine :=
  flat_map
    (fun jl =>
       map (fun a => mkJournalLine (lr_id jl) (lr_entry_id jl) (lr_account_id jl)
                                   (acc_code a) (lr_debit_cents jl)
                                   (lr_credit_cents jl) (lr_line_index jl))
           (filter (fun a => acc_id a =? lr_account_id jl)%nat (accounts db)))
    (entry_lines db id).

(** A returned line names an account of the directory by id and by code. *)
Definition account_of (db : Database) (l : JournalLine) : Prop :=
  exists a, In a (accounts db) /\ acc_id a = jl_account_id l
            /\ acc_code a = jl_account_code l.

(** The ledger after the first entry of the scenario. *)
Definition seeded : Database := post 31 chart 1 "Seed capital"
                                     [("1001", 1000#1, 0); ("3001", 0, 1000#1)]%Q None.

(** ** Further functions of the repositories and services

    The functions below are the rest of the account, journal, balance and
    idempotency classes, the two request guards of the middleware and the
    response formatting of the controllers.  [ORDER BY code] compares codes
    as [String.leb] does (codes are ASCII letters and digits). *)

(** A JavaScript [Map] with string keys: the entries in insertion order;
    [set] on a key that is present replaces its value where it stands. *)
Fixpoint Map_set {B} (k : string) (v : B) (m : list (string * B)) : list (string * B) :=
  match m with
  | [] => [(k, v)]
  | (k', v') :: r => if String.eqb k k' then (k, v) :: r else (k', v') :: Map_set k v r
  end.

Definition Map_get {B} (k : string) (m : list (string * B)) : option B := assoc k m.

(** *** AccountRepository *)

Definition AccountType_eqb (x y : AccountType) : bool :=
  match x, y with
  | Asset, Asset | Liability, Liability | Equity, Equity
  | Revenue, Revenue | Expense, Expense => true
  | _, _ => false
  end.

Definition AccountRepository_findById (db : Database) (id : Id) : option Account :=
  find (fun a => acc_id a =? id)%nat (accounts db).

(** [SELECT * FROM accounts [WHERE type = $1] ORDER BY code] *)
Definition AccountRepository_findAll (db : Database) (type : option AccountType)
  : list Account :=
  sort_by (fun a b => String.leb (acc_code a) (acc_code b))
    match type with
    | Some t => filter (fun a => AccountType_eqb (acc_type a) t) (accounts db)
    | None => accounts db
    end.

(** [SELECT 1 FROM accounts WHERE code = $1], then [result.length > 0]. *)
Definition AccountRepository_exists (db : Database) (code : string) : bool :=
  (0 <? List.length (filter (fun a => String.eqb (acc_code a) code) (accounts db)))%nat.

(** [SELECT 1 FROM journal_lines WHERE account_id = $1 LIMIT 1], then
    [result.length > 0]. *)
Definition AccountRepository_hasTransactions (db : Database) (accountId : Id) : bool :=
  (0 <? List.length
          (firstn 1 (filter (fun l => lr_account_id l =? accountId)%nat
                            (journal_lines db))))%nat.

(** *** AccountService *)

Definition AccountService_getAllAccounts (db : Database) (type : option AccountType)
  : list Account :=
  AccountRepository_findAll db type.

Inductive NormalBalance : Type := debit_normal | credit_normal.

Definition AccountService_getAccountNormalBalance (accountType : AccountType)
  : NormalBalance :=
  match accountType with
  | Asset | Expense => debit_normal
  | Liability | Equity | Revenue => credit_normal
  end.

(** Accounts with existing transactions cannot be deleted. *)
Definition AccountService_canDeleteAccount (db : Database) (code : string) : Result bool :=
  account <- AccountService_getAccount db code ;;
  Ok (negb (AccountRepository_hasTransactions db (acc_id account))).

Definition AccountService_getAccountMapBycodes (db : Database) (codes : list string)
  : Result (list (string * Account)) :=
  accounts_ <- AccountService_validateAccountsExist db codes ;;
  Ok (fold_left (fun accountMap account => Map_set (acc_code account) account accountMap)
                accounts_ []).

(** *** BalanceRepository *)

(** [je.date IS NULL OR je.date <= $1] *)
Definition date_null_or_le (r : JoinedRow) (d : Z) : bool :=
  match snd r with
  | Some e => er_date e <=? d
  | None => true
  end.

Definition BalanceRepository_getAllAccountBalances (db : Database) (asOfDate : option Z)
  : list AccountBalance :=
  let where_ (r : JoinedRow) :=
    match asOfDate with
    | Some d => date_null_or_le r d
    | None => true
    end in
  sort_by (fun x y => String.leb (ab_account_code x) (ab_account_code y))
    (flat_map (fun a => group_row a (filter where_ (joined_rows db a))) (accounts db)).

(** *** BalanceService *)

Definition BalanceService_getAllAccountBalances (db : Database) (asOfDate : option Z)
  : list AccountBalance :=
  BalanceRepository_getAllAccountBalances db asOfDate.

Record BalanceSummary : Type := mkBalanceSummary {
  bs_assets : Z;
  bs_liabilities : Z;
  bs_equity : Z;
  bs_revenue : Z;
  bs_expenses : Z;
  bs_netIncome : Z
}.

(** The body of the loop over the balances: the five running totals. *)
Definition summary_step (totals : Z * Z * Z * Z * Z) (balance : AccountBalance)
  : Z * Z * Z * Z * Z :=
  let '(assets, liabilities, equity, revenue, expenses) := totals in
  match ab_account_type balance with
  | Asset => (assets + ab_balance balance, liabilities, equity, revenue, expenses)
  | Liability =>
      (* Make positive for summary *)
      (assets, liabilities + Z.abs (ab_balance balance), equity, revenue, expenses)
  | Equity => (assets, liabilities, equity + Z.abs (ab_balance balance), revenue, expenses)
  | Revenue => (assets, liabilities, equity, revenue + Z.abs (ab_balance balance), expenses)
  | Expense => (assets, liabilities, equity, revenue, expenses + ab_balance balance)
  end.

Definition BalanceService_getBalanceSummaryByType (db : Database) (asOfDate : option Z)
  : BalanceSummary :=
  let balances := BalanceService_getAllAccountBalances db asOfDate in
  let '(assets, liabilities, equity, revenue, expenses) :=
    fold_left summary_step balances (0, 0, 0, 0, 0) in
  (* Net income = Revenue - Expenses *)
  let netIncome := revenue - expenses in
  mkBalanceSummary assets liabilities equity revenue expenses netIncome.

Inductive EquationMessage : Type :=
  | EquationBalanced                      (* 'Accounting equation is balanced' *)
  | EquationNotBalanced (difference : Z). (* `... is not balanced. Difference: ${difference} cents` *)

Record EquationCheck : Type := mkEquationCheck {
  ae_isValid : bool;
  ae_assets : Z;
  ae_liabilities : Z;
  ae_equity : Z;
  ae_difference : Z;
  ae_message : EquationMessage
}.

(** Assets = Liabilities + Equity, checked on the summary. *)
Definition BalanceService_validateAccountingEquation (db : Database) (asOfDate : option Z)
  : EquationCheck :=
  let summary := BalanceService_getBalanceSummaryByType db asOfDate in
  let leftSide := bs_assets summary in
  let rightSide := bs_liabilities summary + bs_equity summary in
  let difference := leftSide - rightSide in
  let isValid_ := Z.abs difference <? 1 in
  mkEquationCheck isValid_ (bs_assets summary) (bs_liabilities summary) (bs_equity summary)
                  difference
                  (if isValid_ then EquationBalanced else EquationNotBalanced difference).

(** Check if an account has any activity; a [NotFoundError] of the balance
    query is answered [false], any other error is thrown again. *)
Definition BalanceService_hasAccountActivity (db : Database) (accountCode : string)
  (asOfDate : option Z) : Result bool :=
  match BalanceService_getAccountBalance db accountCode asOfDate with
  | Ok balance => Ok ((0 <? ab_debits balance) || (0 <? ab_credits balance))
  | Err (NotFoundError _) => Ok false
  | Err e => Err e
  end.

(** *** IdempotencyRepository and IdempotencyService *)

Definition IdempotencyRepository_exists (db : Database) (key : string) : bool :=
  (0 <? List.length (filter (fun r => String.eqb (ik_key r) key) (idempotency_keys db)))%nat.

Definition IdempotencyService_getByKey (db : Database) (key : string)
  : option IdempotencyRecord :=
  if String.eqb key "" then None else IdempotencyRepository_findByKey db key.

Definition IdempotencyService_keyExists (db : Database) (key : string) : bool :=
  if String.eqb key "" then false else IdempotencyRepository_exists db key.

(** The character class of [/^[a-zA-Z0-9_-]+$/]. *)
Definition is_key_char (c : ascii) : bool :=
  is_alphanum c || Ascii.eqb c "_" || Ascii.eqb c "-".

Definition IdempotencyService_validateIdempotencyKeyFormat (key : string) : bool :=
  if String.eqb key "" then false
  (* Check length *)
  else if (String.length key <? 1)%nat || (255 <? String.length key)%nat then false
  (* Check format (alphanumeric, hyphens, underscores only) *)
  else forallb is_key_char (list_ascii_of_string key).

(** ** Middleware (middleware/auth) *)

(** The two answers of code [INVALID_IDEMPOTENCY_KEY] (status 400). *)
Inductive KeyHeaderError : Type :=
  | KeyHeaderBlank     (* 'Idempotency-Key header must be a non-empty string' *)
  | KeyHeaderTooLong.  (* 'Idempotency-Key header must not exceed 255 characters' *)

Inductive Extracted : Type :=
  | BadRequest (reason : KeyHeaderError)   (* answered; [next] is not called *)
  | Next (idempotencyKey : option string). (* [req.idempotencyKey], then [next()] *)

(** [AuthMiddleware.extractIdempotencyKey] on the [Idempotency-Key] header. *)
Definition extractIdempotencyKey (header : option string) : Extracted :=
  match given header with
  | None => Next None
  | Some idempotencyKey =>
      (* Validate idempotency key format *)
      if is_blank idempotencyKey then BadRequest KeyHeaderBlank
      else if (255 <? String.length idempotencyKey)%nat then BadRequest KeyHeaderTooLong
      else Next (Some idempotencyKey)
  end.

(** The table [api_keys]; [is_active] and [last_used_at] may be [NULL]. *)
Record ApiKeyRow : Type := mkApiKeyRow {
  ak_key : string;
  ak_name : option string;
  ak_is_active : option bool;
  ak_last_used_at : option Z
}.

Inductive Unauthorized : Type :=
  | ApiKeyRequired         (* 'API key is required. Please provide X-API-Key header.' *)
  | ApiKeyInvalidFormat    (* 'Invalid API key format.' *)
  | ApiKeyInvalidOrInactive. (* 'Invalid or inactive API key.' *)

(** [key = $1 AND is_active = true] *)
Definition active_key (apiKey : string) (r : ApiKeyRow) : bool :=
  String.eqb (ak_key r) apiKey
  && match ak_is_active r with
     | Some b => b
     | None => false
     end.

(** [AuthMiddleware.validateApiKey] on the [X-API-Key] header at time
    [now]: status 401 with a reason, or [req.apiKey] and [next()]. *)
Definition validateApiKey (api_keys : list ApiKeyRow) (now : Z) (header : option string)
  : list ApiKeyRow * (Unauthorized + string) :=
  match given header with
  | None => (api_keys, inl ApiKeyRequired)
  | Some apiKey =>
      (* Validate API key format *)
      if is_blank apiKey then (api_keys, inl ApiKeyInvalidFormat)
      else
        (* Check if API key exists and is active *)
        match filter (active_key apiKey) api_keys with
        | [] => (api_keys, inl ApiKeyInvalidOrInactive)
        | _ =>
            (* Update last used timestamp *)
            (map (fun r => if String.eqb (ak_key r) apiKey
                           then mkApiKeyRow (ak_key r) (ak_name r) (ak_is_active r) (Some now)
                           else r) api_keys,
             inr apiKey)
        end
  end.

(** The rate limiter: a [Map] from the key of the caller to the count of
    its requests in the current window and the time the window ends. *)
Record RateEntry : Type := mkRateEntry {
  re_count : Z;
  re_resetTime : Z
}.

Definition WINDOW_SIZE : Z := 60 * 1000.
Definition MAX_REQUESTS : Z := 100.

(** [Math.ceil(x / d)] for integers [x] and [d > 0]. *)
Definition ceil_div (x d : Z) : Z := - ((- x) / d).

Inductive RateOutcome : Type :=
  | TooManyRequests (retryAfter : Z)       (* status 429 *)
  | RateNext (limit remaining reset : Z).  (* the [X-RateLimit-*] headers, then [next()] *)

(** One call of [AuthMiddleware.rateLimit] at time [now = Date.now()]. *)
Definition rateLimit (requests : list (string * RateEntry)) (key : string) (now : Z)
  : list (string * RateEntry) * RateOutcome :=
  (* Clean up old entries *)
  let requests1 :=
    filter (fun kv : string * RateEntry => negb (re_resetTime (snd kv) <? now)) requests in
  (* Get or create rate limit entry *)
  let fresh := mkRateEntry 0 (now + WINDOW_SIZE) in
  let entry :=
    match Map_get key requests1 with
    | Some entry => if re_resetTime entry <? now then fresh else entry
    | None => fresh
    end in
  (* entry.count++ on the object the map holds *)
  let entry' := mkRateEntry (re_count entry + 1) (re_resetTime entry) in
  let requests2 := Map_set key entry' requests1 in
  (* Check rate limit *)
  if MAX_REQUESTS <? re_count entry' then
    (requests2, TooManyRequests (ceil_div (re_resetTime entry' - now) 1000))
  else
    (requests2, RateNext MAX_REQUESTS (MAX_REQUESTS - re_count entry')
                         (ceil_div (re_resetTime entry') 1000)).

(** ** Controllers: formatting of the responses *)

(** A line of a journal entry as the journal controller shows it. *)
Record LineView : Type := mkLineView {
  lv_id : Id;
  lv_account_code : string;
  lv_debit : Q;
  lv_credit : Q;
  lv_line_index : nat
}.

(** [line.debit_cents > 0 ? line.debit_cents / 100 : 0] *)
Definition shown_amount (cents : Z) : Q :=
  if 0 <? cents then inject_Z cents / 100 else 0%Q.

Definition line_view (l : JournalLine) : LineView :=
  mkLineView (jl_id l) (jl_account_code l) (shown_amount (jl_debit_cents l))
             (shown_amount (jl_credit_cents l)) (jl_line_index l).

(** The entry with its lines replaced by their views. *)
Record EntryView : Type := mkEntryView {
  ev_id : Id;
  ev_date : Z;
  ev_narration : string;
  ev_reverses_entry_id : option Id;
  ev_lines : list LineView
}.

Definition entry_view (e : JournalEntry) : EntryView :=
  mkEntryView (je_id e) (je_date e) (je_narration e) (je_reverses_entry_id e)
              (map line_view (je_lines e)).

Inductive ErrorCode : Type := VALIDATION_ERROR | CONFLICT_ERROR | NOT_FOUND | INTERNAL_ERROR.

(** What a controller sends: a status with the data, or a status with an
    error code (and the message of the error, except for status 500). *)
Inductive Response (A : Type) : Type :=
  | Sent (status : Z) (data : A)
  | Failed (status : Z) (code : ErrorCode) (error : option LedgerError).
Arguments Sent {A} status data.
Arguments Failed {A} status code error.

(** [JournalController.handleError] *)
Definition JournalController_handleError {A} (error : LedgerError) : Response A :=
  match error with
  | ValidationError _ => Failed 400 VALIDATION_ERROR (Some error)
  | ConflictError _ => Failed 409 CONFLICT_ERROR (Some error)
  | NotFoundError _ => Failed 404 NOT_FOUND (Some error)
  | InternalError _ => Failed 500 INTERNAL_ERROR None
  end.


(** [BalanceController.handleError]: no case for [ConflictError]. *)
Definition BalanceController_handleError {A} (error : LedgerError) : Response A :=
  match error with
  | ValidationError _ => Failed 400 VALIDATION_ERROR (Some error)
  | NotFoundError _ => Failed 404 NOT_FOUND (Some error)
  | _ => Failed 500 INTERNAL_ERROR None
  end.


(** [GET /journal-entries/:id] *)
Definition JournalController_getJournalEntry (db : Database) (id : Id)
  : Response EntryView :=
  match JournalService_getJournalEntry db id with
  | Ok journalEntry => Sent 200 (entry_view journalEntry)
  | Err error => JournalController_handleError error
  end.


(** The trial balance as the balance controller shows it. *)
Record TrialBalanceView : Type := mkTrialBalanceView {
  tv_from : Z;
  tv_to : Z;
  tv_accounts : list (string * string * AccountType * Q * Q * Q);
  tv_total_debits : Q;
  tv_total_credits : Q;
  tv_is_balanced : bool
}.

(** [GET /reports/trial-balance] with both dates given. *)
Definition BalanceController_getTrialBalance (db : Database) (from to : Z)
  : Response TrialBalanceView :=
  match BalanceService_getTrialBalance db from to with
  | Ok trialBalance =>
      Sent 200
        (mkTrialBalanceView (tb_from trialBalance) (tb_to trialBalance)
           (map (fun account =>
                   (ab_account_code account, ab_account_name account,
                    ab_account_type account, fromCents (ab_debits account),
                    fromCents (ab_credits account), fromCents (ab_balance account)))
                (tb_accounts trialBalance))
           (fromCents (tb_total_debits trialBalance))
           (fromCents (tb_total_credits trialBalance))
           (tb_total_debits trialBalance =? tb_total_credits trialBalance))
  | Err error => BalanceController_handleError error
  end.

(** ** Notions used to state the further properties *)

(** What the account schema asks of a code and a name. *)
Definition valid_account (a : Account) : Prop :=
  (1 <= String.length (acc_code a) <= 20)%nat
  /\ forallb is_alphanum (list_ascii_of_string (acc_code a)) = true
  /\ (1 <= String.length (acc_name a) <= 100)%nat.

(** The filter of [findAll]. *)
Definition of_type (type : option AccountType) (a : Account) : bool :=
  match type with
  | Some t => AccountType_eqb (acc_type a) t
  | None => true
  end.

Definition by_code (a b : Account) : Prop := String.leb (acc_code a) (acc_code b) = true.

(** A stored line posts one strictly positive amount on exactly one side,
    within the range of the [INTEGER] columns. *)
Definition posted_line (l : LineRow) : Prop :=
  ((0 < lr_debit_cents l /\ lr_credit_cents l = 0)
   \/ (lr_debit_cents l = 0 /\ 0 < lr_credit_cents l))
  /\ lr_debit_cents l <= 2147483647 /\ lr_credit_cents l <= 2147483647.

(** One list continues another: it adds elements at the end. *)
Definition continues {A} (l l' : list A) : Prop := exists added, l' = l ++ added.

(** A ledger that keeps every row of another, in place. *)
Definition extends (db db' : Database) : Prop :=
  continues (accounts db) (accounts db')
  /\ continues (journal_entries db) (journal_entries db')
  /\ continues (journal_lines db) (journal_lines db')
  /\ continues (idempotency_keys db) (idempotency_keys db')
  /\ (next_uuid db <= next_uuid db')%nat.

(** One call of a service that writes. *)
Inductive service_call (db : Database) : Database -> Prop :=
  | call_createAccount accountData :
      service_call db (fst (AccountService_createAccount db accountData))
  | call_createJournalEntry today entryData idempotencyKey :
      service_call db
        (fst (JournalService_createJournalEntry today db entryData idempotencyKey))
  | call_createReversalEntry today id narration_ reversalDate idempotencyKey :
      service_call db
        (fst (JournalService_createReversalEntry today db id narration_ reversalDate
                                                 idempotencyKey)).


(** The condition of the all-balances query on the entry of a row. *)
Definition null_or_as_of (asOfDate : option Z) (je : option EntryRow) : bool :=
  match asOfDate, je with
  | Some d, Some e => er_date e <=? d
  | _, _ => true
  end.

(** The lines of an account whose entry passes a condition. *)
Definition counted_lines (db : Database) (keep : option EntryRow -> bool) (a : Account)
  : list LineRow :=
  filter (fun l => (lr_account_id l =? acc_id a)%nat && kept db keep l) (journal_lines db).

(** The lines of an account whose entry is dated in a range. *)
Definition lines_in_range (db : Database) (a : Account) (fromDate toDate : Z) : list LineRow :=
  counted_lines db (between fromDate toDate) a.

(** The balance row of an account over the lines that count. *)
Definition balance_over (a : Account) (counted : list LineRow) : AccountBalance :=
  let debits := sumZ (map lr_debit_cents counted) in
  let credits := sumZ (map lr_credit_cents counted) in
  mkAccountBalance (acc_code a) (acc_name a) (acc_type a) debits credits (debits - credits).

(** An account gets a row in a report over the lines [counted] when it has
    no line at all, or when one of its lines counts. *)
Definition has_row (db : Database) (a : Account) (counted : list LineRow) : bool :=
  match account_lines db a None, counted with
  | _ :: _, [] => false
  | _, _ => true
  end.

Definition by_account_code (x y : AccountBalance) : Prop :=
  String.leb (ab_account_code x) (ab_account_code y) = true.

(** The total, over the rows of one account type, of a function of the
    balance. *)
Definition total_of (t : AccountType) (f : Z -> Z) (rows : list AccountBalance) : Z :=
  sumZ (map (fun b => if AccountType_eqb (ab_account_type b) t then f (ab_balance b) else 0)
            rows).

(** The outcomes of a sequence of calls of the rate limiter, each call
    with the key of the caller and the time it is made. *)
Fixpoint serve (requests : list (string * RateEntry)) (calls : list (string * Z))
  : list RateOutcome :=
  match calls with
  | [] => []
  | (key, now) :: rest =>
      let (requests', outcome) := rateLimit requests key now in
      outcome :: serve requests' rest
  end.

Definition passed (outcome : RateOutcome) : bool :=
  match outcome with
  | RateNext _ _ _ => true
  | TooManyRequests _ => false
  end.

(** The calls made with a key, and the outcomes of those calls. *)
Definition calls_of (key : string) (calls : list (string * Z)) : list (string * Z) :=
  filter (fun c => String.eqb (fst c) key) calls.

Definition outcomes_of (key : string) (calls : list (string * Z))
  (outcomes : list RateOutcome) : list RateOutcome :=
  map snd (filter (fun co => String.eqb (fst (fst co)) key) (combine calls outcomes)).

(** Two requests that differ in a field the request hash covers: the date,
    the narration, the reversed entry or the number of lines. *)
Definition different_request (r r' : CreateJournalEntryRequest) : Prop :=
  date r <> date r' \/ narration r <> narration r'
  \/ reverses_entry_id r <> reverses_entry_id r'
  \/ List.length (lines r) <> List.length (lines r').

(** What authentication leaves untouched in a row of [api_keys]. *)
Definition credentials (r : ApiKeyRow) : string * option string * option bool :=
  (ak_key r, ak_name r, ak_is_active r).



(** * Properties *)

Unset Implicit Arguments.

(** ** The scenario of the specification *)

Example scenario_balances :
  map (fun code => match BalanceService_getAccountBalance scenario code None with
                   | Ok b => Some (ab_balance b)
                   | Err _ => None
                   end) ["1001"; "4001"; "3001"; "5001"]
  = [Some 130000; Some (-50000); Some (-100000); Some 20000]
  /\ (tb_total_debits (BalanceRepository_getTrialBalance scenario 1 31),
      tb_total_credits (BalanceRepository_getTrialBalance scenario 1 31))
     = (170000, 170000).
Proof. split; vm_compute; reflexivity. Qed.

(** ** Money *)

Lemma toCents_fromCents (cents : Z) : toCents (fromCents cents) = cents.
Proof.
  unfold toCents, fromCents.
  assert (E : (inject_Z cents / 100 * 100 + (1 # 2) == inject_Z cents + (1 # 2))%Q)
    by (field; discriminate).
  rewrite E. unfold Qfloor, Qplus, inject_Z. simpl.
  replace (cents * 2 + 1) with (1 + cents * 2) by ring.
  rewrite Z.div_add by discriminate. reflexivity.
Qed.

Lemma toCents_orZero (v : Q) : toCents (orZero (Some v)) = toCents v.
Proof.
  unfold orZero. destruct (Qeq_bool v 0) eqn:E; [|reflexivity].
  apply Qeq_bool_eq in E. unfold toCents. now rewrite E.
Qed.

Lemma Qgtb_fromCents (cents : Z) : Qgtb (fromCents cents) 0 = (0 <? cents).
Proof.
  unfold Qgtb, fromCents, Qle_bool, Qdiv, Qmult, Qinv. simpl.
  rewrite !Z.mul_1_r. symmetry. apply Z.ltb_antisym.
Qed.

Lemma Qltb_fromCents (cents : Z) : Qltb (fromCents cents) 0 = (cents <? 0).
Proof.
  unfold Qltb, fromCents, Qle_bool, Qdiv, Qmult, Qinv. simpl.
  rewrite !Z.mul_1_r. symmetry. apply Z.ltb_antisym.
Qed.

Lemma Qeq_fromCents (cents : Z) : Qeq_bool (fromCents cents) 0 = (cents =? 0).
Proof.
  unfold fromCents, Qeq_bool, Qdiv, Qmult, Qinv. simpl.
  rewrite !Z.mul_1_r. reflexivity.
Qed.

(** ** Lists, sums and sorting *)

Lemma sumZ_app (l1 l2 : list Z) : sumZ (l1 ++ l2) = sumZ l1 + sumZ l2.
Proof. unfold sumZ. induction l1; simpl; lia. Qed.

Lemma sumZ_nonneg (l : list Z) : Forall (fun z => 0 <= z) l -> 0 <= sumZ l.
Proof. induction 1; simpl; lia. Qed.

Lemma sumZ_perm (l1 l2 : list Z) : Permutation l1 l2 -> sumZ l1 = sumZ l2.
Proof. induction 1; simpl; lia. Qed.

Lemma insert_sorted_perm {A} (le : A -> A -> bool) (x : A) (l : list A) :
  Permutation (x :: l) (insert_sorted le x l).
Proof.
  induction l as [|y r IH]; simpl; [reflexivity|].
  destruct (le x y); [reflexivity|].
  rewrite perm_swap. now apply perm_skip.
Qed.

Lemma sort_by_perm {A} (le : A -> A -> bool) (l : list A) :
  Permutation l (sort_by le l).
Proof.
  induction l as [|x r IH]; simpl; [reflexivity|].
  rewrite <- insert_sorted_perm. now apply perm_skip.
Qed.

(** Sorting rows that are numbered upwards leaves them in place. *)
Lemma sort_by_index_seq {A} (index : A -> nat) (l : list A) (i : nat) :
  map index l = seq i (List.length l) ->
  sort_by (fun a b => index a <=? index b)%nat l = l.
Proof.
  revert i. induction l as [|x r IH]; intros i H; simpl in *; [reflexivity|].
  injection H as Hx Hr. rewrite (IH (S i) Hr).
  destruct r as [|y r']; simpl in *; [reflexivity|].
  injection Hr as Hy _.
  replace (index x <=? index y)%nat with true; [reflexivity|].
  symmetry. apply Nat.leb_le. lia.
Qed.

Lemma filter_nil_forall {A} (f : A -> bool) (l : list A) :
  (forall x, In x l -> f x = false) -> filter f l = [].
Proof.
  induction l as [|x r IH]; intros H; simpl; [reflexivity|].
  rewrite (H x (or_introl eq_refl)). apply IH. intros y Hy. apply H. now right.
Qed.

Lemma filter_all {A} (f : A -> bool) (l : list A) :
  (forall x, In x l -> f x = true) -> filter f l = l.
Proof.
  induction l as [|x r IH]; intros H; simpl; [reflexivity|].
  rewrite (H x (or_introl eq_refl)). f_equal. apply IH. intros y Hy. apply H. now right.
Qed.

Lemma existsb_false_forall {A} (f : A -> bool) (l : list A) :
  existsb f l = false <-> (forall x, In x l -> f x = false).
Proof.
  split.
  - intros H x Hx. destruct (f x) eqn:E; [|reflexivity].
    rewrite <- H. symmetry. apply existsb_exists. eauto.
  - intros H. destruct (existsb f l) eqn:E; [|reflexivity].
    apply existsb_exists in E as (x & Hx & Fx). rewrite (H x Hx) in Fx. discriminate.
Qed.

(** In a table with a unique key, selecting on the key of one of its rows
    returns that row and no other. *)
Lemma filter_unique_key {A} (key : A -> nat) (l : list A) (x : A) :
  NoDup (map key l) -> In x l ->
  filter (fun y => key y =? key x)%nat l = [x].
Proof.
  induction l as [|y r IH]; intros ND Hin; simpl in *; [contradiction|].
  inversion ND as [|? ? Hnot ND']; subst.
  destruct Hin as [->|Hin].
  - rewrite Nat.eqb_refl. f_equal. apply filter_nil_forall.
    intros z Hz. apply Nat.eqb_neq. intros E. apply Hnot. rewrite <- E. now apply in_map.
  - replace (key y =? key x)%nat with false; [now apply IH|].
    symmetry. apply Nat.eqb_neq. intros E. apply Hnot. rewrite E. now apply in_map.
Qed.

Lemma find_unique_code (l : list Account) (a : Account) :
  NoDup (map acc_code l) -> In a l ->
  find (fun b => String.eqb (acc_code b) (acc_code a)) l = Some a.
Proof.
  induction l as [|y r IH]; intros ND Hin; simpl in *; [contradiction|].
  inversion ND as [|? ? Hnot ND']; subst.
  destruct Hin as [->|Hin].
  - now rewrite String.eqb_refl.
  - replace (String.eqb (acc_code y) (acc_code a)) with false; [now apply IH|].
    symmetry. apply String.eqb_neq. intros E. apply Hnot. rewrite E. now apply in_map.
Qed.

(** ** The business-rule pass and the line inserts *)

Lemma check_lines_ok ls : forall td tc seen td' tc',
  check_lines ls td tc seen = Ok (td', tc') ->
  td' = td + sumZ (map debitCents ls) /\ tc' = tc + sumZ (map creditCents ls)
  /\ Forall one_sided ls.
Proof.
  induction ls as [|l r IH]; intros td tc seen td' tc' H; simpl in H.
  - injection H as <- <-. simpl. repeat split; try lia. constructor.
  - fold (debitCents l) (creditCents l) in H.
    destruct (existsb _ seen); [discriminate|].
    destruct ((debitCents l <? 0) || (creditCents l <? 0)) eqn:Neg; [discriminate|].
    destruct ((0 <? debitCents l) && (0 <? creditCents l)) eqn:Both; [discriminate|].
    destruct ((debitCents l =? 0) && (creditCents l =? 0)) eqn:Zero; [discriminate|].
    apply IH in H as (-> & -> & F). simpl. repeat split; try lia.
    constructor; [|exact F]. unfold one_sided.
    apply orb_false_iff in Neg as [N1 N2].
    apply Z.ltb_ge in N1, N2.
    apply andb_false_iff in Both. apply andb_false_iff in Zero.
    rewrite !Z.ltb_ge in Both. rewrite !Z.eqb_neq in Zero. lia.
Qed.

(** What [validateDoubleEntryRules] guarantees of the data it lets through. *)
Lemma validateDoubleEntryRules_ok entryData :
  validateDoubleEntryRules entryData = Ok tt ->
  Forall one_sided (lines entryData)
  /\ sumZ (map debitCents (lines entryData)) = sumZ (map creditCents (lines entryData))
  /\ 0 < sumZ (map debitCents (lines entryData))
  /\ (2 <= List.length (lines entryData))%nat.
Proof.
  unfold validateDoubleEntryRules. intros H.
  destruct (check_lines (lines entryData) 0 0 []) as [[td tc]|] eqn:C; simpl in H;
    [|discriminate].
  apply check_lines_ok in C as (-> & -> & F).
  destruct (negb _) eqn:B; [discriminate|].
  destruct (_ =? 0) eqn:Z0; [discriminate|].
  destruct (_ <? 2)%nat eqn:L; [discriminate|].
  apply negb_false_iff, Z.eqb_eq in B. apply Z.eqb_neq in Z0. apply Nat.ltb_ge in L.
  simpl in B, Z0. repeat split; try assumption.
  assert (0 <= sumZ (map debitCents (lines entryData))); [|lia].
  apply sumZ_nonneg. apply Forall_map. eapply Forall_impl; [|exact F].
  unfold one_sided. intros; lia.
Qed.

Lemma insert_lines_ok accountMap eid ls : forall i u rows out u',
  insert_lines accountMap eid i u ls = Ok (rows, out, u') ->
  rows = map row_of out
  /\ Forall2 (answers accountMap) ls out
  /\ map jl_line_index out = seq i (List.length ls)
  /\ map jl_id out = seq u (List.length ls)
  /\ Forall (fun o => jl_entry_id o = eid) out
  /\ u' = (u + List.length ls)%nat.
Proof.
  induction ls as [|l r IH]; intros i u rows out u' H; simpl in H.
  - injection H as <- <- <-. simpl. repeat split; auto; lia.
  - destruct (accountMap_get accountMap (account_code l)) as [a|] eqn:A; [|discriminate].
    destruct (line_checks _ _); [|discriminate].
    destruct (insert_lines accountMap eid (S i) (S u) r) as [[[rows' out'] u'']|] eqn:R;
      simpl in H; [|discriminate].
    injection H as <- <- <-.
    destruct (IH _ _ _ _ _ R) as (-> & F2 & Ix & Ids & Fe & ->).
    simpl. repeat split; try (f_equal; assumption); try lia.
    + constructor; [|exact F2]. repeat split. exists a. auto.
    + constructor; auto.
Qed.

(** ** Integrity of the ledger state *)

Lemma entry_exists_In db id :
  entry_exists db id = true <-> In id (map er_id (journal_entries db)).
Proof.
  unfold entry_exists. rewrite existsb_exists, in_map_iff. split.
  - intros (e & He & E). apply Nat.eqb_eq in E. eauto.
  - intros (e & E & He). exists e. split; [assumption|]. now apply Nat.eqb_eq.
Qed.

Lemma account_id_exists_In db id :
  account_id_exists db id = true <-> In id (map acc_id (accounts db)).
Proof.
  unfold account_id_exists. rewrite existsb_exists, in_map_iff. split.
  - intros (e & He & E). apply Nat.eqb_eq in E. eauto.
  - intros (e & E & He). exists e. split; [assumption|]. now apply Nat.eqb_eq.
Qed.

Lemma wf_line_fresh db : wf db ->
  forall l, In l (journal_lines db) -> (lr_entry_id l < next_uuid db)%nat.
Proof.
  intros W l Hl. apply (wf_line_entry W) in Hl. apply entry_exists_In in Hl.
  apply in_map_iff in Hl as (e & <- & He). now apply (wf_entry_fresh W).
Qed.

Lemma wf_empty : wf empty_db.
Proof. constructor; simpl; try constructor; try contradiction. Qed.

Lemma accountSchema_ok accountData validatedData :
  validateInput accountSchema accountData = Ok validatedData ->
  validatedData = accountData /\ car_code accountData <> "".
Proof.
  unfold validateInput, accountSchema, code_rules.
  destruct (String.eqb (car_code accountData) "") eqn:E; [discriminate|].
  intros H. apply String.eqb_neq in E. split; [|exact E].
  destruct (_ ++ _); [now injection H|discriminate].
Qed.

Lemma findByCode_none db code :
  AccountRepository_findByCode db code = None ->
  existsb (fun a => String.eqb (acc_code a) code) (accounts db) = false.
Proof.
  unfold AccountRepository_findByCode. intros H.
  apply existsb_false_forall. intros a Ha. exact (find_none _ _ H a Ha).
Qed.

(** The effect of a successful [createAccount]: one more account row. *)
Lemma createAccount_effect db accountData db' r :
  AccountService_createAccount db accountData = (db', r) ->
  db' = db
  \/ (car_code accountData <> ""
      /\ ~ In (car_code accountData) (map acc_code (accounts db))
      /\ db' = mkDatabase (accounts db
                           ++ [mkAccount (next_uuid db) (car_code accountData)
                                         (car_name accountData) (car_type accountData)])
                          (journal_entries db) (journal_lines db)
                          (idempotency_keys db) (S (next_uuid db))).
Proof.
  unfold AccountService_createAccount. intros H.
  destruct (validateInput accountSchema accountData) as [v|] eqn:V;
    [|injection H as <- _; now left].
  apply accountSchema_ok in V as [-> Hne].
  destruct (AccountRepository_findByCode db (car_code accountData)) eqn:F;
    [injection H as <- _; now left|].
  apply findByCode_none in F. unfold AccountRepository_create in H. rewrite F in H.
  injection H as <- _. right. repeat split; auto.
  intros Hin. apply in_map_iff in Hin as (a & E & Ha).
  rewrite existsb_false_forall in F. specialize (F a Ha). rewrite E, String.eqb_refl in F.
  discriminate.
Qed.

Lemma NoDup_snoc {A} (l : list A) (x : A) : NoDup l -> ~ In x l -> NoDup (l ++ [x]).
Proof.
  intros ND Hx. apply NoDup_app; [assumption|repeat constructor; auto|].
  intros y Hy [<-|[]]. contradiction.
Qed.

Lemma createAccount_wf db accountData :
  wf db -> wf (fst (AccountService_createAccount db accountData)).
Proof.
  intros W. destruct (AccountService_createAccount db accountData) as [db' r] eqn:H.
  apply createAccount_effect in H as [->|(Hne & Hnew & ->)]; [exact W|].
  simpl. destruct W. constructor; simpl; auto.
  - rewrite map_app. apply NoDup_snoc; [assumption|]. simpl.
    intros Hin. apply in_map_iff in Hin as (a & E & Ha).
    specialize (wf_acc_fresh0 a Ha). lia.
  - rewrite map_app. now apply NoDup_snoc.
  - intros a Ha. apply in_app_iff in Ha as [Ha|[<-|[]]]; auto.
  - intros a Ha. apply in_app_iff in Ha as [Ha|[<-|[]]]; simpl; [|lia].
    specialize (wf_acc_fresh0 a Ha). lia.
  - intros e He. specialize (wf_entry_fresh0 e He). lia.
  - intros l Hl. specialize (wf_line_account0 l Hl).
    apply account_id_exists_In. apply account_id_exists_In in wf_line_account0.
    simpl. rewrite map_app. apply in_app_iff. now left.
Qed.

(** The tables after a successful [JournalRepository.create]. *)
Lemma JournalRepository_create_effect db entryData accounts_ db1 createdEntry :
  JournalRepository_create db entryData accounts_ = Ok (db1, createdEntry) ->
  exists out,
    insert_lines accounts_ (next_uuid db) 0 (S (next_uuid db)) (lines entryData)
    = Ok (map row_of out, out, (S (next_uuid db) + List.length (lines entryData))%nat)
    /\ Forall (fun o => account_id_exists db (jl_account_id o) = true) out
    /\ createdEntry = mkJournalEntry (next_uuid db) (date entryData) (narration entryData)
                                     (reverses_entry_id entryData) out
    /\ db1 = mkDatabase (accounts db)
                        (journal_entries db
                         ++ [mkEntryRow (next_uuid db) (date entryData) (narration entryData)
                                        (reverses_entry_id entryData)])
                        (journal_lines db ++ map row_of out)
                        (idempotency_keys db)
                        (S (next_uuid db) + List.length (lines entryData))%nat.
Proof.
  unfold JournalRepository_create. intros H.
  destruct (match reverses_entry_id entryData with Some _ => _ | None => _ end);
    [|discriminate].
  destruct (insert_lines _ _ _ _ _) as [[[rows out] u']|] eqn:I; simpl in H; [|discriminate].
  destruct (forallb _ rows) eqn:FK; [|discriminate].
  injection H as <- <-.
  pose proof (insert_lines_ok _ _ _ _ _ _ _ _ I) as (-> & _ & _ & _ & _ & ->).
  exists out. repeat split; auto.
  rewrite forallb_forall in FK. apply Forall_forall. intros o Ho.
  apply (FK (row_of o)). now apply in_map.
Qed.

Lemma filter_rows_same eid out :
  Forall (fun o => jl_entry_id o = eid) out ->
  filter (fun l => lr_entry_id l =? eid)%nat (map row_of out) = map row_of out.
Proof.
  intros F. apply filter_all. intros l Hl. apply in_map_iff in Hl as (o & <- & Ho).
  rewrite Forall_forall in F. simpl. rewrite (F o Ho). apply Nat.eqb_refl.
Qed.

Lemma filter_rows_other eid id out :
  Forall (fun o => jl_entry_id o = eid) out -> id <> eid ->
  filter (fun l => lr_entry_id l =? id)%nat (map row_of out) = [].
Proof.
  intros F Hne. apply filter_nil_forall. intros l Hl.
  apply in_map_iff in Hl as (o & <- & Ho).
  rewrite Forall_forall in F. simpl. rewrite (F o Ho). apply Nat.eqb_neq. congruence.
Qed.

Lemma map_row_debits ls accountMap out :
  Forall2 (answers accountMap) ls out ->
  map lr_debit_cents (map row_of out) = map debitCents ls
  /\ map lr_credit_cents (map row_of out) = map creditCents ls.
Proof.
  induction 1 as [|l o ls' out' (D & C & _) _ [IHd IHc]]; simpl; [split; reflexivity|].
  rewrite D, C, IHd, IHc. split; reflexivity.
Qed.

Lemma JournalRepository_create_wf db entryData accounts_ db1 createdEntry :
  wf db ->
  validateDoubleEntryRules entryData = Ok tt ->
  JournalRepository_create db entryData accounts_ = Ok (db1, createdEntry) ->
  wf db1.
Proof.
  intros W V H.
  apply JournalRepository_create_effect in H as (out & I & FK & -> & ->).
  apply insert_lines_ok in I as (_ & F2 & Ix & _ & Fe & _).
  apply validateDoubleEntryRules_ok in V as (_ & Bal & Pos & Len).
  pose proof (wf_line_fresh _ W) as Lf.
  assert (Old : forall id, id <> next_uuid db ->
            filter (fun l => lr_entry_id l =? id)%nat (journal_lines db ++ map row_of out)
            = filter (fun l => lr_entry_id l =? id)%nat (journal_lines db)).
  { intros id Hid. rewrite filter_app, (filter_rows_other _ _ _ Fe Hid). apply app_nil_r. }
  assert (New : filter (fun l => lr_entry_id l =? next_uuid db)%nat
                       (journal_lines db ++ map row_of out) = map row_of out).
  { rewrite filter_app, (filter_rows_same _ _ Fe).
    rewrite filter_nil_forall; [reflexivity|].
    intros l Hl. apply Nat.eqb_neq. specialize (Lf l Hl). lia. }
  destruct (map_row_debits _ _ _ F2) as [Md Mc].
  destruct W. constructor; simpl; auto.
  - intros a Ha. specialize (wf_acc_fresh0 a Ha). lia.
  - rewrite map_app. apply NoDup_snoc; [assumption|]. simpl.
    intros Hin. apply in_map_iff in Hin as (e & E & He).
    specialize (wf_entry_fresh0 e He). lia.
  - intros e He. apply in_app_iff in He as [He|[<-|[]]]; simpl; [|lia].
    specialize (wf_entry_fresh0 e He). lia.
  - intros l Hl. apply entry_exists_In. simpl. rewrite map_app, in_app_iff.
    apply in_app_iff in Hl as [Hl|Hl].
    + left. apply entry_exists_In. auto.
    + right. apply in_map_iff in Hl as (o & <- & Ho). simpl.
      rewrite Forall_forall in Fe. rewrite (Fe o Ho). now left.
  - intros l Hl. apply in_app_iff in Hl as [Hl|Hl].
    + apply (wf_line_account0 l Hl).
    + apply in_map_iff in Hl as (o & <- & Ho). rewrite Forall_forall in FK.
      apply (FK o Ho).
  - intros e He. unfold entry_debits, entry_credits, entry_lines. simpl.
    apply in_app_iff in He as [He|[<-|[]]].
    + assert (Hid : er_id e <> next_uuid db) by (specialize (wf_entry_fresh0 e He); lia).
      rewrite (Old _ Hid). apply (wf_balanced0 e He).
    + simpl. rewrite New, Md, Mc. split; assumption.
  - intros e He. unfold entry_lines. simpl.
    apply in_app_iff in He as [He|[<-|[]]].
    + assert (Hid : er_id e <> next_uuid db) by (specialize (wf_entry_fresh0 e He); lia).
      rewrite (Old _ Hid). apply (wf_indices0 e He).
    + simpl. rewrite New. rewrite !length_map, map_map.
      change (fun x => lr_line_index (row_of x)) with jl_line_index.
      rewrite Ix. f_equal. apply (Forall2_length F2).
  - intros r Hr. apply entry_exists_In. simpl. rewrite map_app, in_app_iff. left.
    apply entry_exists_In. auto.
Qed.

Lemma IdempotencyRepository_create_effect db key requestBody id db2 :
  IdempotencyRepository_create db key requestBody id = Ok db2 ->
  existsb (fun r => String.eqb (ik_key r) key) (idempotency_keys db) = false
  /\ entry_exists db id = true
  /\ db2 = mkDatabase (accounts db) (journal_entries db) (journal_lines db)
                      (idempotency_keys db
                       ++ [mkIdempotencyRecord key (hashRequest requestBody) id])
                      (next_uuid db).
Proof.
  unfold IdempotencyRepository_create. intros H.
  destruct (existsb _ _); [discriminate|].
  destruct (entry_exists db id); [|discriminate].
  injection H as <-. auto.
Qed.

Lemma recordRequest_effect db key requestBody id db2 :
  IdempotencyService_recordRequest db key requestBody id = Ok db2 ->
  IdempotencyRepository_create db key requestBody id = Ok db2.
Proof.
  unfold IdempotencyService_recordRequest. now destruct (is_blank key).
Qed.

Lemma IdempotencyRepository_create_wf db key requestBody id db2 :
  wf db -> IdempotencyRepository_create db key requestBody id = Ok db2 -> wf db2.
Proof.
  intros W H. apply IdempotencyRepository_create_effect in H as (_ & Ex & ->).
  destruct W. constructor; simpl; auto.
  intros r Hr. apply in_app_iff in Hr as [Hr|[<-|[]]]; [|exact Ex].
  apply (wf_idem_entry0 r Hr).
Qed.

(** ** The outcomes of [createJournalEntry] *)

Lemma createJournalEntry_outcome today db entryData idempotencyKey db' r :
  JournalService_createJournalEntry today db entryData idempotencyKey = (db', r) ->
  rejected db db' r
  \/ replayed today db entryData idempotencyKey db' r
  \/ created today db entryData idempotencyKey db' r.
Proof.
  unfold JournalService_createJournalEntry. intros H.
  destruct (validateInput (journalEntrySchema today) entryData) as [v|e] eqn:V;
    [|injection H as <- <-; left; split; eauto].
  destruct (idempotency_block db idempotencyKey v) as [[existing|]|e] eqn:I;
    [injection H as <- <-; right; left; split; eauto
    | |injection H as <- <-; left; split; eauto].
  destruct (AccountService_validateAccountsExist db _) as [accs|e] eqn:A;
    [|injection H as <- <-; left; split; eauto].
  destruct (reversal_block db v) as [[]|e] eqn:R;
    [|injection H as <- <-; left; split; eauto].
  destruct (validateDoubleEntryRules v) as [[]|e] eqn:D;
    [|injection H as <- <-; left; split; eauto].
  destruct (JournalRepository_create db v accs) as [[db1 e1]|e] eqn:C;
    [|injection H as <- <-; left; split; eauto].
  right; right. exists v, accs, db1, e1. repeat split; auto.
  destruct (given idempotencyKey) as [key|]; [|injection H as <- <-; auto].
  destruct (IdempotencyService_recordRequest db1 key _ _);
    injection H as <- <-; auto.
Qed.

Lemma createJournalEntry_wf today db entryData idempotencyKey :
  wf db -> wf (fst (JournalService_createJournalEntry today db entryData idempotencyKey)).
Proof.
  intros W.
  destruct (JournalService_createJournalEntry today db entryData idempotencyKey)
    as [db' r] eqn:H.
  apply createJournalEntry_outcome in H
    as [[-> _]|[[-> _]|(v & accs & db1 & e1 & _ & _ & _ & _ & D & C & K)]];
    simpl; try assumption.
  assert (W1 : wf db1) by (eapply JournalRepository_create_wf; eauto).
  destruct (given idempotencyKey) as [key|]; [|destruct K as [-> _]; exact W1].
  destruct (IdempotencyService_recordRequest db1 key _ _) as [db2|] eqn:Rec;
    destruct K as [-> _]; [|exact W1].
  apply recordRequest_effect in Rec. eapply IdempotencyRepository_create_wf; eauto.
Qed.

Lemma createReversalEntry_wf today db id narration_ reversalDate idempotencyKey :
  wf db ->
  wf (fst (JournalService_createReversalEntry today db id narration_ reversalDate
                                              idempotencyKey)).
Proof.
  intros W. unfold JournalService_createReversalEntry.
  destruct (JournalService_getJournalEntry db id); [|exact W].
  now apply createJournalEntry_wf.
Qed.

Lemma reachable_wf db : reachable db -> wf db.
Proof.
  induction 1.
  - exact wf_empty.
  - now apply createAccount_wf.
  - now apply createJournalEntry_wf.
  - now apply createReversalEntry_wf.
Qed.

Lemma reachable_accounts rs : forall db,
  reachable db ->
  reachable (fold_left (fun db r => fst (AccountService_createAccount db r)) rs db).
Proof.
  induction rs as [|r rs IH]; intros db H; simpl; [exact H|].
  apply IH. now apply reach_createAccount.
Qed.

Lemma chart_reachable : reachable chart.
Proof. apply reachable_accounts, reach_empty. Qed.

Lemma scenario_reachable : reachable scenario.
Proof.
  unfold scenario, post. repeat apply reach_createJournalEntry. apply chart_reachable.
Qed.

(** ** Sums over the joined tables *)

Lemma sumZ_map_add {A} (f g : A -> Z) (l : list A) :
  sumZ (map (fun x => f x + g x) l) = sumZ (map f l) + sumZ (map g l).
Proof. induction l; simpl; lia. Qed.

Lemma sumZ_map_ext {A} (f g : A -> Z) (l : list A) :
  (forall x, In x l -> f x = g x) -> sumZ (map f l) = sumZ (map g l).
Proof. intros H. f_equal. now apply map_ext_in. Qed.

Lemma sumZ_indicator (k : nat) (w : Z) (keys : list nat) :
  NoDup keys -> In k keys ->
  sumZ (map (fun k' => if (k =? k')%nat then w else 0) keys) = w.
Proof.
  induction keys as [|y r IH]; intros ND Hin; simpl in *; [contradiction|].
  inversion ND as [|? ? Hnot ND']; subst.
  destruct (Nat.eqb_spec k y) as [->|Hne].
  - rewrite (sumZ_map_ext _ (fun _ => 0)).
    + clear. induction r; simpl; lia.
    + intros k' Hk'. destruct (Nat.eqb_spec y k'); [subst; contradiction|reflexivity].
  - destruct Hin as [->|Hin]; [contradiction|]. rewrite IH; auto.
Qed.

(** Rows that carry a key of a table with unique keys: summing group by
    group is summing all the rows. *)
Lemma sumZ_by_key {X} (key : X -> nat) (w : X -> Z) (keys : list nat) (xs : list X) :
  NoDup keys -> (forall x, In x xs -> In (key x) keys) ->
  sumZ (map (fun k => sumZ (map w (filter (fun x => key x =? k)%nat xs))) keys)
  = sumZ (map w xs).
Proof.
  intros ND. induction xs as [|x r IH]; intros Hk; simpl.
  - clear. induction keys; simpl; lia.
  - rewrite <- IH by (intros y Hy; apply Hk; now right).
    rewrite <- (sumZ_indicator (key x) (w x) keys ND (Hk x (or_introl eq_refl))).
    rewrite <- sumZ_map_add. apply sumZ_map_ext. intros k _.
    destruct (key x =? k)%nat; simpl; lia.
Qed.

(** The entry a line belongs to, in a ledger with integrity. *)
Lemma line_entry_unique db l :
  wf db -> In l (journal_lines db) ->
  exists e, In e (journal_entries db) /\ er_id e = lr_entry_id l
            /\ filter (fun e' => lr_entry_id l =? er_id e')%nat (journal_entries db) = [e].
Proof.
  intros W Hl. pose proof (wf_line_entry W l Hl) as Ex.
  apply entry_exists_In, in_map_iff in Ex as (e & E & He).
  exists e. repeat split; auto.
  rewrite <- (filter_unique_key er_id (journal_entries db) e (wf_entry_ids W) He).
  apply filter_ext. intros e'. rewrite E. apply Nat.eqb_sym.
Qed.

Lemma existsb_unique_entry db l e (f : EntryRow -> bool) :
  filter (fun e' => lr_entry_id l =? er_id e')%nat (journal_entries db) = [e] ->
  existsb (fun e' => (er_id e' =? lr_entry_id l)%nat && f e') (journal_entries db) = f e.
Proof.
  generalize (journal_entries db). intros es. revert e.
  induction es as [|y r IH]; intros e H; simpl in *; [discriminate|].
  rewrite (Nat.eqb_sym (er_id y)).
  destruct (lr_entry_id l =? er_id y)%nat eqn:E; simpl.
  - injection H as -> Hr. destruct (f e); [reflexivity|]. simpl.
    apply existsb_false_forall. intros e' He'.
    destruct (er_id e' =? lr_entry_id l)%nat eqn:E'; [|reflexivity].
    exfalso. assert (In e' (filter (fun e' => lr_entry_id l =? er_id e')%nat r)).
    { apply filter_In. split; [assumption|]. now rewrite Nat.eqb_sym. }
    rewrite Hr in H. contradiction.
  - now apply IH.
Qed.

Lemma joined_lines_sum db (keep : option EntryRow -> bool) (column : LineRow -> Z) ls :
  wf db -> incl ls (journal_lines db) ->
  let rows :=
    filter (fun r : JoinedRow => keep (snd r))
       (flat_map (fun jl : option LineRow =>
                    map (fun je => (jl, je))
                      match jl with
                      | Some l => left_join (fun e => lr_entry_id l =? er_id e)%nat
                                            (journal_entries db)
                      | None => [None]
                      end) (map Some ls)) in
  sum_column column rows = sumZ (map column (filter (kept db keep) ls))
  /\ List.length rows = List.length (filter (kept db keep) ls).
Proof.
  intros W. induction ls as [|l r IH]; intros Hin; simpl; [split; reflexivity|].
  assert (Hl : In l (journal_lines db)) by (apply Hin; now left).
  destruct (line_entry_unique db l W Hl) as (e & He & E & U).
  destruct IH as [IH1 IH2]; [intros x Hx; apply Hin; now right|].
  assert (J : left_join (fun e' => lr_entry_id l =? er_id e')%nat (journal_entries db)
              = [Some e]) by (unfold left_join; now rewrite U).
  assert (K : kept db keep l = keep (Some e))
    by (unfold kept; apply (existsb_unique_entry db l e (fun e' => keep (Some e')) U)).
  rewrite J, K. simpl.
  destruct (keep (Some e)); simpl.
  - split; [|now f_equal]. unfold sum_column in *. simpl. now rewrite IH1.
  - split; assumption.
Qed.

Lemma filter_account_kept db a keep (xs : list LineRow) :
  filter (fun l => (lr_account_id l =? acc_id a)%nat && kept db keep l) xs
  = filter (kept db keep) (filter (fun l => acc_id a =? lr_account_id l)%nat xs).
Proof.
  induction xs as [|x r IH]; simpl; [reflexivity|].
  rewrite (Nat.eqb_sym (lr_account_id x)).
  destruct (acc_id a =? lr_account_id x)%nat; simpl; [|exact IH].
  destruct (kept db keep x); now rewrite IH.
Qed.

Lemma sum_column_joined db a (keep : option EntryRow -> bool) (column : LineRow -> Z) :
  wf db ->
  sum_column column (filter (fun r => keep (snd r)) (joined_rows db a))
  = sumZ (map column (filter (fun l => (lr_account_id l =? acc_id a)%nat && kept db keep l)
                             (journal_lines db))).
Proof.
  intros W. unfold joined_rows. rewrite filter_account_kept.
  destruct (filter (fun l => acc_id a =? lr_account_id l)%nat (journal_lines db))
    as [|l0 r0] eqn:F.
  - replace (left_join (fun l => acc_id a =? lr_account_id l)%nat (journal_lines db))
      with [@None LineRow]
      by (unfold left_join; now rewrite F).
    simpl. destruct (keep None); reflexivity.
  - replace (left_join (fun l => acc_id a =? lr_account_id l)%nat (journal_lines db))
      with (map Some (l0 :: r0)) by (unfold left_join; now rewrite F).
    apply joined_lines_sum; [assumption|].
    intros x Hx. rewrite <- F in Hx. now apply filter_In in Hx.
Qed.



Lemma sumZ_group_rows (g : Account -> list JoinedRow) (column : LineRow -> Z)
  (field : AccountBalance -> Z) (accs : list Account) :
  (forall a rows, map field (group_row a rows)
                  = match rows with [] => [] | _ => [sum_column column rows] end) ->
  sumZ (map field (flat_map (fun a => group_row a (g a)) accs))
  = sumZ (map (fun a => sum_column column (g a)) accs).
Proof.
  intros Hf. induction accs as [|a r IH]; simpl; [reflexivity|].
  rewrite map_app, sumZ_app, IH, Hf. destruct (g a); simpl; [reflexivity|lia].
Qed.

Lemma kept_entry db (keep : option EntryRow -> bool) l e :
  wf db -> In l (journal_lines db) -> In e (journal_entries db) ->
  lr_entry_id l = er_id e -> kept db keep l = keep (Some e).
Proof.
  intros W Hl He E. destruct (line_entry_unique db l W Hl) as (e' & _ & _ & U).
  assert (In e [e']) as [->|[]].
  { rewrite <- U. apply filter_In. split; [assumption|]. rewrite E. apply Nat.eqb_refl. }
  unfold kept. apply (existsb_unique_entry db l e (fun x => keep (Some x)) U).
Qed.

(** The total of a column of the trial balance is the sum, over the
    entries dated in the range, of that column over the lines of the entry. *)
Lemma trial_balance_total db fromDate toDate (column : LineRow -> Z)
  (field : AccountBalance -> Z) :
  wf db ->
  (forall a rows, map field (group_row a rows)
                  = match rows with [] => [] | _ => [sum_column column rows] end) ->
  sumZ (map field (tb_accounts (BalanceRepository_getTrialBalance db fromDate toDate)))
  = sumZ (map (fun e => if between fromDate toDate (Some e)
                        then sumZ (map column (entry_lines db (er_id e))) else 0)
              (journal_entries db)).
Proof.
  intros W Hf. unfold BalanceRepository_getTrialBalance. cbn [tb_accounts].
  rewrite <- (sumZ_perm _ _ (Permutation_map field (sort_by_perm _ _))).
  rewrite (sumZ_group_rows
             (fun a => filter (fun r => date_null_or_between r fromDate toDate)
                              (joined_rows db a)) column field (accounts db) Hf).
  set (inside := filter (kept db (between fromDate toDate)) (journal_lines db)).
  transitivity (sumZ (map column inside)).
  - (* account by account *)
    rewrite <- (sumZ_by_key lr_account_id column (map acc_id (accounts db)) inside
                            (wf_acc_ids W)).
    + rewrite map_map. apply sumZ_map_ext. intros a _.
      transitivity (sum_column column
                      (filter (fun r => between fromDate toDate (snd r))
                              (joined_rows db a))).
      { reflexivity. }
      etransitivity; [exact (sum_column_joined db a (between fromDate toDate) column W)|].
      f_equal. f_equal. unfold inside. clear.
      induction (journal_lines db) as [|x r IH]; simpl; [reflexivity|].
      destruct (lr_account_id x =? acc_id a)%nat eqn:A;
        destruct (kept db (between fromDate toDate) x); simpl; rewrite ?A, IH; reflexivity.
    + intros l Hl. apply filter_In in Hl as [Hl _].
      apply account_id_exists_In. apply (wf_line_account W l Hl).
  - (* entry by entry *)
    rewrite <- (sumZ_by_key lr_entry_id column (map er_id (journal_entries db)) inside
                            (wf_entry_ids W)).
    + rewrite map_map. apply sumZ_map_ext. intros e He. cbv beta.
      assert (K : forall l, In l (journal_lines db) -> lr_entry_id l = er_id e ->
                            kept db (between fromDate toDate) l
                            = between fromDate toDate (Some e))
        by (intros l Hl El;
            exact (kept_entry db (between fromDate toDate) l e W Hl He El)).
      unfold inside, entry_lines. clear inside.
      set (b := between fromDate toDate (Some e)) in *. clearbody b.
      induction (journal_lines db) as [|x r IH]; simpl.
      * now destruct b.
      * assert (IH' := IH (fun l Hl => K l (or_intror Hl))). clear IH.
        destruct (lr_entry_id x =? er_id e)%nat eqn:E.
        -- apply Nat.eqb_eq in E. rewrite (K x (or_introl eq_refl) E).
           destruct b; simpl.
           ++ apply Nat.eqb_eq in E. rewrite E. simpl. now rewrite IH'.
           ++ exact IH'.
        -- destruct (kept db (between fromDate toDate) x); simpl; rewrite ?E; exact IH'.
    + intros l Hl. apply filter_In in Hl as [Hl _].
      apply entry_exists_In. apply (wf_line_entry W l Hl).
Qed.

(** ** The balance of an account *)

Lemma other_accounts_no_group db code (cond : JoinedRow -> bool) (accs : list Account) :
  (forall a, In a accs -> acc_code a <> code) ->
  flat_map (fun a => group_row a (filter (fun r => String.eqb (acc_code a) code && cond r)
                                         (joined_rows db a))) accs = [].
Proof.
  induction accs as [|y r IH]; intros H; simpl; [reflexivity|].
  rewrite IH by (intros a Ha; apply H; now right).
  replace (String.eqb (acc_code y) code) with false.
  - simpl. rewrite filter_nil_forall; [reflexivity|auto].
  - symmetry. apply String.eqb_neq. apply H. now left.
Qed.

Lemma one_account_group db a (cond : JoinedRow -> bool) (accs : list Account) :
  NoDup (map acc_code accs) -> In a accs ->
  flat_map (fun a' => group_row a' (filter (fun r => String.eqb (acc_code a') (acc_code a)
                                                     && cond r)
                                           (joined_rows db a'))) accs
  = group_row a (filter cond (joined_rows db a)).
Proof.
  induction accs as [|y r IH]; intros ND Hin; simpl in *; [contradiction|].
  inversion ND as [|? ? Hnot ND']; subst.
  destruct Hin as [->|Hin].
  - rewrite String.eqb_refl. simpl.
    rewrite other_accounts_no_group; [apply app_nil_r|].
    intros a' Ha' E. apply Hnot. rewrite <- E. now apply in_map.
  - rewrite (IH ND' Hin).
    replace (String.eqb (acc_code y) (acc_code a)) with false.
    + simpl. rewrite filter_nil_forall; [reflexivity|auto].
    + symmetry. apply String.eqb_neq. intros E. apply Hnot. rewrite E. now apply in_map.
Qed.

Lemma kept_as_of db asOfDate l :
  wf db -> In l (journal_lines db) ->
  kept db (as_of asOfDate) l = counts_as_of db asOfDate l.
Proof.
  intros W Hl. destruct asOfDate as [d|]; [reflexivity|].
  destruct (line_entry_unique db l W Hl) as (e & He & E & U).
  unfold kept. simpl. now rewrite (existsb_unique_entry db l e (fun _ => true) U).
Qed.

Lemma account_lines_kept db a asOfDate :
  wf db ->
  filter (fun l => (lr_account_id l =? acc_id a)%nat && kept db (as_of asOfDate) l)
         (journal_lines db)
  = account_lines db a asOfDate.
Proof.
  intros W. unfold account_lines. apply filter_ext_in. intros l Hl.
  now rewrite (kept_as_of db asOfDate l W Hl).
Qed.


(** ** The trial balance *)

(** C1.  In every ledger reached through the service, each persisted entry
    has equal sums of debit_cents and credit_cents over its lines, the
    common sum being strictly positive; and for every date range the total
    debits of the trial balance equal its total credits, so the check of
    the trial-balance service passes. *)
Theorem ledger_balances db :
  reachable db ->
  (forall e, In e (journal_entries db) ->
     entry_debits db (er_id e) = entry_credits db (er_id e)
     /\ 0 < entry_debits db (er_id e))
  /\ (forall fromDate toDate,
        tb_total_debits (BalanceRepository_getTrialBalance db fromDate toDate)
        = tb_total_credits (BalanceRepository_getTrialBalance db fromDate toDate))
  /\ (forall fromDate toDate, fromDate <= toDate ->
        BalanceService_getTrialBalance db fromDate toDate
        = Ok (BalanceRepository_getTrialBalance db fromDate toDate)).
Proof.
  intros R. apply reachable_wf in R as W.
  assert (T : forall fromDate toDate,
             tb_total_debits (BalanceRepository_getTrialBalance db fromDate toDate)
             = tb_total_credits (BalanceRepository_getTrialBalance db fromDate toDate)).
  { intros fromDate toDate.
    change (tb_total_debits (BalanceRepository_getTrialBalance db fromDate toDate))
      with (sumZ (map ab_debits
                      (tb_accounts (BalanceRepository_getTrialBalance db fromDate toDate)))).
    change (tb_total_credits (BalanceRepository_getTrialBalance db fromDate toDate))
      with (sumZ (map ab_credits
                      (tb_accounts (BalanceRepository_getTrialBalance db fromDate toDate)))).
    rewrite (trial_balance_total db fromDate toDate lr_debit_cents ab_debits W)
      by (intros a [|r rows]; reflexivity).
    rewrite (trial_balance_total db fromDate toDate lr_credit_cents ab_credits W)
      by (intros a [|r rows]; reflexivity).
    apply sumZ_map_ext. intros e He.
    destruct (wf_balanced W e He) as [B _]. unfold entry_debits, entry_credits in B.
    now rewrite B. }
  split; [exact (wf_balanced W)|]. split; [exact T|].
  intros fromDate toDate Hle. unfold BalanceService_getTrialBalance.
  unfold validateInput, trialBalanceQuerySchema, when. cbn [fst snd].
  replace (toDate <? fromDate) with false by (symmetry; apply Z.ltb_ge; lia).
  cbn [bind fst snd]. now rewrite T, Z.eqb_refl.
Qed.

Lemma ledger_balances_scenario :
  reachable scenario
  /\ tb_total_debits (BalanceRepository_getTrialBalance scenario 1 31)
     = tb_total_credits (BalanceRepository_getTrialBalance scenario 1 31).
Proof.
  split; [exact scenario_reachable|].
  apply (ledger_balances scenario scenario_reachable).
Defined.

(** ** The request schema *)

Lemma amount_rules_spec (min : Message) (x : option Q) d errs :
  amount_rules min x = (d, errs) ->
  toCents (orZero (Some d)) = toCents (orZero x)
  /\ Qgtb d 0 = (0 <? toCents (orZero x))
  /\ Qeq_bool d 0 = (toCents (orZero x) =? 0)
  /\ errs = when (toCents (orZero x) <? 0) min.
Proof.
  destruct x as [v|]; unfold amount_rules; intros H; injection H as <- <-.
  - rewrite !toCents_orZero. unfold precision2.
    rewrite toCents_fromCents, Qgtb_fromCents, Qeq_fromCents, Qltb_fromCents. auto.
  - repeat split; reflexivity.
Qed.

Lemma journalLineSchema_spec i l v errs :
  journalLineSchema i l = (v, errs) ->
  account_code v = account_code l
  /\ debitCents v = debitCents l /\ creditCents v = creditCents l
  /\ (errs = [] -> one_sided l)
  /\ (0 < debitCents l -> 0 < creditCents l -> errs <> [])
  /\ (debitCents l = 0 -> creditCents l = 0 -> errs <> []).
Proof.
  unfold journalLineSchema.
  destruct (amount_rules (MsgLineDebitMin i) (debit l)) as [d de] eqn:D.
  destruct (amount_rules (MsgLineCreditMin i) (credit l)) as [c ce] eqn:C.
  apply amount_rules_spec in D as (Dz & Dg & De & ->).
  apply amount_rules_spec in C as (Cz & Cg & Ce & ->).
  fold (debitCents l) in *. fold (creditCents l) in *.
  set (code_errors := code_rules _ _ _ _).
  intros H.
  assert (V : v = mkLineReq (account_code l) (Some d) (Some c))
    by (destruct (code_errors ++ _ ++ _); now injection H).
  subst v. unfold debitCents at 1, creditCents at 1. simpl.
  repeat split; try assumption.
  - intros ->. destruct (code_errors ++ _ ++ _) eqn:K; [|discriminate].
    apply app_eq_nil in K as [_ K]. apply app_eq_nil in K as [Kd Kc].
    unfold when in Kd, Kc.
    destruct (debitCents l <? 0) eqn:Nd; [discriminate|].
    destruct (creditCents l <? 0) eqn:Nc; [discriminate|].
    rewrite Dg, Cg, De, Ce in H.
    destruct ((0 <? debitCents l) && (0 <? creditCents l)) eqn:B; [discriminate|].
    destruct ((debitCents l =? 0) && (creditCents l =? 0)) eqn:Z0; [discriminate|].
    unfold one_sided. apply Z.ltb_ge in Nd, Nc.
    apply andb_false_iff in B. apply andb_false_iff in Z0.
    rewrite !Z.ltb_ge in B. rewrite !Z.eqb_neq in Z0. lia.
  - intros Pd Pc ->. destruct (code_errors ++ _ ++ _); [|discriminate].
    rewrite Dg, Cg in H.
    rewrite (proj2 (Z.ltb_lt 0 _) Pd), (proj2 (Z.ltb_lt 0 _) Pc) in H. discriminate.
  - intros Zd Zc ->. destruct (code_errors ++ _ ++ _); [|discriminate].
    rewrite Dg, Cg, De, Ce, Zd, Zc in H. discriminate.
Qed.

Lemma items_spec ls : forall i vs errs,
  items i ls = (vs, errs) ->
  map account_code vs = map account_code ls
  /\ map debitCents vs = map debitCents ls /\ map creditCents vs = map creditCents ls
  /\ (errs = [] -> Forall one_sided ls)
  /\ (forall l, In l ls -> 0 < debitCents l -> 0 < creditCents l -> errs <> [])
  /\ (forall l, In l ls -> debitCents l = 0 -> creditCents l = 0 -> errs <> []).
Proof.
  induction ls as [|l r IH]; intros i vs errs H; simpl in H.
  - injection H as <- <-. repeat split; try constructor; contradiction.
  - destruct (journalLineSchema i l) as [v e] eqn:L.
    destruct (items (S i) r) as [vs' es] eqn:I. injection H as <- <-.
    apply journalLineSchema_spec in L as (A & D & C & One & Both & Zero).
    apply IH in I as (IA & ID & IC & IOne & IBoth & IZero).
    simpl. rewrite A, D, C, IA, ID, IC. repeat split.
    + intros E. apply app_eq_nil in E as [E1 E2]. constructor; auto.
    + intros x [<-|Hx] Pd Pc E; apply app_eq_nil in E as [E1 E2].
      * now apply Both.
      * now apply (IBoth x).
    + intros x [<-|Hx] Zd Zc E; apply app_eq_nil in E as [E1 E2].
      * now apply Zero.
      * now apply (IZero x).
Qed.

Lemma map_length_eq {A B} (f : A -> B) (l1 l2 : list A) :
  map f l1 = map f l2 -> List.length l1 = List.length l2.
Proof. intros H. rewrite <- (length_map f l1), H. apply length_map. Qed.

(** What the schema has established of a request it accepts: the date is
    not in the future, there are at least two lines, each line posts one
    positive amount on one side, and the lines balance on a positive total.
    The validated lines name the same accounts and amounts in cents as the
    submitted ones. *)
Lemma journalEntrySchema_ok today entryData v :
  validateInput (journalEntrySchema today) entryData = Ok v ->
  (date v = date entryData /\ narration v = narration entryData
   /\ reverses_entry_id v = reverses_entry_id entryData
   /\ map account_code (lines v) = map account_code (lines entryData)
   /\ map debitCents (lines v) = map debitCents (lines entryData)
   /\ map creditCents (lines v) = map creditCents (lines entryData))
  /\ date v <= today
  /\ (2 <= List.length (lines v))%nat
  /\ Forall one_sided (lines v)
  /\ sumZ (map debitCents (lines v)) = sumZ (map creditCents (lines v))
  /\ 0 < sumZ (map debitCents (lines v)).
Proof.
  unfold validateInput, journalEntrySchema, linesSchema.
  destruct (items 0 (lines entryData)) as [vs ie] eqn:I.
  pose proof (items_spec _ _ _ _ I) as (IA & ID & IC & IOne & _ & _).
  intros H.
  destruct ie as [|m ie'].
  2:{ destruct (when _ _ ++ _ ++ _) eqn:E; [|discriminate].
      apply app_eq_nil in E as [_ E]. apply app_eq_nil in E as [_ E]. discriminate. }
  destruct (when (today <? date entryData) MsgFutureDate ++ _ ++ _) eqn:E; [|discriminate].
  injection H as <-. simpl.
  apply app_eq_nil in E as [Ed E]. apply app_eq_nil in E as [_ E].
  apply app_eq_nil in E as [El Eb].
  unfold when in Ed, El.
  destruct (today <? date entryData) eqn:Fut; [discriminate|]. apply Z.ltb_ge in Fut.
  destruct (List.length vs <? 2)%nat eqn:Len; [discriminate|]. apply Nat.ltb_ge in Len.
  unfold double_entry_validation, totalDebits, totalCredits in Eb.
  fold debitCents creditCents in Eb.
  change (fun l => debitCents l) with debitCents in Eb.
  change (fun l => creditCents l) with creditCents in Eb.
  destruct (negb _) eqn:Bal; [discriminate|].
  destruct (_ =? 0) eqn:Z0; [discriminate|].
  apply negb_false_iff, Z.eqb_eq in Bal. apply Z.eqb_neq in Z0.
  assert (F : Forall one_sided vs).
  { specialize (IOne eq_refl). clear - IOne ID IC. revert vs ID IC.
    induction IOne as [|l r Hl _ IH]; intros [|v vs] ID IC; try discriminate; constructor.
    - injection ID as D _. injection IC as C _. unfold one_sided in *. lia.
    - injection ID as _ D. injection IC as _ C. now apply IH. }
  repeat split; auto.
  assert (0 <= sumZ (map debitCents vs)); [|lia].
  apply sumZ_nonneg, Forall_map. eapply Forall_impl; [|exact F].
  unfold one_sided. intros; lia.
Qed.

(** ** Candidates rejected at the boundary *)





(** ** The order of the checks *)






(** ** Replays *)

Lemma token_eqb_refl t : token_eqb t t = true.
Proof.
  destruct t; simpl; auto using String.eqb_refl.
  apply Qeq_bool_iff. reflexivity.
Qed.

Lemma digest_eqb_refl d : digest_eqb d d = true.
Proof. induction d; simpl; [reflexivity|]. now rewrite token_eqb_refl. Qed.

(** A request the schema accepted is accepted, with the same converted
    value, on any later day. *)
Lemma schema_later today1 today2 entryData v :
  today1 <= today2 ->
  validateInput (journalEntrySchema today1) entryData = Ok v ->
  validateInput (journalEntrySchema today2) entryData = Ok v.
Proof.
  intros Hle. unfold validateInput, journalEntrySchema.
  destruct (linesSchema (lines entryData)) as [vs le].
  unfold when. destruct (today1 <? date entryData) eqn:F; [discriminate|].
  apply Z.ltb_ge in F.
  replace (today2 <? date entryData) with false by (symmetry; apply Z.ltb_ge; lia).
  auto.
Qed.

Lemma findById_some db id e :
  JournalRepository_findById db id = Some e ->
  je_id e = id /\ exists row, In row (journal_entries db) /\ er_id row = id.
Proof.
  unfold JournalRepository_findById.
  destruct (filter (fun e => er_id e =? id)%nat (journal_entries db)) as [|row rest] eqn:F;
    [discriminate|].
  assert (In row (filter (fun e => er_id e =? id)%nat (journal_entries db)))
    as Hrow by (rewrite F; now left).
  apply filter_In in Hrow as [Hin E]. apply Nat.eqb_eq in E.
  intros H. injection H as <-. simpl. split; [exact E|]. eauto.
Qed.

Lemma findById_exists db id :
  entry_exists db id = true ->
  exists e, JournalRepository_findById db id = Some e /\ je_id e = id.
Proof.
  intros Ex. apply entry_exists_In, in_map_iff in Ex as (row & E & Hin).
  unfold JournalRepository_findById.
  destruct (filter (fun e => er_id e =? id)%nat (journal_entries db)) as [|row' rest] eqn:F.
  - exfalso. assert (In row []) as []. rewrite <- F. apply filter_In.
    split; [assumption|]. now apply Nat.eqb_eq.
  - eexists. split; [reflexivity|]. simpl.
    assert (In row' (filter (fun e => er_id e =? id)%nat (journal_entries db)))
      as Hrow by (rewrite F; now left).
    apply filter_In in Hrow as [_ E']. now apply Nat.eqb_eq.
Qed.

Lemma idempotency_block_replay db key v existing :
  idempotency_block db (Some key) v = Ok (Some existing) ->
  exists r, In r (idempotency_keys db) /\ ik_key r = key /\ ik_entry_id r = je_id existing
            /\ entry_exists db (je_id existing) = true.
Proof.
  unfold idempotency_block, given. destruct (String.eqb key ""); [discriminate|].
  unfold IdempotencyService_validateRequest. destruct (is_blank key); [discriminate|].
  simpl. unfold IdempotencyRepository_validateRequest, IdempotencyRepository_findByKey.
  destruct (find _ (idempotency_keys db)) as [r|] eqn:F; [|discriminate].
  destruct (digest_eqb _ _); simpl; [|discriminate].
  intros H. injection H as H. apply find_some in F as [Hin K]. apply String.eqb_eq in K.
  apply findById_some in H as (E & row & Hrow & Erow).
  exists r. repeat split; auto. apply entry_exists_In. rewrite E, <- Erow. now apply in_map.
Qed.

Lemma find_snoc_new {A} (f : A -> bool) (l : list A) (x : A) :
  existsb f l = false -> f x = true -> find f (l ++ [x]) = Some x.
Proof.
  intros N T. induction l as [|y r IH]; simpl in *; [now rewrite T|].
  apply orb_false_iff in N as [Ny Nr]. rewrite Ny. now apply IH.
Qed.

(** C2.  When create-entry with key K and payload P has succeeded, the same
    call made again (on the same or a later day) succeeds too, returns an
    entry with the same id and leaves the ledger as the first call left
    it; in a ledger reached through the service that id names exactly one
    entry. *)
Theorem same_key_same_payload today1 today2 db entryData key db1 e1 :
  reachable db -> key <> "" -> today1 <= today2 ->
  JournalService_createJournalEntry today1 db entryData (Some key) = (db1, Ok e1) ->
  (exists e2,
     JournalService_createJournalEntry today2 db1 entryData (Some key) = (db1, Ok e2)
     /\ je_id e2 = je_id e1)
  /\ List.length (filter (fun e => er_id e =? je_id e1)%nat (journal_entries db1)) = 1%nat.
Proof.
  intros R Kne Hle H.
  assert (W1 : wf db1).
  { apply reachable_wf. replace db1 with
      (fst (JournalService_createJournalEntry today1 db entryData (Some key)))
      by now rewrite H. now apply reach_createJournalEntry. }
  assert (G : given (Some key) = Some key).
  { unfold given. apply String.eqb_neq in Kne. now rewrite Kne. }
  assert (One : entry_exists db1 (je_id e1) = true ->
                List.length (filter (fun e => er_id e =? je_id e1)%nat (journal_entries db1))
                = 1%nat).
  { intros Ex. apply entry_exists_In, in_map_iff in Ex as (row & E & Hin).
    rewrite <- E. now rewrite (filter_unique_key er_id _ row (wf_entry_ids W1) Hin). }
  apply createJournalEntry_outcome in H
    as [(_ & e & E)|[(-> & v & existing & V & I & E)
                    |(v & accs & db' & created_ & V & I & _ & _ & _ & C & K)]].
  - discriminate.
  - injection E as <-. apply (schema_later today1 today2 _ _ Hle) in V.
    destruct (idempotency_block_replay db key v e1 I) as (_ & _ & _ & _ & Ex).
    split; [|now apply One].
    exists e1. split; [|reflexivity].
    unfold JournalService_createJournalEntry. now rewrite V, I.
  - rewrite G in K.
    destruct (IdempotencyService_recordRequest db' key (request_json v) (je_id created_))
      as [db2|] eqn:Rec; destruct K as [-> E]; [|discriminate].
    injection E as <-.
    assert (B : is_blank key = false).
    { unfold IdempotencyService_recordRequest in Rec.
      destruct (is_blank key); [discriminate|reflexivity]. }
    apply recordRequest_effect, IdempotencyRepository_create_effect in Rec
      as (New & Ex & ->).
    assert (Ex2 : entry_exists
                    (mkDatabase (accounts db') (journal_entries db') (journal_lines db')
                       (idempotency_keys db'
                        ++ [mkIdempotencyRecord key (hashRequest (request_json v)) (je_id e1)])
                       (next_uuid db')) (je_id e1) = true) by exact Ex.
    split; [|now apply One].
    destruct (findById_exists _ _ Ex2) as (e2 & F & Id).
    exists e2. split; [|exact Id].
    apply (schema_later today1 today2 _ _ Hle) in V.
    unfold JournalService_createJournalEntry. rewrite V.
    unfold idempotency_block. rewrite G.
    unfold IdempotencyService_validateRequest. rewrite B. simpl.
    unfold IdempotencyRepository_validateRequest, IdempotencyRepository_findByKey. simpl.
    rewrite (find_snoc_new (fun r => String.eqb (ik_key r) key) (idempotency_keys db')
               (mkIdempotencyRecord key (hashRequest (request_json v)) (je_id e1))
               New (String.eqb_refl key)). simpl.
    rewrite digest_eqb_refl. simpl. now rewrite F.
Qed.

Lemma same_key_same_payload_example :
  let first := JournalService_createJournalEntry 31 chart seed_capital (Some "k1") in
  exists e2,
    JournalService_createJournalEntry 31 (fst first) seed_capital (Some "k1")
    = (fst first, Ok e2)
    /\ je_id e2 = 4%nat.
Proof.
  cbv zeta.
  destruct (JournalService_createJournalEntry 31 chart seed_capital (Some "k1"))
    as [db1 [e1|err]] eqn:H; [|vm_compute in H; discriminate].
  assert (Kne : "k1" <> "") by discriminate.
  assert (Hle : 31 <= 31) by lia.
  destruct (same_key_same_payload 31 31 chart seed_capital "k1" db1 e1
              chart_reachable Kne Hle H) as ((e2 & Again & Id) & _).
  exists e2. split; [exact Again|].
  rewrite Id. vm_compute in H. injection H as _ <-. reflexivity.
Defined.

(** ** Requests that interleave *)

Lemma grows_refl db : grows db db.
Proof. split; apply incl_refl. Qed.

Lemma entry_exists_grows db db' id :
  grows db db' -> entry_exists db id = true -> entry_exists db' id = true.
Proof.
  intros [G _] Ex. apply entry_exists_In. apply entry_exists_In in Ex.
  apply in_map_iff in Ex as (e & E & He). apply in_map_iff. exists e. auto.
Qed.

Lemma task_ok_grows db db' t : grows db db' -> task_ok db t -> task_ok db' t.
Proof.
  intros G. destruct t as [| | |k [e|err]]; simpl; auto.
  - now apply entry_exists_grows.
  - intros H key K. destruct (H key K) as (Ex & r & Hr & Kr & Er). split.
    + now apply (entry_exists_grows db db').
    + exists r. repeat split; auto. now apply (proj2 G).
Qed.

Lemma createAccount_grows db r : grows db (fst (AccountService_createAccount db r)).
Proof.
  destruct (AccountService_createAccount db r) as [db' res] eqn:H.
  apply createAccount_effect in H as [->|(_ & _ & ->)]; simpl;
    split; apply incl_refl.
Qed.

Lemma given_some idempotencyKey key : given idempotencyKey = Some key -> idempotencyKey = Some key.
Proof.
  destruct idempotencyKey as [k|]; simpl; [|discriminate].
  destruct (String.eqb k ""); [discriminate|auto].
Qed.

Lemma checks_ok today db entryData idempotencyKey :
  task_ok db (checks today db entryData idempotencyKey).
Proof.
  unfold checks.
  destruct (validateInput _ _) as [v|]; simpl; [|exact I].
  destruct (idempotency_block db idempotencyKey v) as [[existing|]|] eqn:B; simpl; [| |exact I].
  - intros key K. apply given_some in K. subst idempotencyKey.
    destruct (idempotency_block_replay db key v existing B) as (r & Hr & Kr & Er & Ex).
    split; [exact Ex|]. exists r. auto.
  - destruct (AccountService_validateAccountsExist db _); simpl; [|exact I].
    destruct (reversal_block db v); simpl; [|exact I].
    destruct (validateDoubleEntryRules v) as [[]|] eqn:D; simpl; [exact D|exact I].
Qed.

Lemma Forall_replace_nth {A} (P : A -> Prop) (l : list A) (i : nat) (x : A) :
  Forall P l -> P x -> Forall P (replace_nth i x l).
Proof.
  intros F Px. revert i. induction F as [|y r Py Fr IH]; intros i;
    destruct i; simpl; try constructor; auto.
Qed.

Lemma advance_ok db t :
  wf db -> task_ok db t ->
  wf (fst (advance db t)) /\ grows db (fst (advance db t))
  /\ task_ok (fst (advance db t)) (snd (advance db t)).
Proof.
  intros W T.
  assert (Same : forall t', task_ok db t' -> wf db /\ grows db db /\ task_ok db t')
    by (intros t' T'; split; [exact W|split; [apply grows_refl|exact T']]).
  destruct t as [today entryData k|v accs k|v e k|k res]; simpl.
  - apply (Same (checks today db entryData k)), checks_ok.
  - simpl in T.
    destruct (JournalRepository_create db v accs) as [[db1 e]|err] eqn:C; simpl;
      [|exact (Same (Returned k (Err err)) I)].
    assert (W1 : wf db1) by (eapply JournalRepository_create_wf; eauto).
    apply JournalRepository_create_effect in C as (out & _ & _ & -> & ->).
    assert (G : grows db
                  (mkDatabase (accounts db)
                     (journal_entries db
                      ++ [mkEntryRow (next_uuid db) (date v) (narration v)
                                     (reverses_entry_id v)])
                     (journal_lines db ++ map row_of out) (idempotency_keys db)
                     (S (next_uuid db) + List.length (lines v))%nat)).
    { split; simpl; [apply incl_appl|]; apply incl_refl. }
    destruct (given k) as [key|] eqn:K; simpl; (split; [exact W1|split; [exact G|]]).
    + apply entry_exists_In. simpl. rewrite map_app. apply in_or_app. right. now left.
    + intros key K'. rewrite K in K'. discriminate.
  - simpl in T. destruct (given k) as [key|] eqn:K; simpl.
    + destruct (IdempotencyService_recordRequest db key (request_json v) (je_id e))
        as [db2|err] eqn:Rec; simpl; [|exact (Same (Returned k (Err err)) I)].
      apply recordRequest_effect in Rec.
      assert (W2 : wf db2) by (eapply IdempotencyRepository_create_wf; eauto).
      apply IdempotencyRepository_create_effect in Rec as (_ & Ex & ->).
      split; [exact W2|]. split.
      * split; simpl; [apply incl_refl|apply incl_appl, incl_refl].
      * intros key' K'. rewrite K in K'. injection K' as <-. split; [exact Ex|].
        eexists. split; [apply in_or_app; right; now left|]. split; reflexivity.
    + apply (Same (Returned k (Ok e))). simpl. intros key K'. rewrite K in K'.
      discriminate.
  - now apply (Same (Returned k res)).
Qed.

Lemma interleaved_ok db ts : interleaved db ts -> wf db /\ Forall (task_ok db) ts.
Proof.
  induction 1 as [|db ts r _ [W F]|db ts today entryData k _ [W F]|db ts i t _ [W F] Hi].
  - split; [exact wf_empty|constructor].
  - split; [now apply createAccount_wf|].
    eapply Forall_impl; [|exact F]. intros t. apply task_ok_grows, createAccount_grows.
  - split; [exact W|]. apply Forall_app. split; [exact F|]. repeat constructor.
  - assert (T : task_ok db t).
    { rewrite Forall_forall in F. apply F. eapply nth_error_In; eauto. }
    destruct (advance_ok db t W T) as (W' & G & T').
    split; [exact W'|]. apply Forall_replace_nth; [|exact T'].
    eapply Forall_impl; [|exact F]. intros t'. now apply task_ok_grows.
Qed.

(** C7 (as amended).  However requests interleave, an idempotency record
    never exists without the entry it names, no line exists without its
    entry, every entry is there with all its lines (it balances on a
    positive total), and a call with a key that returned an entry has left
    both the entry and the record of its key.  The record is written by a
    statement of its own after the entry has been committed: a call whose
    record is refused has left its entry without one. *)
Theorem record_implies_entry db ts :
  interleaved db ts ->
  (forall r, In r (idempotency_keys db) -> entry_exists db (ik_entry_id r) = true)
  /\ (forall l, In l (journal_lines db) -> entry_exists db (lr_entry_id l) = true)
  /\ (forall e, In e (journal_entries db) ->
        entry_debits db (er_id e) = entry_credits db (er_id e)
        /\ 0 < entry_debits db (er_id e))
  /\ (forall key e, In (Returned (Some key) (Ok e)) ts -> key <> "" ->
        entry_exists db (je_id e) = true
        /\ exists r, In r (idempotency_keys db) /\ ik_key r = key
                     /\ ik_entry_id r = je_id e).
Proof.
  intros H. apply interleaved_ok in H as [W F].
  split; [exact (wf_idem_entry W)|]. split; [exact (wf_line_entry W)|].
  split; [exact (wf_balanced W)|].
  intros key e Hin Kne. rewrite Forall_forall in F. specialize (F _ Hin). simpl in F.
  apply F. apply String.eqb_neq in Kne. now rewrite Kne.
Qed.

Lemma interleaved_accounts rs : forall db ts,
  interleaved db ts ->
  interleaved (fold_left (fun db r => fst (AccountService_createAccount db r)) rs db) ts.
Proof.
  induction rs as [|r rs IH]; intros db ts H; simpl; [exact H|].
  apply IH. now apply il_account.
Qed.

Lemma interleaved_schedule schedule : forall db ts,
  interleaved db ts ->
  interleaved (fst (run_schedule schedule (db, ts))) (snd (run_schedule schedule (db, ts))).
Proof.
  induction schedule as [|i rest IH]; intros db ts H; simpl; [exact H|].
  destruct (run_stage (db, ts) i) as [db' ts'] eqn:E.
  apply (IH db' ts'). unfold run_stage in E. simpl in E.
  destruct (nth_error ts i) as [t|] eqn:N; injection E as <- <-; [|exact H].
  now apply il_advance.
Qed.

Lemma racing_interleaved : interleaved (fst racing) (snd racing).
Proof.
  unfold racing. apply interleaved_schedule.
  change (interleaved chart ([Called 31 seed_capital (Some "k1")]
                             ++ [Called 31 seed_capital (Some "k1")])).
  apply il_call.
  change (interleaved chart ([] ++ [Called 31 seed_capital (Some "k1")])).
  apply il_call. apply interleaved_accounts, il_start.
Qed.

(** C7, the claim as stated fails: two requests with the same key and
    payload whose stages alternate.  Both create an entry; the second
    request is refused when it records its key, and its entry (id 7) stays
    in the ledger without an idempotency record. *)
Lemma entry_without_record :
  interleaved (fst racing) (snd racing)
  /\ nth_error (snd racing) 1
     = Some (Returned (Some "k1") (Err (ConflictError (MsgKeyExists "k1"))))
  /\ entry_exists (fst racing) 7%nat = true
  /\ existsb (fun r => ik_entry_id r =? 7)%nat (idempotency_keys (fst racing)) = false.
Proof.
  split; [exact racing_interleaved|]. repeat split; vm_compute; reflexivity.
Qed.

Lemma record_implies_entry_racing :
  interleaved (fst racing) (snd racing)
  /\ forall r, In r (idempotency_keys (fst racing)) ->
               entry_exists (fst racing) (ik_entry_id r) = true.
Proof.
  split; [exact racing_interleaved|].
  apply (record_implies_entry (fst racing) (snd racing) racing_interleaved).
Defined.

(** A request whose three stages run one after the other is the call
    itself. *)
Lemma stages_of_call today db entryData idempotencyKey :
  run_schedule [0; 0; 0]%nat (db, [Called today entryData idempotencyKey])
  = (fst (JournalService_createJournalEntry today db entryData idempotencyKey),
     [Returned idempotencyKey
               (snd (JournalService_createJournalEntry today db entryData idempotencyKey))]).
Proof.
  unfold run_schedule, run_stage, JournalService_createJournalEntry. simpl.
  unfold checks.
  destruct (validateInput (journalEntrySchema today) entryData) as [v|]; [|reflexivity].
  destruct (idempotency_block db idempotencyKey v) as [[existing|]|]; try reflexivity.
  destruct (AccountService_validateAccountsExist db _) as [accs|]; [|reflexivity].
  destruct (reversal_block db v) as [[]|]; [|reflexivity].
  destruct (validateDoubleEntryRules v) as [[]|]; [|reflexivity].
  simpl.
  destruct (JournalRepository_create db v accs) as [[db1 e]|]; [|reflexivity].
  destruct (given idempotencyKey) as [key|] eqn:G; simpl; [|reflexivity].
  rewrite G. destruct (IdempotencyService_recordRequest db1 key _ _); reflexivity.
Qed.

(** ** Reading an entry back *)

Lemma findById_unfold db id :
  JournalRepository_findById db id
  = match filter (fun e => er_id e =? id)%nat (journal_entries db) with
    | [] => None
    | entry :: _ =>
        Some (mkJournalEntry (er_id entry) (er_date entry) (er_narration entry)
                (er_reverses_entry_id entry)
                (sort_by (fun a b => jl_line_index a <=? jl_line_index b)%nat
                         (joined_lines db id)))
    end.
Proof. reflexivity. Qed.

Lemma join_rows db (ls : list JournalLine) :
  NoDup (map acc_id (accounts db)) ->
  Forall (account_of db) ls ->
  flat_map
    (fun jl =>
       map (fun a => mkJournalLine (lr_id jl) (lr_entry_id jl) (lr_account_id jl)
                                   (acc_code a) (lr_debit_cents jl)
                                   (lr_credit_cents jl) (lr_line_index jl))
           (filter (fun a => acc_id a =? lr_account_id jl)%nat (accounts db)))
    (map row_of ls) = ls.
Proof.
  intros ND. induction 1 as [|l r (a & Ha & Ia & Ca) _ IH]; simpl; [reflexivity|].
  rewrite IH. rewrite <- Ia.
  rewrite (filter_unique_key acc_id (accounts db) a ND Ha). simpl.
  rewrite Ia, Ca. now destruct l.
Qed.

Lemma joined_lines_wf db id :
  wf db ->
  map row_of (joined_lines db id) = entry_lines db id
  /\ Forall (account_of db) (joined_lines db id).
Proof.
  intros W. unfold joined_lines.
  assert (In_lines : forall l, In l (entry_lines db id) -> In l (journal_lines db))
    by (intros l Hl; now apply filter_In in Hl).
  induction (entry_lines db id) as [|jl r IH]; simpl; [split; [reflexivity|constructor]|].
  destruct IH as [IH1 IH2]; [intros l Hl; apply In_lines; now right|].
  pose proof (wf_line_account W jl (In_lines jl (or_introl eq_refl))) as Ex.
  apply account_id_exists_In, in_map_iff in Ex as (a & Ia & Ha).
  rewrite <- Ia. rewrite (filter_unique_key acc_id (accounts db) a (wf_acc_ids W) Ha).
  simpl. rewrite IH1, Ia. split; [now destruct jl|].
  constructor; [|exact IH2]. exists a. simpl. auto.
Qed.

(** In a ledger with integrity, [findById] returns the row of the entry
    and its lines in the order they were written. *)
Lemma findById_wf db id e :
  wf db -> JournalRepository_findById db id = Some e ->
  exists row, In row (journal_entries db) /\ er_id row = id
    /\ e = mkJournalEntry id (er_date row) (er_narration row) (er_reverses_entry_id row)
                          (joined_lines db id)
    /\ map jl_line_index (joined_lines db id) = seq 0 (List.length (joined_lines db id)).
Proof.
  intros W. rewrite findById_unfold.
  destruct (filter (fun e => er_id e =? id)%nat (journal_entries db)) as [|row rest] eqn:F;
    [discriminate|].
  assert (In row (filter (fun e => er_id e =? id)%nat (journal_entries db)))
    as Hrow by (rewrite F; now left).
  apply filter_In in Hrow as [Hin E]. apply Nat.eqb_eq in E.
  destruct (joined_lines_wf db id W) as [Rows _].
  assert (Ix : map jl_line_index (joined_lines db id)
               = seq 0 (List.length (joined_lines db id))).
  { pose proof (wf_indices W row Hin) as X. rewrite E, <- Rows in X.
    rewrite map_map, length_map in X. exact X. }
  intros H. injection H as <-. exists row. repeat split; auto.
  rewrite E. f_equal. apply (sort_by_index_seq jl_line_index _ 0%nat Ix).
Qed.

(** Conversely, lines that are the rows of an entry are what [findById]
    returns for it. *)
Lemma findById_lines db row (ls : list JournalLine) :
  wf db -> In row (journal_entries db) ->
  map row_of ls = entry_lines db (er_id row) ->
  Forall (account_of db) ls ->
  JournalRepository_findById db (er_id row)
  = Some (mkJournalEntry (er_id row) (er_date row) (er_narration row)
                         (er_reverses_entry_id row) ls).
Proof.
  intros W Hin Rows Acc. rewrite findById_unfold.
  rewrite (filter_unique_key er_id (journal_entries db) row (wf_entry_ids W) Hin).
  assert (J : joined_lines db (er_id row) = ls).
  { unfold joined_lines. rewrite <- Rows. apply join_rows; [apply (wf_acc_ids W)|exact Acc]. }
  rewrite J. f_equal. f_equal.
  apply (sort_by_index_seq jl_line_index ls 0%nat).
  pose proof (wf_indices W row Hin) as X. rewrite <- Rows in X.
  rewrite map_map, length_map in X. exact X.
Qed.

(** ** Reversal *)

Lemma validateAccountsExist_incl db codes accs :
  AccountService_validateAccountsExist db codes = Ok accs -> incl accs (accounts db).
Proof.
  unfold AccountService_validateAccountsExist. destruct codes as [|c r]; [discriminate|].
  destruct (find is_blank _); [discriminate|].
  unfold AccountRepository_getAccountsByCodesWithValidation.
  destruct (dedupe [] (c :: r)); [intros H; injection H as <-; intros x []|].
  destruct (filter (fun code => negb _) _); [|discriminate].
  intros H. injection H as <-. intros x Hx. now apply filter_In in Hx.
Qed.

Lemma accountMap_get_some accs code a :
  accountMap_get accs code = Some a -> In a accs /\ acc_code a = code.
Proof.
  unfold accountMap_get. intros H. apply find_some in H as [Hin E].
  apply String.eqb_eq in E. split; [now apply in_rev|exact E].
Qed.

Lemma reversalLines_spec (ls : list JournalLine) :
  map account_code (reversalLines ls) = map jl_account_code ls
  /\ map debitCents (reversalLines ls) = map jl_credit_cents ls
  /\ map creditCents (reversalLines ls) = map jl_debit_cents ls.
Proof.
  unfold reversalLines. rewrite !map_map. repeat split; apply map_ext; intros l;
    unfold debitCents, creditCents; cbn [debit credit account_code]; try reflexivity;
    now rewrite toCents_orZero, toCents_fromCents.
Qed.

Lemma swapped_swapped p : swapped (swapped p) = p.
Proof. now destruct p as [[[[i a] c] d] k]. Qed.

(** The lines written for a request that swaps the sides of the lines
    [original], account by account and position by position. *)
Lemma created_postings db accs lv out : forall (original : list JournalLine) i,
  NoDup (map acc_code (accounts db)) -> incl accs (accounts db) ->
  Forall2 (answers accs) lv out ->
  Forall (account_of db) original ->
  map account_code lv = map jl_account_code original ->
  map debitCents lv = map jl_credit_cents original ->
  map creditCents lv = map jl_debit_cents original ->
  map jl_line_index out = seq i (List.length lv) ->
  map jl_line_index original = seq i (List.length original) ->
  map posting out = map swapped (map posting original)
  /\ Forall (account_of db) out.
Proof.
  intros original i ND Incl F2. revert original i.
  induction F2 as [|l o lv' out' (D & C & a & G & Ia & Ca) _ IH];
    intros [|L original] i Acc Mc Md Mk Io IL; try discriminate; simpl in *.
  - split; [reflexivity|constructor].
  - inversion Acc as [|? ? (a' & Ha' & Ia' & Ca') Acc']; subst.
    injection Mc as Mc1 Mc. injection Md as Md1 Md. injection Mk as Mk1 Mk.
    injection Io as Io1 Io. injection IL as IL1 IL.
    apply accountMap_get_some in G as [Ha Ea].
    assert (a = a').
    { apply Incl in Ha.
      pose proof (find_unique_code (accounts db) a ND Ha) as Fa.
      pose proof (find_unique_code (accounts db) a' ND Ha') as Fa'.
      rewrite Ea, Mc1, <- Ca' in Fa. rewrite Fa in Fa'. now injection Fa'. }
    subst a'.
    destruct (IH original (S i) Acc' Mc Md Mk Io IL) as [P A].
    split.
    + f_equal; [|exact P]. unfold posting, swapped.
      rewrite Io1, IL1, Ia, Ia', Ca, Ca', D, C, Md1, Mk1. reflexivity.
    + constructor; [|exact A]. exists a. auto.
Qed.

Lemma idempotency_block_some db idempotencyKey v existing :
  idempotency_block db idempotencyKey v = Ok (Some existing) ->
  entry_exists db (je_id existing) = true.
Proof.
  intros H. destruct (given idempotencyKey) as [key|] eqn:G.
  - apply given_some in G. subst.
    now destruct (idempotency_block_replay db key v existing H) as (_ & _ & _ & _ & Ex).
  - unfold idempotency_block in H. rewrite G in H. discriminate.
Qed.

Lemma entry_lines_created db out (n : nat) row m :
  wf db -> Forall (fun o => jl_entry_id o = next_uuid db) out ->
  entry_lines (mkDatabase (accounts db) (journal_entries db ++ [row])
                          (journal_lines db ++ map row_of out) m n) (next_uuid db)
  = map row_of out.
Proof.
  intros W Fe. unfold entry_lines. simpl.
  rewrite filter_app, (filter_rows_same _ _ Fe).
  rewrite filter_nil_forall; [reflexivity|].
  intros l Hl. apply Nat.eqb_neq. pose proof (wf_line_fresh db W l Hl). lia.
Qed.

(** One reversal that creates a new entry: the new entry names the entry
    it reverses, carries its lines with the sides swapped, gets the next
    free id, and can be read back as it was returned. *)
Lemma reversal_once today db id narration_ reversalDate idempotencyKey db1 r1 original :
  wf db ->
  JournalRepository_findById db id = Some original ->
  JournalService_createReversalEntry today db id narration_ reversalDate idempotencyKey
  = (db1, Ok r1) ->
  JournalRepository_findById db (je_id r1) = None ->
  map posting (je_lines r1) = map swapped (map posting (je_lines original))
  /\ je_reverses_entry_id r1 = Some id
  /\ je_id r1 = next_uuid db /\ (id < next_uuid db)%nat
  /\ JournalRepository_findById db1 (je_id r1) = Some r1
  /\ wf db1.
Proof.
  intros W Found H New.
  assert (W1 : wf db1).
  { replace db1 with (fst (JournalService_createReversalEntry today db id narration_
                             reversalDate idempotencyKey)) by now rewrite H.
    now apply createReversalEntry_wf. }
  unfold JournalService_createReversalEntry, JournalService_getJournalEntry in H.
  rewrite Found in H.
  destruct (findById_wf db id original W Found) as (row & Hrow & Erow & -> & Ix).
  destruct (joined_lines_wf db id W) as [_ Acc].
  simpl in H.
  set (req := mkEntryReq reversalDate narration_ (reversalLines (joined_lines db id))
                         (Some id)) in H.
  apply createJournalEntry_outcome in H
    as [(_ & e & E)|[(-> & v & existing & V & I & E)
                    |(v & accs & db' & e & V & I & A & _ & D & C & K)]].
  - discriminate.
  - injection E as <-. apply idempotency_block_some in I.
    destruct (findById_exists db (je_id r1) I) as (x & Fx & _). congruence.
  - assert (Er : r1 = e).
    { destruct (given idempotencyKey); [|destruct K as [_ E]; now injection E].
      destruct (IdempotencyService_recordRequest _ _ _ _); destruct K as [_ E];
        [now injection E|discriminate]. }
    subst e.
    assert (Same : JournalRepository_findById db1 (je_id r1)
                   = JournalRepository_findById db' (je_id r1)).
    { destruct (given idempotencyKey) as [key|]; [|destruct K as [-> _]; reflexivity].
      destruct (IdempotencyService_recordRequest db' key _ _) as [db2|] eqn:Rec;
        destruct K as [-> E]; [|reflexivity].
      apply recordRequest_effect, IdempotencyRepository_create_effect in Rec
        as (_ & _ & ->). reflexivity. }
    assert (W' : wf db') by exact (JournalRepository_create_wf db v accs db' r1 W D C).
    apply journalEntrySchema_ok in V as ((Vd & Vn & Vr & Vc & Vdc & Vcc) & _).
    destruct (reversalLines_spec (joined_lines db id)) as (Rc & Rd & Rk).
    unfold req in *. simpl in Vd, Vn, Vr, Vc, Vdc, Vcc.
    rewrite Rc in Vc. rewrite Rd in Vdc. rewrite Rk in Vcc.
    apply JournalRepository_create_effect in C as (out & Ins & _ & -> & ->).
    apply insert_lines_ok in Ins as (_ & F2 & Io & _ & Fe & _).
    assert (Len : List.length (lines v) = List.length (joined_lines db id)).
    { rewrite <- (length_map account_code (lines v)), Vc. apply length_map. }
    destruct (created_postings db accs (lines v) out (joined_lines db id) 0%nat
                (wf_acc_codes W) (validateAccountsExist_incl _ _ _ A) F2 Acc
                Vc Vdc Vcc Io Ix) as [P Aout].
    cbn [je_id je_lines je_reverses_entry_id] in *.
    split; [exact P|]. split; [exact Vr|]. split; [reflexivity|].
    split; [|split; [|exact W1]].
    + pose proof (wf_entry_fresh W row Hrow). lia.
    + rewrite Same.
      apply (findById_lines _ (mkEntryRow (next_uuid db) (date v) (narration v)
                                          (reverses_entry_id v)) out W').
      * simpl. apply in_or_app. right. now left.
      * simpl. symmetry. now apply entry_lines_created.
      * exact Aout.
Qed.

(** C8.  A reversal is posted through create-entry like any other entry,
    as the request that names the original in reverses_entry_id and lists
    its lines with debit and credit swapped.  When it creates a new entry,
    that entry carries, line by line, the same line_index and account as
    the original and the two amounts swapped; reversing that entry in turn
    creates a further, separate entry whose lines carry the line_index,
    account, debit_cents and credit_cents of the original. *)
Theorem reversal_of_reversal today1 today2 db id n1 d1 k1 n2 d2 k2 db1 r1 db2 r2 original :
  reachable db ->
  JournalRepository_findById db id = Some original ->
  JournalService_createReversalEntry today1 db id n1 d1 k1 = (db1, Ok r1) ->
  JournalRepository_findById db (je_id r1) = None ->
  JournalService_createReversalEntry today2 db1 (je_id r1) n2 d2 k2 = (db2, Ok r2) ->
  JournalRepository_findById db1 (je_id r2) = None ->
  JournalService_createReversalEntry today1 db id n1 d1 k1
  = JournalService_createJournalEntry today1 db
      (mkEntryReq d1 n1 (reversalLines (je_lines original)) (Some id)) k1
  /\ (map posting (je_lines r1) = map swapped (map posting (je_lines original))
      /\ je_reverses_entry_id r1 = Some id)
  /\ (map posting (je_lines r2) = map posting (je_lines original)
      /\ je_reverses_entry_id r2 = Some (je_id r1))
  /\ je_id r2 <> id /\ je_id r2 <> je_id r1
  /\ JournalRepository_findById db2 (je_id r2) = Some r2.
Proof.
  intros R Found H1 New1 H2 New2. apply reachable_wf in R as W.
  destruct (reversal_once today1 db id n1 d1 k1 db1 r1 original W Found H1 New1)
    as (P1 & Rv1 & Id1 & Lt1 & Back1 & W1).
  destruct (reversal_once today2 db1 (je_id r1) n2 d2 k2 db2 r2 r1 W1 Back1 H2 New2)
    as (P2 & Rv2 & Id2 & Lt2 & Back2 & _).
  split.
  { unfold JournalService_createReversalEntry, JournalService_getJournalEntry.
    now rewrite Found. }
  split; [split; assumption|]. split; [split; [|assumption]|].
  { rewrite P2, P1, map_map. rewrite <- (map_id (map posting (je_lines original))) at 2.
    apply map_ext. apply swapped_swapped. }
  split; [lia|]. split; [lia|exact Back2].
Qed.

Lemma seeded_reachable : reachable seeded.
Proof. unfold seeded, post. apply reach_createJournalEntry, chart_reachable. Qed.

Lemma reversal_of_reversal_seeded :
  let first := JournalService_createReversalEntry 31 seeded 4%nat "Undo" 8 None in
  let second := JournalService_createReversalEntry 31 (fst first) 7%nat "Redo" 9 None in
  exists original r1 r2,
    JournalRepository_findById seeded 4%nat = Some original
    /\ snd first = Ok r1 /\ snd second = Ok r2
    /\ map posting (je_lines r1) = map swapped (map posting (je_lines original))
    /\ map posting (je_lines r2) = map posting (je_lines original)
    /\ je_id r2 = 10%nat.
Proof.
  cbv zeta.
  destruct (JournalRepository_findById seeded 4%nat) as [original|] eqn:F;
    [|vm_compute in F; discriminate].
  destruct (JournalService_createReversalEntry 31 seeded 4%nat "Undo" 8 None)
    as [db1 [r1|e]] eqn:H1; [|vm_compute in H1; discriminate].
  assert (Id1 : je_id r1 = 7%nat) by (vm_compute in H1; now injection H1 as _ <-).
  assert (N1 : JournalRepository_findById seeded (je_id r1) = None)
    by (rewrite Id1; vm_compute; reflexivity).
  cbn [fst snd].
  destruct (JournalService_createReversalEntry 31 db1 7%nat "Redo" 9 None)
    as [db2 [r2|e]] eqn:H2;
    [|vm_compute in H1; injection H1 as <- _; vm_compute in H2; discriminate].
  assert (Id2 : je_id r2 = 10%nat)
    by (vm_compute in H1; injection H1 as <- _; vm_compute in H2; now injection H2 as _ <-).
  assert (N2 : JournalRepository_findById db1 (je_id r2) = None)
    by (rewrite Id2; vm_compute in H1; injection H1 as <- _; vm_compute; reflexivity).
  rewrite <- Id1 in H2.
  destruct (reversal_of_reversal 31 31 seeded 4%nat "Undo" 8 None "Redo" 9 None
              db1 r1 db2 r2 original seeded_reachable F H1 N1 H2 N2)
    as (_ & (P1 & _) & (P2 & _) & _).
  exists original, r1, r2. repeat split; assumption.
Defined.

(** ** The request hash *)

Lemma stringify_line allow l :
  allow = ["date"; "lines"; "narration"]
  \/ allow = ["date"; "lines"; "narration"; "reverses_entry_id"] ->
  stringify allow (line_json l) = [TBeginObject; TEndObject].
Proof. intros [-> | ->]; destruct l as [c [d|] [k|]]; reflexivity. Qed.

Lemma stringify_lines allow ls :
  allow = ["date"; "lines"; "narration"]
  \/ allow = ["date"; "lines"; "narration"; "reverses_entry_id"] ->
  flat_map (stringify allow) (map line_json ls)
  = flat_map (fun _ => [TBeginObject; TEndObject]) ls.
Proof.
  intros A. induction ls as [|l r IH]; [reflexivity|].
  cbn [map flat_map]. now rewrite IH, (stringify_line allow l A).
Qed.

(** The text that is hashed: the date, one empty object per line, the
    narration and the reversed id.  Nothing of a line is in it. *)
Lemma hashRequest_text r :
  hashRequest (request_json r)
  = [TBeginObject; TKey "date"; TNumber (inject_Z (date r)); TKey "lines"; TBeginArray]
    ++ flat_map (fun _ => [TBeginObject; TEndObject]) (lines r)
    ++ [TEndArray; TKey "narration"; TString (narration r)]
    ++ match reverses_entry_id r with
       | Some id => [TKey "reverses_entry_id"; TNumber (inject_Z (Z.of_nat id))]
       | None => []
       end
    ++ [TEndObject].
Proof.
  assert (Array : forall allow ls,
             allow = ["date"; "lines"; "narration"]
             \/ allow = ["date"; "lines"; "narration"; "reverses_entry_id"] ->
             stringify allow (JArray (map line_json ls))
             = TBeginArray :: flat_map (fun _ => [TBeginObject; TEndObject]) ls
                           ++ [TEndArray]).
  { intros allow ls A.
    change (stringify allow (JArray (map line_json ls)))
      with (TBeginArray :: flat_map (stringify allow) (map line_json ls) ++ [TEndArray]).
    now rewrite (stringify_lines allow ls A). }
  destruct r as [d n ls [id|]]; unfold hashRequest, request_json;
    cbn [date narration lines reverses_entry_id].
  - specialize (Array ["date"; "lines"; "narration"; "reverses_entry_id"] ls
                      (or_intror eq_refl)).
    set (arr := JArray (map line_json ls)) in *. clearbody arr.
    simpl. rewrite Array. simpl. rewrite <- ?app_assoc. reflexivity.
  - specialize (Array ["date"; "lines"; "narration"] ls (or_introl eq_refl)).
    set (arr := JArray (map line_json ls)) in *. clearbody arr.
    simpl. rewrite Array. simpl. rewrite <- ?app_assoc. reflexivity.
Qed.

Lemma hashRequest_ignores_lines r r' :
  date r = date r' -> narration r = narration r' ->
  reverses_entry_id r = reverses_entry_id r' ->
  List.length (lines r) = List.length (lines r') ->
  hashRequest (request_json r) = hashRequest (request_json r').
Proof.
  intros D N R L. rewrite !hashRequest_text, D, N, R.
  assert (E : flat_map (fun _ : CreateJournalLineRequest => [TBeginObject; TEndObject])
                       (lines r)
              = flat_map (fun _ : CreateJournalLineRequest => [TBeginObject; TEndObject])
                         (lines r')).
  { clear - L. revert L. generalize (lines r').
    induction (lines r) as [|x xs IH]; intros [|y ys] L; try discriminate; [reflexivity|].
    simpl. do 2 f_equal. apply IH. now injection L. }
  now rewrite E.
Qed.

(** The keys of the request are sorted before they are used: the order
    in which the fields of the body were given does not change the hash. *)
Lemma leb_lt_eq a b :
  String.leb a b = true <-> OrderedTypeEx.String_as_OT.lt a b \/ a = b.
Proof.
  unfold String.leb.
  pose proof (OrderedTypeEx.String_as_OT.cmp_lt a b) as L.
  pose proof (OrderedTypeEx.String_as_OT.cmp_eq a b) as E.
  unfold OrderedTypeEx.String_as_OT.cmp in L, E.
  destruct (String.compare a b); split; auto.
  - intros _. right. now apply E.
  - intros _. left. now apply L.
  - discriminate.
  - intros [H|H]; [apply L in H|apply E in H]; discriminate.
Qed.

Lemma leb_trans a b c :
  String.leb a b = true -> String.leb b c = true -> String.leb a c = true.
Proof.
  rewrite !leb_lt_eq. intros [H1| ->] [H2| ->]; auto.
  left. eapply OrderedTypeEx.String_as_OT.lt_trans; eauto.
Qed.

Lemma insert_sorted_sorted x s :
  StronglySorted (fun a b => String.leb a b = true) s ->
  StronglySorted (fun a b => String.leb a b = true) (insert_sorted String.leb x s).
Proof.
  induction 1 as [|y r S IH F]; simpl; [repeat constructor|].
  destruct (String.leb x y) eqn:L.
  - constructor; [now constructor|]. constructor; [exact L|].
    eapply Forall_impl; [|exact F]. intros z. now apply leb_trans.
  - constructor; [exact IH|].
    assert (Lyx : String.leb y x = true)
      by (destruct (String.leb_total x y) as [H|H]; [congruence|exact H]).
    apply (Permutation_Forall (insert_sorted_perm String.leb x r)).
    now constructor.
Qed.

Lemma sort_by_sorted l :
  StronglySorted (fun a b => String.leb a b = true) (sort_by String.leb l).
Proof. induction l; simpl; [constructor|now apply insert_sorted_sorted]. Qed.

Lemma sorted_perm_eq l : forall l',
  StronglySorted (fun a b => String.leb a b = true) l ->
  StronglySorted (fun a b => String.leb a b = true) l' ->
  Permutation l l' -> l = l'.
Proof.
  induction l as [|x r IH]; intros [|y r'] S S' P.
  - reflexivity.
  - now apply Permutation_nil in P.
  - symmetry in P. now apply Permutation_nil in P.
  - inversion S as [|? ? Sr Fx]; inversion S' as [|? ? Sr' Fy]; subst.
    assert (x = y).
    { assert (Hx : In x (y :: r')) by (apply (Permutation_in _ P); now left).
      assert (Hy : In y (x :: r))
        by (apply (Permutation_in _ (Permutation_sym P)); now left).
      destruct Hx as [->|Hx]; [reflexivity|]. destruct Hy as [->|Hy]; [reflexivity|].
      rewrite Forall_forall in Fx, Fy. apply String.leb_antisym; auto. }
    subst y. f_equal. apply IH; auto. now apply Permutation_cons_inv in P.
Qed.

Lemma sort_by_perm_eq l l' :
  Permutation l l' -> sort_by String.leb l = sort_by String.leb l'.
Proof.
  intros P. apply sorted_perm_eq; try apply sort_by_sorted.
  rewrite <- (sort_by_perm String.leb l), <- (sort_by_perm String.leb l'). exact P.
Qed.

Lemma assoc_perm {B} (k : string) (l l' : list (string * B)) :
  NoDup (map fst l) -> Permutation l l' -> assoc k l = assoc k l'.
Proof.
  intros ND P. induction P as [|[k1 v1] l l' P IH|[k1 v1] [k2 v2] l|l l' l'' P1 IH1 P2 IH2].
  - reflexivity.
  - simpl. inversion ND; subst. destruct (String.eqb k k1); auto.
  - simpl. inversion ND as [|? ? Hnot _]; subst.
    destruct (String.eqb_spec k k1) as [->|]; [|reflexivity].
    destruct (String.eqb_spec k1 k2) as [->|]; [|reflexivity].
    exfalso. apply Hnot. now left.
  - rewrite IH1 by exact ND. apply IH2.
    apply (Permutation_NoDup (Permutation_map fst P1) ND).
Qed.

Lemma hashRequest_field_order fields fields' :
  NoDup (map fst fields) -> Permutation fields fields' ->
  hashRequest (JObject fields) = hashRequest (JObject fields').
Proof.
  intros ND P. unfold hashRequest. cbn [object_keys].
  rewrite <- (sort_by_perm_eq _ _ (Permutation_map fst P)).
  set (allow := sort_by String.leb (map fst fields)).
  change (stringify allow (JObject fields))
    with (TBeginObject ::
            flat_map (fun k => match assoc k (map (fun kv : string * JSON =>
                                                    let (k, x) := kv in
                                                    (k, stringify allow x)) fields) with
                               | Some ts => TKey k :: ts
                               | None => []
                               end) allow ++ [TEndObject]).
  change (stringify allow (JObject fields'))
    with (TBeginObject ::
            flat_map (fun k => match assoc k (map (fun kv : string * JSON =>
                                                    let (k, x) := kv in
                                                    (k, stringify allow x)) fields') with
                               | Some ts => TKey k :: ts
                               | None => []
                               end) allow ++ [TEndObject]).
  do 2 f_equal. apply flat_map_ext. intros k.
  rewrite (assoc_perm k _ (map (fun kv : string * JSON =>
                                  let (k, x) := kv in (k, stringify allow x)) fields')).
  - reflexivity.
  - rewrite map_map.
    rewrite (map_ext _ fst); [exact ND|]. now intros [k' x].
  - now apply Permutation_map.
Qed.

(** C3.  The code misses the claim: create-entry with key "k1" and the seed
    capital entry, then with the same key and the same entry but 2000
    instead of 1000 on both lines.  The two payloads differ, yet their
    hashes are equal (the lines are serialised as empty objects), so the
    second call is not refused with Conflict: it is answered with the entry
    of the first call, and the doubled entry is not posted. *)
Theorem other_amounts_same_hash :
  let first := JournalService_createJournalEntry 31 chart seed_capital (Some "k1") in
  let second :=
    JournalService_createJournalEntry 31 (fst first) seed_capital_doubled (Some "k1") in
  hashRequest (request_json seed_capital) = hashRequest (request_json seed_capital_doubled)
  /\ (exists e1, snd first = Ok e1 /\ snd second = Ok e1
                 /\ map jl_debit_cents (je_lines e1) = [100000; 0])
  /\ fst second = fst first
  /\ List.length (journal_entries (fst second)) = 1%nat.
Proof.
  cbv zeta. split; [now apply hashRequest_ignores_lines|].
  split; [|split; vm_compute; reflexivity].
  eexists. split; [vm_compute; reflexivity|]. split; vm_compute; reflexivity.
Qed.

(** C6.  The code misses the claim: in the scenario ledger with a fifth
    account 1002 that has no activity, the trial balance from day 6 to day
    31 has a row for 1001 and 5001 (lines in the range) and for 1002 (no
    line at all), and none for 3001 and 4001, whose only lines are dated
    before the range. *)
Theorem trial_balance_omits_accounts :
  map acc_code (accounts scenario_with_bank) = ["1001"; "3001"; "4001"; "5001"; "1002"]
  /\ map (fun b => (ab_account_code b, ab_debits b, ab_credits b))
         (tb_accounts (BalanceRepository_getTrialBalance scenario_with_bank 6 31))
     = [("1001", 0, 20000); ("1002", 0, 0); ("5001", 20000, 0)]
  /\ BalanceService_getTrialBalance scenario_with_bank 6 31
     = Ok (BalanceRepository_getTrialBalance scenario_with_bank 6 31).
Proof. repeat split; vm_compute; reflexivity. Qed.

(** Whatever the directory, a second account with a code that exists is
    refused by the service before the insert is tried. *)
Lemma createAccount_existing_code db accountData a :
  validateInput accountSchema accountData = Ok accountData ->
  AccountRepository_findByCode db (car_code accountData) = Some a ->
  AccountService_createAccount db accountData
  = (db, Err (ValidationError [MsgAccountExists (car_code accountData)])).
Proof. intros V F. unfold AccountService_createAccount. now rewrite V, F. Qed.

(** C9.  The code misses the claim: creating an account with the code 1001
    of the Cash account leaves the directory unchanged but fails with a
    ValidationError, not with the Conflict error that the repository raises
    for the same condition. *)
Theorem duplicate_code_is_validation_error :
  AccountRepository_findByCode chart "1001" = Some (mkAccount 0 "1001" "Cash" Asset)
  /\ AccountService_createAccount chart (mkCreateAccountRequest "1001" "Petty cash" Asset)
     = (chart, Err (ValidationError [MsgAccountExists "1001"]))
  /\ AccountRepository_create chart (mkCreateAccountRequest "1001" "Petty cash" Asset)
     = Err (ConflictError (MsgAccountExists "1001")).
Proof. repeat split; vm_compute; reflexivity. Qed.




(** * Further properties *)

(** ** Money *)


(** ** The directory of accounts *)

Lemma accountSchema_valid accountData v :
  validateInput accountSchema accountData = Ok v ->
  v = accountData
  /\ (1 <= String.length (car_code accountData) <= 20)%nat
  /\ forallb is_alphanum (list_ascii_of_string (car_code accountData)) = true
  /\ (1 <= String.length (car_name accountData) <= 100)%nat.
Proof.
  unfold validateInput, accountSchema.
  destruct (code_rules _ _ _ _) eqn:C; [|discriminate].
  destruct (text_rules _ _ _ _) eqn:T; [|discriminate].
  simpl. intros H. injection H as <-.
  unfold code_rules, when in C. unfold text_rules, when in T.
  destruct (String.eqb_spec (car_code accountData) "") as [|Hc]; [discriminate|].
  destruct (String.eqb_spec (car_name accountData) "") as [|Hn]; [discriminate|].
  destruct (forallb is_alphanum _) eqn:A; [|discriminate].
  destruct (20 <? _)%nat eqn:L1; [discriminate|].
  destruct (100 <? _)%nat eqn:L2; [discriminate|].
  apply Nat.ltb_ge in L1, L2.
  assert (forall s, s <> "" -> (1 <= String.length s)%nat)
    by (intros [|c s] Hs; [congruence|simpl; lia]).
  repeat split; auto.
Qed.

(** The two ways [createAccount] ends. *)
Lemma createAccount_cases db accountData db' r :
  AccountService_createAccount db accountData = (db', r) ->
  (db' = db /\ exists e, r = Err e)
  \/ (validateInput accountSchema accountData = Ok accountData
      /\ existsb (fun a => String.eqb (acc_code a) (car_code accountData)) (accounts db)
         = false
      /\ db' = mkDatabase (accounts db
                           ++ [mkAccount (next_uuid db) (car_code accountData)
                                         (car_name accountData) (car_type accountData)])
                          (journal_entries db) (journal_lines db)
                          (idempotency_keys db) (S (next_uuid db))
      /\ r = Ok (mkAccount (next_uuid db) (car_code accountData)
                           (car_name accountData) (car_type accountData))).
Proof.
  unfold AccountService_createAccount. intros H.
  destruct (validateInput accountSchema accountData) as [v|] eqn:V;
    [|injection H as <- <-; left; eauto].
  pose proof (accountSchema_ok _ _ V) as [-> _].
  destruct (AccountRepository_findByCode db (car_code accountData)) eqn:F;
    [injection H as <- <-; left; eauto|].
  apply findByCode_none in F. unfold AccountRepository_create in H. rewrite F in H.
  injection H as <- <-. right. auto.
Qed.

(** ** Invariants of the reachable ledgers

    A property that holds of the empty ledger and is kept by the three
    writes of the services (one account row; one entry row with its line
    rows; one idempotency record) holds of every reachable ledger. *)
Section Invariant.
Variable P : Database -> Prop.

Hypothesis P_empty : P empty_db.

Hypothesis P_account : forall db accountData,
  wf db -> P db ->
  validateInput accountSchema accountData = Ok accountData ->
  existsb (fun a => String.eqb (acc_code a) (car_code accountData)) (accounts db) = false ->
  P (mkDatabase (accounts db
                 ++ [mkAccount (next_uuid db) (car_code accountData)
                               (car_name accountData) (car_type accountData)])
                (journal_entries db) (journal_lines db) (idempotency_keys db)
                (S (next_uuid db))).

Hypothesis P_entry : forall db v accs out,
  wf db -> P db ->
  AccountService_validateAccountsExist db (map account_code (lines v)) = Ok accs ->
  validateDoubleEntryRules v = Ok tt ->
  insert_lines accs (next_uuid db) 0 (S (next_uuid db)) (lines v)
  = Ok (map row_of out, out, (S (next_uuid db) + List.length (lines v))%nat) ->
  P (mkDatabase (accounts db)
                (journal_entries db
                 ++ [mkEntryRow (next_uuid db) (date v) (narration v) (reverses_entry_id v)])
                (journal_lines db ++ map row_of out) (idempotency_keys db)
                (S (next_uuid db) + List.length (lines v))%nat).

Hypothesis P_record : forall db key requestBody id,
  wf db -> P db ->
  existsb (fun r => String.eqb (ik_key r) key) (idempotency_keys db) = false ->
  P (mkDatabase (accounts db) (journal_entries db) (journal_lines db)
                (idempotency_keys db ++ [mkIdempotencyRecord key (hashRequest requestBody) id])
                (next_uuid db)).

Lemma createAccount_keeps db accountData :
  wf db -> P db -> P (fst (AccountService_createAccount db accountData)).
Proof.
  intros W H. destruct (AccountService_createAccount db accountData) as [db' r] eqn:C.
  apply createAccount_cases in C as [[-> _]|(V & F & -> & _)]; simpl; auto.
Qed.

Lemma createJournalEntry_keeps today db entryData idempotencyKey :
  wf db -> P db ->
  P (fst (JournalService_createJournalEntry today db entryData idempotencyKey)).
Proof.
  intros W H.
  destruct (JournalService_createJournalEntry today db entryData idempotencyKey)
    as [db' r] eqn:C.
  apply createJournalEntry_outcome in C
    as [[-> _]|[[-> _]|(v & accs & db1 & e1 & _ & _ & A & _ & D & C & K)]];
    simpl; try assumption.
  assert (W1 : wf db1) by (eapply JournalRepository_create_wf; eauto).
  assert (H1 : P db1).
  { apply JournalRepository_create_effect in C as (out & I & _ & _ & ->).
    now apply (P_entry db v accs out). }
  destruct (given idempotencyKey) as [key|]; [|destruct K as [-> _]; exact H1].
  destruct (IdempotencyService_recordRequest db1 key _ _) as [db2|] eqn:Rec;
    destruct K as [-> _]; [|exact H1].
  apply recordRequest_effect, IdempotencyRepository_create_effect in Rec as (F & _ & ->).
  now apply P_record.
Qed.

Lemma reachable_invariant db : reachable db -> P db.
Proof.
  intros R. induction R as [|db r R IH|db today entryData key R IH
                            |db today id n d key R IH].
  - exact P_empty.
  - apply createAccount_keeps; [now apply reachable_wf|exact IH].
  - apply createJournalEntry_keeps; [now apply reachable_wf|exact IH].
  - unfold JournalService_createReversalEntry.
    destruct (JournalService_getJournalEntry db id); [|exact IH].
    apply createJournalEntry_keeps; [now apply reachable_wf|exact IH].
Qed.
End Invariant.

Lemma valid_accounts db : reachable db -> Forall valid_account (accounts db).
Proof.
  revert db. apply reachable_invariant; simpl; auto.
  intros db accountData _ H V _. apply Forall_app. split; [exact H|].
  constructor; [|constructor].
  apply accountSchema_valid in V as (_ & Hc & Ha & Hn). repeat split; simpl; tauto.
Qed.

(** X2.  In every ledger reached through the services, each account of the
    directory has a code of 1 to 20 letters and digits and a name of 1 to
    100 characters, no two accounts share a code, and no two share an id. *)
Theorem directory_invariant db :
  reachable db ->
  Forall valid_account (accounts db)
  /\ NoDup (map acc_code (accounts db))
  /\ NoDup (map acc_id (accounts db)).
Proof.
  intros R. split; [exact (valid_accounts db R)|].
  split; [apply (wf_acc_codes (reachable_wf db R))|apply (wf_acc_ids (reachable_wf db R))].
Qed.

Lemma directory_invariant_chart :
  reachable chart
  /\ Forall valid_account (accounts chart)
  /\ NoDup (map acc_code (accounts chart))
  /\ NoDup (map acc_id (accounts chart)).
Proof.
  split; [exact chart_reachable|]. exact (directory_invariant chart chart_reachable).
Defined.

Lemma find_over_app {A} (f : A -> bool) (l1 l2 : list A) :
  find f (l1 ++ l2) = match find f l1 with
                      | Some x => Some x
                      | None => find f l2
                      end.
Proof. induction l1 as [|x r IH]; simpl; [reflexivity|]. now destruct (f x). Qed.

(** X3.  An account that has just been created is found under its code as
    it was returned, with the code, name and type that were submitted and
    the next free id; it is listed among all accounts; and the look-up of
    every other code answers as before. *)
Theorem created_account_is_found db accountData db' a :
  AccountService_createAccount db accountData = (db', Ok a) ->
  AccountService_getAccount db' (car_code accountData) = Ok a
  /\ a = mkAccount (next_uuid db) (car_code accountData) (car_name accountData)
                   (car_type accountData)
  /\ In a (AccountService_getAllAccounts db' None)
  /\ forall code, code <> car_code accountData ->
       AccountService_getAccount db' code = AccountService_getAccount db code.
Proof.
  intros H. apply createAccount_cases in H as [[_ [e E]]|(V & F & -> & E)]; [discriminate|].
  injection E as E. subst a. apply accountSchema_ok in V as [_ Hne].
  set (a := mkAccount _ _ _ _).
  unfold AccountService_getAccount, AccountRepository_findByCode. cbn [accounts].
  split; [|split; [reflexivity|split]].
  - apply String.eqb_neq in Hne. rewrite Hne.
    rewrite (find_snoc_new _ (accounts db) a F); [reflexivity|]. apply String.eqb_refl.
  - unfold AccountService_getAllAccounts, AccountRepository_findAll. cbn [accounts].
    apply (Permutation_in _ (sort_by_perm _ _)). apply in_or_app. right. now left.
  - intros code Hc. destruct (String.eqb code ""); [reflexivity|].
    rewrite find_over_app. destruct (find _ (accounts db)); [reflexivity|].
    simpl. replace (String.eqb (car_code accountData) code) with false; [reflexivity|].
    symmetry. apply String.eqb_neq. congruence.
Qed.

Lemma created_account_is_found_bank :
  AccountService_createAccount scenario (mkCreateAccountRequest "1002" "Bank" Asset)
  = (scenario_with_bank, Ok (mkAccount 13 "1002" "Bank" Asset))
  /\ AccountService_getAccount scenario_with_bank "1002"
     = Ok (mkAccount 13 "1002" "Bank" Asset).
Proof.
  assert (H : AccountService_createAccount scenario
                (mkCreateAccountRequest "1002" "Bank" Asset)
              = (scenario_with_bank, Ok (mkAccount 13 "1002" "Bank" Asset)))
    by (vm_compute; reflexivity).
  split; [exact H|]. exact (proj1 (created_account_is_found _ _ _ _ H)).
Defined.

Lemma insert_sorted_by_code {A} (key : A -> string) (x : A) (s : list A) :
  StronglySorted (fun a b => String.leb (key a) (key b) = true) s ->
  StronglySorted (fun a b => String.leb (key a) (key b) = true)
                 (insert_sorted (fun a b => String.leb (key a) (key b)) x s).
Proof.
  induction 1 as [|y r S IH F]; simpl; [repeat constructor|].
  destruct (String.leb (key x) (key y)) eqn:L.
  - constructor; [now constructor|]. constructor; [exact L|].
    eapply Forall_impl; [|exact F]. intros z. now apply leb_trans.
  - constructor; [exact IH|].
    assert (Lyx : String.leb (key y) (key x) = true)
      by (destruct (String.leb_total (key x) (key y)) as [H|H]; [congruence|exact H]).
    apply (Permutation_Forall (insert_sorted_perm _ x r)).
    now constructor.
Qed.

Lemma sort_by_code_sorted {A} (key : A -> string) (l : list A) :
  StronglySorted (fun a b => String.leb (key a) (key b) = true)
                 (sort_by (fun a b => String.leb (key a) (key b)) l).
Proof. induction l; simpl; [constructor|now apply insert_sorted_by_code]. Qed.

(** X4.  The list of accounts, with or without a type filter, holds the
    accounts of the directory that have the type asked for, each once, in
    ascending order of their codes. *)
Theorem accounts_listing db type :
  Permutation (AccountService_getAllAccounts db type) (filter (of_type type) (accounts db))
  /\ StronglySorted by_code (AccountService_getAllAccounts db type).
Proof.
  unfold AccountService_getAllAccounts, AccountRepository_findAll. split.
  - rewrite <- sort_by_perm. destruct type as [t|]; simpl; [reflexivity|].
    now rewrite filter_all.
  - apply (sort_by_code_sorted acc_code).
Qed.

(** ** What is stored for an entry *)

Lemma line_checks_posted d c :
  line_checks d c = true ->
  ((0 < d /\ c = 0) \/ (d = 0 /\ 0 < c)) /\ d <= 2147483647 /\ c <= 2147483647.
Proof.
  unfold line_checks, int4. intros H.
  repeat (apply andb_true_iff in H as [H ?]).
  repeat match goal with
         | X : _ && _ = true |- _ => apply andb_true_iff in X as [? ?]
         | X : _ || _ = true |- _ => apply orb_true_iff in X as [X|X]
         | X : (_ <=? _) = true |- _ => apply Z.leb_le in X
         | X : (_ <? _) = true |- _ => apply Z.ltb_lt in X
         | X : (_ =? _) = true |- _ => apply Z.eqb_eq in X
         end; lia.
Qed.

Lemma insert_lines_checked accountMap eid ls : forall i u rows out u',
  insert_lines accountMap eid i u ls = Ok (rows, out, u') ->
  Forall (fun r => line_checks (lr_debit_cents r) (lr_credit_cents r) = true) rows.
Proof.
  induction ls as [|l r IH]; intros i u rows out u' H; simpl in H.
  - injection H as <- _ _. constructor.
  - destruct (accountMap_get accountMap (account_code l)) as [a|]; [|discriminate].
    destruct (line_checks _ _) eqn:L; [|discriminate].
    destruct (insert_lines accountMap eid (S i) (S u) r) as [[[rows' out'] u'']|] eqn:R;
      simpl in H; [|discriminate].
    injection H as <- _ _. constructor; [exact L|]. eapply IH; eauto.
Qed.

Lemma check_lines_distinct ls : forall td tc seen r,
  check_lines ls td tc seen = Ok r ->
  NoDup (map account_code ls)
  /\ forall c, In c (map account_code ls) -> existsb (String.eqb c) seen = false.
Proof.
  induction ls as [|l rest IH]; intros td tc seen r H; simpl in H.
  - split; [constructor|intros c []].
  - destruct (existsb _ seen) eqn:S; [discriminate|].
    destruct (_ || _); [discriminate|].
    destruct (_ && _); [discriminate|].
    destruct (_ && _); [discriminate|].
    apply IH in H as [ND Hs]. simpl. split.
    + constructor; [|exact ND]. intros Hin. specialize (Hs _ Hin). simpl in Hs.
      now rewrite String.eqb_refl in Hs.
    + intros c [<-|Hc]; [exact S|]. specialize (Hs _ Hc). simpl in Hs.
      now apply orb_false_iff in Hs as [_ Hs].
Qed.

Lemma answers_account_of db accs ls out :
  incl accs (accounts db) -> Forall2 (answers accs) ls out ->
  Forall (account_of db) out /\ map jl_account_code out = map account_code ls.
Proof.
  intros Incl. induction 1 as [|l o ls' out' (_ & _ & a & G & Ia & Ca) _ [IH1 IH2]];
    simpl; [split; [constructor|reflexivity]|].
  apply accountMap_get_some in G as [Ha Ea]. split.
  - constructor; [|exact IH1]. exists a. auto.
  - now rewrite IH2, Ca, Ea.
Qed.

Lemma NoDup_map_injective {A B} (f : A -> B) (l : list A) (x y : A) :
  NoDup (map f l) -> In x l -> In y l -> f x = f y -> x = y.
Proof.
  induction l as [|z r IH]; intros ND Hx Hy E; [destruct Hx|].
  simpl in ND. inversion ND as [|? ? Hnot ND']; subst.
  destruct Hx as [->|Hx], Hy as [->|Hy]; auto.
  - exfalso. apply Hnot. rewrite E. now apply in_map.
  - exfalso. apply Hnot. rewrite <- E. now apply in_map.
Qed.

(** Lines that name accounts of the directory by distinct codes name them
    by distinct ids. *)
Lemma distinct_codes_distinct_ids db (out : list JournalLine) :
  NoDup (map acc_id (accounts db)) -> Forall (account_of db) out ->
  NoDup (map jl_account_code out) -> NoDup (map jl_account_id out).
Proof.
  intros ND. induction 1 as [|o r (a & Ha & Ia & Ca) F IH]; intros NC; simpl;
    [constructor|].
  simpl in NC. inversion NC as [|? ? Hnot NC']; subst.
  constructor; [|now apply IH].
  intros Hin. apply in_map_iff in Hin as (o' & E & Ho').
  rewrite Forall_forall in F. destruct (F o' Ho') as (a' & Ha' & Ia' & Ca').
  assert (a' = a)
    by (apply (NoDup_map_injective acc_id (accounts db)); auto; congruence).
  subst a'. apply Hnot. rewrite <- Ca, Ca'. now apply in_map.
Qed.

Lemma entry_lines_kept db out (n : nat) row m id :
  Forall (fun o => jl_entry_id o = next_uuid db) out -> id <> next_uuid db ->
  entry_lines (mkDatabase (accounts db) (journal_entries db ++ [row])
                          (journal_lines db ++ map row_of out) m n) id
  = entry_lines db id.
Proof.
  intros Fe Hid. unfold entry_lines. simpl.
  rewrite filter_app, (filter_rows_other _ _ _ Fe Hid). apply app_nil_r.
Qed.

Lemma stored_entries db :
  reachable db ->
  Forall posted_line (journal_lines db)
  /\ forall e, In e (journal_entries db) ->
       (2 <= List.length (entry_lines db (er_id e)))%nat
       /\ NoDup (map lr_account_id (entry_lines db (er_id e)))
       /\ map lr_line_index (entry_lines db (er_id e))
          = seq 0 (List.length (entry_lines db (er_id e))).
Proof.
  intros R.
  enough (H : Forall posted_line (journal_lines db)
              /\ forall e, In e (journal_entries db) ->
                   (2 <= List.length (entry_lines db (er_id e)))%nat
                   /\ NoDup (map lr_account_id (entry_lines db (er_id e)))).
  { destruct H as [H1 H2]. split; [exact H1|]. intros e He.
    destruct (H2 e He) as [L N]. repeat split; auto.
    apply (wf_indices (reachable_wf db R) e He). }
  revert db R. apply reachable_invariant.
  - split; [constructor|intros e []].
  - intros db accountData _ H _ _. exact H.
  - intros db v accs out W [H1 H2] A D I. split.
    + cbn [journal_lines]. apply Forall_app. split; [exact H1|].
      apply insert_lines_checked in I. eapply Forall_impl; [|exact I].
      intros l. apply line_checks_posted.
    + pose proof (insert_lines_ok _ _ _ _ _ _ _ _ I) as (_ & F2 & _ & _ & Fe & _).
      intros e He. cbn [journal_entries] in He.
      apply in_app_iff in He as [He|[<-|[]]].
      * assert (Hid : er_id e <> next_uuid db)
          by (pose proof (wf_entry_fresh W e He); lia).
        rewrite (entry_lines_kept db out _ _ _ _ Fe Hid). now apply H2.
      * cbn [er_id]. rewrite (entry_lines_created db out _ _ _ W Fe).
        rewrite length_map, map_map.
        change (fun x => lr_account_id (row_of x)) with jl_account_id.
        pose proof (validateDoubleEntryRules_ok v D) as (_ & _ & _ & Len).
        rewrite <- (Forall2_length F2). split; [exact Len|].
        destruct (answers_account_of db accs (lines v) out
                    (validateAccountsExist_incl _ _ _ A) F2) as [Acc Codes].
        apply (distinct_codes_distinct_ids db out (wf_acc_ids W) Acc).
        rewrite Codes. unfold validateDoubleEntryRules in D.
        destruct (check_lines (lines v) 0 0 []) as [t|] eqn:C; [|discriminate].
        now apply check_lines_distinct in C as [ND _].
  - intros db key requestBody id _ H _. exact H.
Qed.

(** X5.  In every ledger reached through the services, each stored line
    posts one strictly positive amount on exactly one side and within the
    range of a 32-bit integer; and each entry has at least two lines, on
    pairwise different accounts, numbered 0, 1, 2, ... in the order they
    were submitted. *)
Theorem stored_entries_invariant db :
  reachable db ->
  Forall posted_line (journal_lines db)
  /\ forall e, In e (journal_entries db) ->
       (2 <= List.length (entry_lines db (er_id e)))%nat
       /\ NoDup (map lr_account_id (entry_lines db (er_id e)))
       /\ map lr_line_index (entry_lines db (er_id e))
          = seq 0 (List.length (entry_lines db (er_id e))).
Proof. exact (stored_entries db). Qed.

Lemma stored_entries_invariant_scenario :
  reachable scenario
  /\ Forall posted_line (journal_lines scenario)
  /\ forall e, In e (journal_entries scenario) ->
       (2 <= List.length (entry_lines scenario (er_id e)))%nat
       /\ NoDup (map lr_account_id (entry_lines scenario (er_id e)))
       /\ map lr_line_index (entry_lines scenario (er_id e))
          = seq 0 (List.length (entry_lines scenario (er_id e))).
Proof.
  split; [exact scenario_reachable|].
  exact (stored_entries_invariant scenario scenario_reachable).
Defined.

(** ** Posted entries are never changed *)

Lemma continues_refl {A} (l : list A) : continues l l.
Proof. exists []. now rewrite app_nil_r. Qed.

Lemma continues_snoc {A} (l added : list A) : continues l (l ++ added).
Proof. now exists added. Qed.

Lemma continues_trans {A} (l1 l2 l3 : list A) :
  continues l1 l2 -> continues l2 l3 -> continues l1 l3.
Proof. intros [a ->] [b ->]. exists (a ++ b). now rewrite app_assoc. Qed.

Lemma continues_incl {A} (l l' : list A) : continues l l' -> incl l l'.
Proof. intros [a ->] x Hx. apply in_or_app. now left. Qed.

Lemma extends_refl db : extends db db.
Proof. repeat split; try apply continues_refl. lia. Qed.

Lemma extends_trans db1 db2 db3 : extends db1 db2 -> extends db2 db3 -> extends db1 db3.
Proof.
  intros (A1 & B1 & C1 & D1 & E1) (A2 & B2 & C2 & D2 & E2).
  repeat split; try (eapply continues_trans; eassumption). lia.
Qed.

(** An entry reads the same in a larger ledger that adds no line to it. *)
Lemma findById_stable db db' id e :
  wf db -> wf db' ->
  incl (accounts db) (accounts db') ->
  incl (journal_entries db) (journal_entries db') ->
  entry_lines db' id = entry_lines db id ->
  JournalRepository_findById db id = Some e ->
  JournalRepository_findById db' id = Some e.
Proof.
  intros W W' Ia Ie L F.
  destruct (findById_wf db id e W F) as (row & Hrow & <- & -> & _).
  destruct (joined_lines_wf db (er_id row) W) as [Rows Acc].
  apply (findById_lines db' row (joined_lines db (er_id row)) W').
  - now apply Ie.
  - now rewrite L.
  - eapply Forall_impl; [|exact Acc]. intros l (a & Ha & Ea). exists a. split; auto.
Qed.

Lemma createJournalEntry_extends today db entryData idempotencyKey :
  wf db ->
  let db' := fst (JournalService_createJournalEntry today db entryData idempotencyKey) in
  extends db db'
  /\ forall id e, JournalRepository_findById db id = Some e ->
                  JournalRepository_findById db' id = Some e.
Proof.
  intros W db'.
  assert (W' : wf db') by now apply createJournalEntry_wf.
  unfold db' in *. clear db'.
  destruct (JournalService_createJournalEntry today db entryData idempotencyKey)
    as [db' r] eqn:C.
  apply createJournalEntry_outcome in C
    as [[-> _]|[[-> _]|(v & accs & db1 & e1 & _ & _ & A & _ & D & C & K)]];
    cbn [fst] in *; try (split; [apply extends_refl|auto]).
  assert (W1 : wf db1) by exact (JournalRepository_create_wf db v accs db1 e1 W D C).
  apply JournalRepository_create_effect in C as (out & I & _ & _ & ->).
  apply insert_lines_ok in I as (_ & _ & _ & _ & Fe & _).
  set (db1 := mkDatabase _ _ _ _ _) in *.
  assert (E1 : extends db db1).
  { repeat split; try apply continues_refl; try apply continues_snoc. simpl. lia. }
  assert (S1 : forall id e, JournalRepository_findById db id = Some e ->
                            JournalRepository_findById db1 id = Some e).
  { intros id e F. apply (findById_stable db db1 id e W W1); auto.
    - apply incl_refl.
    - simpl. apply incl_appl, incl_refl.
    - apply entry_lines_kept; [exact Fe|].
      apply findById_some in F as (_ & row & Hrow & <-).
      pose proof (wf_entry_fresh W row Hrow). lia. }
  destruct (given idempotencyKey) as [key|]; [|destruct K as [-> _]; auto].
  destruct (IdempotencyService_recordRequest db1 key _ _) as [db2|] eqn:Rec;
    destruct K as [-> _]; [|auto].
  apply recordRequest_effect, IdempotencyRepository_create_effect in Rec as (_ & _ & ->).
  split.
  - apply (extends_trans _ db1); [exact E1|].
    repeat split; try apply continues_refl; try apply continues_snoc. simpl. lia.
  - intros id e F. apply S1 in F. exact F.
Qed.

(** X6.  A call of a service that writes only adds rows: every account,
    entry, line and idempotency record of the ledger is still there, in
    place and unchanged, after the call; and every entry that could be read
    before the call reads exactly the same after it. *)
Theorem posted_entries_never_change db db' :
  reachable db -> service_call db db' ->
  extends db db'
  /\ forall id e, JournalService_getJournalEntry db id = Ok e ->
                  JournalService_getJournalEntry db' id = Ok e.
Proof.
  intros R Call. apply reachable_wf in R as W.
  enough (H : extends db db'
              /\ forall id e, JournalRepository_findById db id = Some e ->
                              JournalRepository_findById db' id = Some e).
  { destruct H as [E S]. split; [exact E|]. intros id e.
    unfold JournalService_getJournalEntry.
    destruct (JournalRepository_findById db id) as [x|] eqn:F; [|discriminate].
    intros H. injection H as ->. now rewrite (S id e F). }
  destruct Call as [accountData|today entryData key|today id n d key].
  - assert (W' : wf (fst (AccountService_createAccount db accountData)))
      by now apply createAccount_wf.
    destruct (AccountService_createAccount db accountData) as [db' r] eqn:C.
    apply createAccount_cases in C as [[-> _]|(_ & _ & -> & _)]; cbn [fst] in *;
      [split; [apply extends_refl|auto]|].
    split.
    + repeat split; try apply continues_refl; try apply continues_snoc. simpl. lia.
    + intros id e F. eapply (findById_stable db _ id e W W'); eauto.
      * simpl. apply incl_appl, incl_refl.
      * apply incl_refl.
  - now apply createJournalEntry_extends.
  - unfold JournalService_createReversalEntry.
    destruct (JournalService_getJournalEntry db id); [|split; [apply extends_refl|auto]].
    now apply createJournalEntry_extends.
Qed.

Lemma posted_entries_never_change_bank :
  reachable scenario /\ service_call scenario scenario_with_bank
  /\ extends scenario scenario_with_bank.
Proof.
  split; [exact scenario_reachable|].
  assert (C : service_call scenario scenario_with_bank) by apply call_createAccount.
  split; [exact C|].
  exact (proj1 (posted_entries_never_change scenario scenario_with_bank
                  scenario_reachable C)).
Defined.

(** ** Reading back what was posted *)

Lemma idempotency_block_found db idempotencyKey v existing :
  idempotency_block db idempotencyKey v = Ok (Some existing) ->
  JournalRepository_findById db (je_id existing) = Some existing.
Proof.
  unfold idempotency_block. destruct (given idempotencyKey) as [key|]; [|discriminate].
  destruct (IdempotencyService_validateRequest db key _) as [c|]; simpl; [|discriminate].
  destruct (negb (isValid c)); [discriminate|].
  destruct (entryId c) as [id|]; [|discriminate].
  intros H. injection H as H. pose proof (findById_some db id existing H) as [E _].
  now rewrite E.
Qed.

Lemma create_reads_back db v accs db1 e1 :
  wf db ->
  AccountService_validateAccountsExist db (map account_code (lines v)) = Ok accs ->
  validateDoubleEntryRules v = Ok tt ->
  JournalRepository_create db v accs = Ok (db1, e1) ->
  JournalRepository_findById db1 (je_id e1) = Some e1.
Proof.
  intros W A D C.
  assert (W1 : wf db1) by exact (JournalRepository_create_wf db v accs db1 e1 W D C).
  apply JournalRepository_create_effect in C as (out & I & _ & -> & ->).
  apply insert_lines_ok in I as (_ & F2 & _ & _ & Fe & _).
  destruct (answers_account_of db accs (lines v) out
              (validateAccountsExist_incl _ _ _ A) F2) as [Acc _].
  cbn [je_id].
  apply (findById_lines _ (mkEntryRow (next_uuid db) (date v) (narration v)
                                      (reverses_entry_id v)) out W1).
  - simpl. apply in_or_app. right. now left.
  - simpl. symmetry. now apply entry_lines_created.
  - exact Acc.
Qed.

(** The entry a call returns is in the ledger the call leaves. *)
Lemma returned_entry_found today db entryData idempotencyKey db' e :
  wf db ->
  JournalService_createJournalEntry today db entryData idempotencyKey = (db', Ok e) ->
  JournalRepository_findById db' (je_id e) = Some e.
Proof.
  intros W H.
  apply createJournalEntry_outcome in H
    as [(_ & x & E)|[(-> & v & existing & _ & I & E)
                    |(v & accs & db1 & e1 & _ & _ & A & _ & D & C & K)]].
  - discriminate.
  - injection E as ->. now apply idempotency_block_found in I.
  - pose proof (create_reads_back db v accs db1 e1 W A D C) as F.
    destruct (given idempotencyKey) as [key|].
    + destruct (IdempotencyService_recordRequest db1 key _ _) as [db2|] eqn:Rec;
        destruct K as [-> E]; [|discriminate].
      injection E as <-.
      apply recordRequest_effect, IdempotencyRepository_create_effect in Rec
        as (_ & _ & ->).
      exact F.
    + destruct K as [-> E]. injection E as <-. exact F.
Qed.

(** X7.  The entry that create-entry returns, whether it was created by the
    call or found for the idempotency key, can be read back by its id from
    the ledger the call leaves, and reads exactly as it was returned. *)
Theorem returned_entry_reads_back today db entryData idempotencyKey db' e :
  reachable db ->
  JournalService_createJournalEntry today db entryData idempotencyKey = (db', Ok e) ->
  JournalService_getJournalEntry db' (je_id e) = Ok e
  /\ JournalController_getJournalEntry db' (je_id e) = Sent 200 (entry_view e).
Proof.
  intros R H. apply reachable_wf in R.
  pose proof (returned_entry_found today db entryData idempotencyKey db' e R H) as F.
  unfold JournalController_getJournalEntry, JournalService_getJournalEntry.
  now rewrite F.
Qed.

Lemma returned_entry_reads_back_seed :
  reachable chart
  /\ exists db' e,
       JournalService_createJournalEntry 31 chart seed_capital (Some "k1") = (db', Ok e)
       /\ JournalService_getJournalEntry db' (je_id e) = Ok e.
Proof.
  split; [exact chart_reachable|].
  destruct (JournalService_createJournalEntry 31 chart seed_capital (Some "k1"))
    as [db' [e|x]] eqn:H; [|vm_compute in H; discriminate].
  exists db', e. split; [reflexivity|].
  exact (proj1 (returned_entry_reads_back 31 chart seed_capital (Some "k1") db' e
                  chart_reachable H)).
Defined.

(** ** What the response of create-entry shows *)






(** ** Errors that are not the caller's *)

Lemma dedupe_In (l : list string) : forall seen c,
  In c l -> existsb (String.eqb c) seen = true \/ In c (dedupe seen l).
Proof.
  induction l as [|x r IH]; intros seen c H; [destruct H|]. simpl.
  destruct H as [->|H].
  - destruct (existsb (String.eqb c) seen) eqn:E; [now left|right; now left].
  - destruct (existsb (String.eqb x) seen) eqn:E; [now apply IH|].
    destruct (IH (x :: seen) c H) as [S|S]; [|right; now right].
    simpl in S. apply orb_true_iff in S as [S|S]; [|now left].
    apply String.eqb_eq in S. subst. right. now left.
Qed.

(** Every code that was asked for is the code of a resolved account. *)
Lemma validateAccountsExist_covers db codes accs :
  AccountService_validateAccountsExist db codes = Ok accs ->
  forall c, In c codes -> exists a, In a accs /\ acc_code a = c.
Proof.
  unfold AccountService_validateAccountsExist. destruct codes as [|c0 r]; [discriminate|].
  destruct (find is_blank _); [discriminate|].
  unfold AccountRepository_getAccountsByCodesWithValidation.
  intros H c Hc. destruct (dedupe_In (c0 :: r) [] c Hc) as [S|S]; [discriminate|].
  destruct (dedupe [] (c0 :: r)) as [|u us]; [destruct S|].
  set (result := filter _ (accounts db)) in H.
  destruct (filter _ (u :: us)) as [|m ms] eqn:M; [|discriminate].
  injection H as <-.
  assert (E : negb (existsb (String.eqb c) (map acc_code result)) = false).
  { destruct (negb _) eqn:N; [|reflexivity]. exfalso.
    assert (X : In c []) by (rewrite <- M; apply filter_In; auto). destruct X. }
  apply negb_false_iff, existsb_exists in E as (c' & Hc' & E).
  apply String.eqb_eq in E. subst c'. apply in_map_iff in Hc' as (a & Ea & Ha). eauto.
Qed.








(** ** Balances, account by account *)

Lemma account_lines_all db a :
  account_lines db a None
  = filter (fun l => acc_id a =? lr_account_id l)%nat (journal_lines db).
Proof.
  unfold account_lines. apply filter_ext. intros l. simpl.
  now rewrite andb_true_r, Nat.eqb_sym.
Qed.

Lemma counted_lines_mine db keep a :
  counted_lines db keep a
  = filter (kept db keep)
           (filter (fun l => acc_id a =? lr_account_id l)%nat (journal_lines db)).
Proof. apply filter_account_kept. Qed.

(** The group of an account in a balance query whose [WHERE] clause is a
    condition on the entry of the joined row. *)
Lemma group_of_account db a (keep : option EntryRow -> bool) :
  wf db ->
  group_row a (filter (fun r : JoinedRow => keep (snd r)) (joined_rows db a))
  = match account_lines db a None, counted_lines db keep a with
    | [], _ => if keep None then [balance_over a []] else []
    | _ :: _, [] => []
    | _ :: _, counted => [balance_over a counted]
    end.
Proof.
  intros W.
  pose proof (sum_column_joined db a keep lr_debit_cents W) as D.
  pose proof (sum_column_joined db a keep lr_credit_cents W) as C.
  fold (counted_lines db keep a) in D, C.
  rewrite account_lines_all. rewrite counted_lines_mine in *.
  unfold joined_rows in *.
  destruct (filter (fun l => acc_id a =? lr_account_id l)%nat (journal_lines db))
    as [|l0 r0] eqn:F.
  - replace (left_join (fun l => acc_id a =? lr_account_id l)%nat (journal_lines db))
      with [@None LineRow] by (unfold left_join; now rewrite F).
    simpl. destruct (keep None); [|reflexivity].
    unfold balance_over. simpl. now destruct (acc_type a).
  - replace (left_join (fun l => acc_id a =? lr_account_id l)%nat (journal_lines db))
      with (map Some (l0 :: r0)) in * by (unfold left_join; now rewrite F).
    assert (Incl : incl (l0 :: r0) (journal_lines db))
      by (intros x Hx; rewrite <- F in Hx; now apply filter_In in Hx).
    destruct (joined_lines_sum db keep lr_debit_cents (l0 :: r0) W Incl) as [_ L].
    cbv zeta in L.
    set (rows := filter _ (flat_map _ (map Some (l0 :: r0)))) in *.
    set (counted := filter (kept db keep) (l0 :: r0)) in *.
    destruct rows as [|r rs]; destruct counted as [|c cs]; try discriminate;
      [reflexivity|].
    unfold group_row, balance_over. rewrite D, C. now destruct (acc_type a).
Qed.

Lemma counted_as_of db a asOfDate :
  wf db -> counted_lines db (as_of asOfDate) a = account_lines db a asOfDate.
Proof. intros W. apply (account_lines_kept db a asOfDate W). Qed.

Lemma counted_null_or_as_of db a asOfDate :
  wf db -> counted_lines db (null_or_as_of asOfDate) a = account_lines db a asOfDate.
Proof.
  intros W. rewrite <- (counted_as_of db a asOfDate W).
  unfold counted_lines, kept. now destruct asOfDate.
Qed.

Lemma getAccount_found db a :
  wf db -> In a (accounts db) -> AccountService_getAccount db (acc_code a) = Ok a.
Proof.
  intros W Hin. unfold AccountService_getAccount.
  replace (String.eqb (acc_code a) "") with false
    by (symmetry; apply String.eqb_neq, (wf_acc_named W a Hin)).
  unfold AccountRepository_findByCode.
  now rewrite (find_unique_code (accounts db) a (wf_acc_codes W) Hin).
Qed.

(** The balance of an account of the directory. *)
Lemma getAccountBalance_found db a asOfDate :
  wf db -> In a (accounts db) ->
  BalanceService_getAccountBalance db (acc_code a) asOfDate
  = match asOfDate, account_lines db a asOfDate with
    | Some _, [] => Err (NotFoundError (MsgNoBalanceData (acc_code a)))
    | _, counted => Ok (balance_over a counted)
    end.
Proof.
  intros W Hin. unfold BalanceService_getAccountBalance.
  replace (String.eqb (acc_code a) "") with false
    by (symmetry; apply String.eqb_neq, (wf_acc_named W a Hin)).
  rewrite (getAccount_found db a W Hin). cbn [bind].
  unfold BalanceRepository_getAccountBalance.
  rewrite (one_account_group db a
             (fun r => match asOfDate with Some d => date_le r d | None => true end)
             (accounts db) (wf_acc_codes W) Hin).
  replace (filter (fun r => match asOfDate with Some d => date_le r d | None => true end)
                  (joined_rows db a))
    with (filter (fun r : JoinedRow => as_of asOfDate (snd r)) (joined_rows db a))
    by (apply filter_ext; intros r; now destruct asOfDate).
  rewrite (group_of_account db a (as_of asOfDate) W), (counted_as_of db a asOfDate W).
  destruct asOfDate as [d|].
  - assert (Sub : account_lines db a None = [] -> account_lines db a (Some d) = []).
    { unfold account_lines. intros E. apply filter_nil_forall. intros l Hl.
      destruct (lr_account_id l =? acc_id a)%nat eqn:A; [|reflexivity]. exfalso.
      assert (X : In l []) by (rewrite <- E; apply filter_In; rewrite A; auto).
      destruct X. }
    destruct (account_lines db a None) as [|x xs].
    + rewrite (Sub eq_refl). reflexivity.
    + destruct (account_lines db a (Some d)); reflexivity.
  - destruct (account_lines db a None); reflexivity.
Qed.

Lemma posted_sums (counted : list LineRow) :
  Forall posted_line counted ->
  0 <= sumZ (map lr_debit_cents counted) /\ 0 <= sumZ (map lr_credit_cents counted)
  /\ (counted <> [] ->
      0 < sumZ (map lr_debit_cents counted) \/ 0 < sumZ (map lr_credit_cents counted)).
Proof.
  induction 1 as [|l r (P & _ & _) _ (IHd & IHc & _)]; simpl;
    [repeat split; try lia; congruence|].
  repeat split; intros; lia.
Qed.

Lemma Forall_filter_of {A} (P : A -> Prop) (f : A -> bool) (l : list A) :
  Forall P l -> Forall P (filter f l).
Proof.
  intros H. apply Forall_forall. intros x Hx. apply filter_In in Hx as [Hx _].
  rewrite Forall_forall in H. auto.
Qed.

(** X10.  For an account of the directory, the activity check answers
    whether at least one line of the account counts: any line without a
    date, a line of an entry dated on or before the date with one.  It
    answers false, not NotFound, when no line counts.  For a code that is
    not in the directory it fails with a validation error. *)
Theorem account_activity db a asOfDate :
  reachable db -> In a (accounts db) ->
  BalanceService_hasAccountActivity db (acc_code a) asOfDate
  = Ok match account_lines db a asOfDate with
       | [] => false
       | _ :: _ => true
       end
  /\ forall code, code <> "" -> AccountRepository_findByCode db code = None ->
       BalanceService_hasAccountActivity db code asOfDate
       = Err (ValidationError [MsgAccountNotFound code]).
Proof.
  intros R Hin. pose proof (reachable_wf db R) as W. split.
  - unfold BalanceService_hasAccountActivity.
    rewrite (getAccountBalance_found db a asOfDate W Hin).
    assert (P : Forall posted_line (account_lines db a asOfDate))
      by (apply Forall_filter_of; apply (proj1 (stored_entries db R))).
    apply posted_sums in P as (Pd & Pc & Pos).
    destruct (account_lines db a asOfDate) as [|x xs] eqn:E.
    + destruct asOfDate; rewrite ?E; reflexivity.
    + assert (B : (0 <? ab_debits (balance_over a (x :: xs)))
                  || (0 <? ab_credits (balance_over a (x :: xs))) = true).
      { unfold balance_over. cbn [ab_debits ab_credits].
        apply orb_true_iff. rewrite !Z.ltb_lt. apply Pos. discriminate. }
      destruct asOfDate; rewrite ?E; now rewrite B.
  - intros code Hc F. unfold BalanceService_hasAccountActivity,
      BalanceService_getAccountBalance, AccountService_getAccount.
    apply String.eqb_neq in Hc. now rewrite Hc, F.
Qed.

Lemma account_activity_sales :
  reachable scenario /\ In (mkAccount 2 "4001" "Sales" Revenue) (accounts scenario)
  /\ BalanceService_hasAccountActivity scenario "4001" (Some 3) = Ok false.
Proof.
  assert (Hin : In (mkAccount 2 "4001" "Sales" Revenue) (accounts scenario))
    by (vm_compute; auto).
  split; [exact scenario_reachable|]. split; [exact Hin|].
  exact (proj1 (account_activity scenario (mkAccount 2 "4001" "Sales" Revenue) (Some 3)
                  scenario_reachable Hin)).
Defined.

(** ** Accounts that can be deleted *)

Lemma hasTransactions_lines db a :
  AccountRepository_hasTransactions db (acc_id a)
  = match account_lines db a None with
    | [] => false
    | _ :: _ => true
    end.
Proof.
  unfold AccountRepository_hasTransactions. rewrite account_lines_all.
  replace (filter (fun l => lr_account_id l =? acc_id a)%nat (journal_lines db))
    with (filter (fun l => acc_id a =? lr_account_id l)%nat (journal_lines db))
    by (apply filter_ext; intros l; apply Nat.eqb_sym).
  now destruct (filter _ (journal_lines db)).
Qed.

(** X11.  For an account of the directory, the deletion check answers the
    opposite of the activity check without a date: an account can be
    deleted exactly when no line has been posted to it. *)
Theorem deletable_iff_no_activity db a :
  reachable db -> In a (accounts db) ->
  exists active,
    BalanceService_hasAccountActivity db (acc_code a) None = Ok active
    /\ AccountService_canDeleteAccount db (acc_code a) = Ok (negb active)
    /\ (active = true
        <-> exists l, In l (journal_lines db) /\ lr_account_id l = acc_id a).
Proof.
  intros R Hin. pose proof (reachable_wf db R) as W.
  assert (P : Forall posted_line (account_lines db a None))
    by (apply Forall_filter_of; apply (proj1 (stored_entries db R))).
  apply posted_sums in P as (_ & _ & Pos).
  exists match account_lines db a None with [] => false | _ :: _ => true end.
  split; [|split].
  - unfold BalanceService_hasAccountActivity.
    rewrite (getAccountBalance_found db a None W Hin).
    destruct (account_lines db a None) as [|x xs]; [reflexivity|].
    unfold balance_over. cbn [ab_debits ab_credits]. f_equal.
    apply orb_true_iff. rewrite !Z.ltb_lt. apply Pos. discriminate.
  - unfold AccountService_canDeleteAccount.
    rewrite (getAccount_found db a W Hin). cbn [bind].
    now rewrite hasTransactions_lines.
  - rewrite account_lines_all. split.
    + intros H. destruct (filter _ (journal_lines db)) as [|x xs] eqn:F; [discriminate|].
      exists x. assert (Hx : In x (filter (fun l => acc_id a =? lr_account_id l)%nat
                                           (journal_lines db))) by (rewrite F; now left).
      apply filter_In in Hx as [Hx E]. apply Nat.eqb_eq in E. auto.
    + intros (l & Hl & E).
      assert (Hx : In l (filter (fun l => acc_id a =? lr_account_id l)%nat
                                (journal_lines db)))
        by (apply filter_In; split; [exact Hl|]; apply Nat.eqb_eq; congruence).
      now destruct (filter _ (journal_lines db)).
Qed.

Lemma deletable_iff_no_activity_bank :
  reachable scenario_with_bank
  /\ In (mkAccount 13 "1002" "Bank" Asset) (accounts scenario_with_bank)
  /\ exists active,
       BalanceService_hasAccountActivity scenario_with_bank "1002" None = Ok active
       /\ AccountService_canDeleteAccount scenario_with_bank "1002" = Ok (negb active).
Proof.
  assert (R : reachable scenario_with_bank)
    by (apply reach_createAccount, scenario_reachable).
  assert (Hin : In (mkAccount 13 "1002" "Bank" Asset) (accounts scenario_with_bank))
    by (vm_compute; do 4 right; now left).
  split; [exact R|]. split; [exact Hin|].
  destruct (deletable_iff_no_activity scenario_with_bank
              (mkAccount 13 "1002" "Bank" Asset) R Hin) as (active & A & D & _).
  exists active. split; [exact A|exact D].
Defined.

(** X12.  After create-entry has returned an entry, none of the accounts
    the entry posts to can be deleted. *)
Theorem posted_accounts_cannot_be_deleted today db entryData idempotencyKey db' e :
  reachable db ->
  JournalService_createJournalEntry today db entryData idempotencyKey = (db', Ok e) ->
  Forall (fun l => AccountService_canDeleteAccount db' (jl_account_code l) = Ok false)
         (je_lines e).
Proof.
  intros R H. pose proof (reachable_wf db R) as W.
  assert (W' : wf db').
  { replace db' with (fst (JournalService_createJournalEntry today db entryData
                             idempotencyKey)) by now rewrite H.
    now apply createJournalEntry_wf. }
  pose proof (returned_entry_found today db entryData idempotencyKey db' e W H) as F.
  destruct (findById_wf db' (je_id e) e W' F) as (row & _ & _ & E & _).
  destruct (joined_lines_wf db' (je_id e) W') as [Rows Acc].
  rewrite E. cbn [je_lines]. apply Forall_forall. intros l Hl.
  rewrite Forall_forall in Acc. destruct (Acc l Hl) as (a & Ha & Ia & Ca).
  rewrite <- Ca. unfold AccountService_canDeleteAccount.
  rewrite (getAccount_found db' a W' Ha). cbn [bind].
  rewrite hasTransactions_lines, account_lines_all.
  assert (Hx : In (row_of l) (filter (fun x => acc_id a =? lr_account_id x)%nat
                                     (journal_lines db'))).
  { apply filter_In. split.
    - assert (In (row_of l) (entry_lines db' (je_id e)))
        by (rewrite <- Rows; now apply in_map).
      unfold entry_lines in *. now apply filter_In in H0.
    - simpl. apply Nat.eqb_eq. exact Ia. }
  now destruct (filter _ (journal_lines db')).
Qed.

Lemma posted_accounts_cannot_be_deleted_seed :
  reachable chart
  /\ exists db' e,
       JournalService_createJournalEntry 31 chart seed_capital None = (db', Ok e)
       /\ AccountService_canDeleteAccount chart "1001" = Ok true
       /\ Forall (fun l => AccountService_canDeleteAccount db' (jl_account_code l)
                           = Ok false) (je_lines e).
Proof.
  split; [exact chart_reachable|].
  destruct (JournalService_createJournalEntry 31 chart seed_capital None)
    as [db' [e|x]] eqn:H; [|vm_compute in H; discriminate].
  exists db', e. split; [reflexivity|]. split; [vm_compute; reflexivity|].
  exact (posted_accounts_cannot_be_deleted 31 chart seed_capital None db' e
           chart_reachable H).
Defined.

(** ** Balances of all accounts *)

Lemma counted_of_none db keep a :
  account_lines db a None = [] -> counted_lines db keep a = [].
Proof.
  rewrite account_lines_all, counted_lines_mine. now intros ->.
Qed.

(** The rows of a balance report whose [WHERE] clause keeps the [NULL] rows
    of the join and a condition on the entry otherwise. *)
Lemma grouped_rows db (keep : option EntryRow -> bool) (accs : list Account) :
  wf db -> keep None = true ->
  flat_map (fun a => group_row a (filter (fun r : JoinedRow => keep (snd r))
                                         (joined_rows db a))) accs
  = map (fun a => balance_over a (counted_lines db keep a))
        (filter (fun a => has_row db a (counted_lines db keep a)) accs).
Proof.
  intros W KN. induction accs as [|a r IH]; [reflexivity|].
  cbn [flat_map filter].
  rewrite IH, (group_of_account db a keep W), KN. unfold has_row.
  destruct (account_lines db a None) as [|x xs] eqn:E.
  - cbn [map app]. rewrite (counted_of_none db keep a E). reflexivity.
  - destruct (counted_lines db keep a) eqn:C; cbn [map app]; rewrite ?C; reflexivity.
Qed.

(** The total of a column of such a report is the sum, over the entries
    that pass the condition, of that column over the lines of the entry. *)
Lemma grouped_total db (keep : option EntryRow -> bool) (column : LineRow -> Z)
  (field : AccountBalance -> Z) :
  wf db ->
  (forall a rows, map field (group_row a rows)
                  = match rows with [] => [] | _ => [sum_column column rows] end) ->
  sumZ (map field
          (flat_map (fun a => group_row a (filter (fun r : JoinedRow => keep (snd r))
                                                  (joined_rows db a))) (accounts db)))
  = sumZ (map (fun e => if keep (Some e)
                        then sumZ (map column (entry_lines db (er_id e))) else 0)
              (journal_entries db)).
Proof.
  intros W Hf.
  rewrite (sumZ_group_rows
             (fun a => filter (fun r : JoinedRow => keep (snd r)) (joined_rows db a))
             column field (accounts db) Hf).
  set (inside := filter (kept db keep) (journal_lines db)).
  transitivity (sumZ (map column inside)).
  - rewrite <- (sumZ_by_key lr_account_id column (map acc_id (accounts db)) inside
                            (wf_acc_ids W)).
    + rewrite map_map. apply sumZ_map_ext. intros a _.
      etransitivity; [exact (sum_column_joined db a keep column W)|].
      f_equal. f_equal. unfold inside. clear.
      induction (journal_lines db) as [|x r IH]; simpl; [reflexivity|].
      destruct (lr_account_id x =? acc_id a)%nat eqn:A;
        destruct (kept db keep x); simpl; rewrite ?A, IH; reflexivity.
    + intros l Hl. apply filter_In in Hl as [Hl _].
      apply account_id_exists_In. apply (wf_line_account W l Hl).
  - rewrite <- (sumZ_by_key lr_entry_id column (map er_id (journal_entries db)) inside
                            (wf_entry_ids W)).
    + rewrite map_map. apply sumZ_map_ext. intros e He. cbv beta.
      assert (K : forall l, In l (journal_lines db) -> lr_entry_id l = er_id e ->
                            kept db keep l = keep (Some e))
        by (intros l Hl El; exact (kept_entry db keep l e W Hl He El)).
      unfold inside, entry_lines. clear inside.
      set (b := keep (Some e)) in *. clearbody b.
      induction (journal_lines db) as [|x r IH]; simpl.
      * now destruct b.
      * assert (IH' := IH (fun l Hl => K l (or_intror Hl))). clear IH.
        destruct (lr_entry_id x =? er_id e)%nat eqn:E.
        -- apply Nat.eqb_eq in E. rewrite (K x (or_introl eq_refl) E).
           destruct b; simpl.
           ++ apply Nat.eqb_eq in E. rewrite E. simpl. now rewrite IH'.
           ++ exact IH'.
        -- destruct (kept db keep x); simpl; rewrite ?E; exact IH'.
    + intros l Hl. apply filter_In in Hl as [Hl _].
      apply entry_exists_In. apply (wf_line_entry W l Hl).
Qed.

Lemma all_balances_unfold db asOfDate :
  BalanceService_getAllAccountBalances db asOfDate
  = sort_by (fun x y => String.leb (ab_account_code x) (ab_account_code y))
      (flat_map (fun a => group_row a (filter (fun r : JoinedRow =>
                                                 null_or_as_of asOfDate (snd r))
                                              (joined_rows db a))) (accounts db)).
Proof.
  reflexivity.
Qed.

(** X13.  The balances of all accounts, in ascending order of the codes,
    have one row for each account that has no line at all or has a line
    that counts (any line without a date; with one, a line of an entry
    dated on or before it), with the sums of debit_cents and credit_cents
    over the lines that count and their difference.  With a date, an
    account whose lines are all dated later has no row. *)
Theorem all_balances_rows db asOfDate :
  reachable db ->
  Permutation (BalanceService_getAllAccountBalances db asOfDate)
              (map (fun a => balance_over a (account_lines db a asOfDate))
                   (filter (fun a => has_row db a (account_lines db a asOfDate))
                           (accounts db)))
  /\ StronglySorted by_account_code (BalanceService_getAllAccountBalances db asOfDate).
Proof.
  intros R. pose proof (reachable_wf db R) as W. rewrite all_balances_unfold. split.
  - rewrite <- sort_by_perm.
    rewrite (grouped_rows db (null_or_as_of asOfDate) (accounts db) W)
      by now destruct asOfDate.
    rewrite (filter_ext _ (fun a => has_row db a (account_lines db a asOfDate)))
      by (intros a; now rewrite (counted_null_or_as_of db a asOfDate W)).
    rewrite (map_ext _ (fun a => balance_over a (account_lines db a asOfDate)))
      by (intros a; now rewrite (counted_null_or_as_of db a asOfDate W)).
    reflexivity.
  - apply (sort_by_code_sorted ab_account_code).
Qed.

Lemma all_balances_rows_scenario :
  reachable scenario
  /\ Permutation (BalanceService_getAllAccountBalances scenario (Some 3))
                 (map (fun a => balance_over a (account_lines scenario a (Some 3)))
                      (filter (fun a => has_row scenario a (account_lines scenario a (Some 3)))
                              (accounts scenario))).
Proof.
  split; [exact scenario_reachable|].
  exact (proj1 (all_balances_rows scenario (Some 3) scenario_reachable)).
Defined.

(** X14.  The rows of the trial balance for a range, in ascending order of
    the codes: one for each account that has no line at all or has a line
    of an entry dated in the range, with the sums over the lines of
    entries dated in the range.  An account whose lines are all dated
    outside the range has no row. *)
Theorem trial_balance_rows db fromDate toDate :
  reachable db ->
  let report := BalanceRepository_getTrialBalance db fromDate toDate in
  Permutation (tb_accounts report)
              (map (fun a => balance_over a (lines_in_range db a fromDate toDate))
                   (filter (fun a => has_row db a (lines_in_range db a fromDate toDate))
                           (accounts db)))
  /\ StronglySorted by_account_code (tb_accounts report)
  /\ tb_total_debits report = sumZ (map ab_debits (tb_accounts report))
  /\ tb_total_credits report = sumZ (map ab_credits (tb_accounts report)).
Proof.
  intros R. pose proof (reachable_wf db R) as W. cbv zeta.
  unfold BalanceRepository_getTrialBalance.
  cbn [tb_accounts tb_total_debits tb_total_credits].
  split; [|split; [apply (sort_by_code_sorted ab_account_code)|split; reflexivity]].
  rewrite <- sort_by_perm.
  change (fun r : JoinedRow => date_null_or_between r fromDate toDate)
    with (fun r : JoinedRow => between fromDate toDate (snd r)).
  rewrite (grouped_rows db (between fromDate toDate) (accounts db) W eq_refl).
  reflexivity.
Qed.

Lemma trial_balance_rows_scenario :
  reachable scenario_with_bank
  /\ Permutation (tb_accounts (BalanceRepository_getTrialBalance scenario_with_bank 6 31))
       (map (fun a => balance_over a (lines_in_range scenario_with_bank a 6 31))
            (filter (fun a => has_row scenario_with_bank a
                                      (lines_in_range scenario_with_bank a 6 31))
                    (accounts scenario_with_bank))).
Proof.
  assert (R : reachable scenario_with_bank)
    by (apply reach_createAccount, scenario_reachable).
  split; [exact R|]. exact (proj1 (trial_balance_rows scenario_with_bank 6 31 R)).
Defined.

Lemma group_row_balance a rows :
  Forall (fun b => ab_balance b = ab_debits b - ab_credits b) (group_row a rows).
Proof.
  unfold group_row. destruct rows; [constructor|].
  constructor; [|constructor]. simpl. now destruct (acc_type a).
Qed.

Lemma sumZ_balance (rows : list AccountBalance) :
  Forall (fun b => ab_balance b = ab_debits b - ab_credits b) rows ->
  sumZ (map ab_balance rows) = sumZ (map ab_debits rows) - sumZ (map ab_credits rows).
Proof. induction 1 as [|b r E _ IH]; simpl; lia. Qed.

Lemma all_balances_sums db asOfDate :
  wf db ->
  let rows := BalanceService_getAllAccountBalances db asOfDate in
  sumZ (map ab_debits rows) = sumZ (map ab_credits rows)
  /\ sumZ (map ab_balance rows) = 0.
Proof.
  intros W rows.
  assert (B : Forall (fun b => ab_balance b = ab_debits b - ab_credits b) rows).
  { unfold rows. rewrite all_balances_unfold.
    apply (Permutation_Forall (sort_by_perm _ _)).
    apply Forall_flat_map. apply Forall_forall. intros a _. apply group_row_balance. }
  assert (T : sumZ (map ab_debits rows) = sumZ (map ab_credits rows)).
  { unfold rows. rewrite all_balances_unfold.
    rewrite <- (sumZ_perm _ _ (Permutation_map ab_debits (sort_by_perm _ _))).
    rewrite <- (sumZ_perm _ _ (Permutation_map ab_credits (sort_by_perm _ _))).
    rewrite (grouped_total db (null_or_as_of asOfDate) lr_debit_cents ab_debits W)
      by (intros a [|r rs]; reflexivity).
    rewrite (grouped_total db (null_or_as_of asOfDate) lr_credit_cents ab_credits W)
      by (intros a [|r rs]; reflexivity).
    apply sumZ_map_ext. intros e He.
    destruct (wf_balanced W e He) as [Bal _]. unfold entry_debits, entry_credits in Bal.
    now rewrite Bal. }
  split; [exact T|]. rewrite (sumZ_balance rows B). lia.
Qed.

(** X15.  In every ledger reached through the services and for every
    as-of date, or none, the balances of all accounts add up: the debits
    of all rows sum to the same amount as the credits of all rows, and the
    balances sum to zero. *)
Theorem all_balances_total db asOfDate :
  reachable db ->
  sumZ (map ab_debits (BalanceService_getAllAccountBalances db asOfDate))
  = sumZ (map ab_credits (BalanceService_getAllAccountBalances db asOfDate))
  /\ sumZ (map ab_balance (BalanceService_getAllAccountBalances db asOfDate)) = 0.
Proof. intros R. exact (all_balances_sums db asOfDate (reachable_wf db R)). Qed.

Lemma all_balances_total_scenario :
  reachable scenario
  /\ sumZ (map ab_balance (BalanceService_getAllAccountBalances scenario (Some 5))) = 0.
Proof.
  split; [exact scenario_reachable|].
  exact (proj2 (all_balances_total scenario (Some 5) scenario_reachable)).
Defined.

(** ** The summary by type and the accounting equation *)

Lemma fold_summary (rows : list AccountBalance) : forall a l e r x,
  fold_left summary_step rows (a, l, e, r, x)
  = (a + total_of Asset (fun z => z) rows, l + total_of Liability Z.abs rows,
     e + total_of Equity Z.abs rows, r + total_of Revenue Z.abs rows,
     x + total_of Expense (fun z => z) rows).
Proof.
  unfold total_of. induction rows as [|b rows IH]; intros a l e r x.
  - simpl. repeat match goal with
                  | |- (_, _) = (_, _) => apply f_equal2
                  end; lia.
  - cbn [fold_left map].
    assert (S : summary_step (a, l, e, r, x) b
                = match ab_account_type b with
                  | Asset => (a + ab_balance b, l, e, r, x)
                  | Liability => (a, l + Z.abs (ab_balance b), e, r, x)
                  | Equity => (a, l, e + Z.abs (ab_balance b), r, x)
                  | Revenue => (a, l, e, r + Z.abs (ab_balance b), x)
                  | Expense => (a, l, e, r, x + ab_balance b)
                  end) by reflexivity.
    rewrite S. destruct (ab_account_type b); rewrite IH; cbn [AccountType_eqb];
      unfold sumZ; cbn [fold_right];
      repeat match goal with
             | |- (_, _) = (_, _) => apply f_equal2
             end; lia.
Qed.

Lemma sumZ_by_type (rows : list AccountBalance) :
  sumZ (map ab_balance rows)
  = total_of Asset (fun z => z) rows + total_of Liability (fun z => z) rows
    + total_of Equity (fun z => z) rows + total_of Revenue (fun z => z) rows
    + total_of Expense (fun z => z) rows.
Proof.
  unfold total_of. induction rows as [|b rows IH]; simpl; [reflexivity|].
  rewrite IH. destruct (ab_account_type b); simpl; lia.
Qed.

Lemma total_of_abs (t : AccountType) (rows : list AccountBalance) :
  AccountService_getAccountNormalBalance t = credit_normal ->
  (forall b, In b rows ->
     AccountService_getAccountNormalBalance (ab_account_type b) = credit_normal ->
     ab_balance b <= 0) ->
  total_of t Z.abs rows = - total_of t (fun z => z) rows.
Proof.
  intros Ht. unfold total_of. induction rows as [|b rows IH]; intros H; simpl;
    [reflexivity|].
  rewrite IH by (intros x Hx; apply H; now right).
  destruct (AccountType_eqb (ab_account_type b) t) eqn:E; [|lia].
  assert (ab_account_type b = t) by (destruct (ab_account_type b), t; try discriminate; reflexivity).
  assert (ab_balance b <= 0) by (apply H; [now left|congruence]).
  lia.
Qed.

(** X16.  The summary by type adds the balances of asset and expense
    accounts as they are and those of liability, equity and revenue
    accounts in absolute value.  When no credit-normal account shows a
    debit balance, the difference that the accounting-equation check
    computes, assets - (liabilities + equity), is the net income of the
    summary, revenue - expenses: the check reports the equation as
    balanced exactly when the net income is zero. *)
Theorem accounting_equation_is_net_income db asOfDate :
  reachable db ->
  (forall b, In b (BalanceService_getAllAccountBalances db asOfDate) ->
     AccountService_getAccountNormalBalance (ab_account_type b) = credit_normal ->
     ab_balance b <= 0) ->
  let summary := BalanceService_getBalanceSummaryByType db asOfDate in
  let check := BalanceService_validateAccountingEquation db asOfDate in
  ae_difference check = bs_netIncome summary
  /\ (ae_isValid check = true <-> bs_netIncome summary = 0).
Proof.
  intros R H. pose proof (reachable_wf db R) as W. cbv zeta.
  destruct (all_balances_sums db asOfDate W) as [_ Zero]. cbv zeta in Zero.
  rewrite sumZ_by_type in Zero.
  unfold BalanceService_validateAccountingEquation, BalanceService_getBalanceSummaryByType.
  set (rows := BalanceService_getAllAccountBalances db asOfDate) in *.
  rewrite (fold_summary rows 0 0 0 0 0).
  cbn [ae_difference ae_isValid bs_assets bs_liabilities bs_equity bs_netIncome].
  rewrite (total_of_abs Liability rows eq_refl H), (total_of_abs Equity rows eq_refl H),
    (total_of_abs Revenue rows eq_refl H).
  split; [lia|]. rewrite Z.ltb_lt. lia.
Qed.

Lemma accounting_equation_is_net_income_scenario :
  reachable scenario
  /\ ae_difference (BalanceService_validateAccountingEquation scenario None) = 30000
  /\ ae_isValid (BalanceService_validateAccountingEquation scenario None) = false
  /\ ae_difference (BalanceService_validateAccountingEquation scenario None)
     = bs_netIncome (BalanceService_getBalanceSummaryByType scenario None).
Proof.
  split; [exact scenario_reachable|]. split; [vm_compute; reflexivity|].
  split; [vm_compute; reflexivity|].
  refine (proj1 (accounting_equation_is_net_income scenario None scenario_reachable _)).
  intros b Hb. vm_compute in Hb.
  repeat (destruct Hb as [<-|Hb]; [vm_compute; intros; congruence|]). destruct Hb.
Defined.

(** ** The idempotency key of a request *)

Lemma key_char_not_space (c : ascii) : is_key_char c = true -> is_space c = false.
Proof.
  destruct c as [[] [] [] [] [] [] [] []]; vm_compute; intros H;
    first [reflexivity|discriminate H].
Qed.

(** X17.  A key that passes the format check of the idempotency service
    (1 to 255 letters, digits, hyphens and underscores) is accepted by the
    middleware as it is and by the idempotency guard.  The middleware is
    less strict: it also lets through keys that the format check refuses. *)
Theorem well_formed_key_is_accepted key :
  IdempotencyService_validateIdempotencyKeyFormat key = true ->
  extractIdempotencyKey (Some key) = Next (Some key)
  /\ (forall db requestBody,
        IdempotencyService_validateRequest db key requestBody
        = Ok (IdempotencyRepository_validateRequest db key requestBody))
  /\ extractIdempotencyKey (Some "rent 2025/01") = Next (Some "rent 2025/01")
  /\ IdempotencyService_validateIdempotencyKeyFormat "rent 2025/01" = false.
Proof.
  unfold IdempotencyService_validateIdempotencyKeyFormat.
  destruct (String.eqb key "") eqn:E; [discriminate|].
  destruct ((String.length key <? 1)%nat || (255 <? String.length key)%nat) eqn:L;
    [discriminate|].
  intros F. apply orb_false_iff in L as [_ L].
  assert (B : is_blank key = false).
  { unfold is_blank. destruct key as [|c s]; [discriminate|]. simpl in *.
    apply andb_true_iff in F as [F _]. now rewrite (key_char_not_space c F). }
  split; [|split; [|split; reflexivity]].
  - unfold extractIdempotencyKey, given. now rewrite E, B, L.
  - intros db requestBody. unfold IdempotencyService_validateRequest. now rewrite B.
Qed.

Lemma well_formed_key_is_accepted_example :
  IdempotencyService_validateIdempotencyKeyFormat "demo-entry-1" = true
  /\ extractIdempotencyKey (Some "demo-entry-1") = Next (Some "demo-entry-1").
Proof.
  split; [reflexivity|].
  exact (proj1 (well_formed_key_is_accepted "demo-entry-1" eq_refl)).
Defined.

(** ** The rate limiter *)

Lemma Map_get_set_same {B} (k : string) (v : B) (m : list (string * B)) :
  Map_get k (Map_set k v m) = Some v.
Proof.
  unfold Map_get. induction m as [|[k' v'] r IH]; simpl.
  - now rewrite String.eqb_refl.
  - destruct (String.eqb k k') eqn:E; simpl; [now rewrite String.eqb_refl|].
    now rewrite E.
Qed.

Lemma Map_get_set_other {B} (k k' : string) (v : B) (m : list (string * B)) :
  k <> k' -> Map_get k (Map_set k' v m) = Map_get k m.
Proof.
  intros Hne. unfold Map_get. induction m as [|[k2 v2] r IH]; simpl.
  - apply String.eqb_neq in Hne. now rewrite Hne.
  - destruct (String.eqb k' k2) eqn:E; simpl.
    + apply String.eqb_eq in E. subst k2. apply String.eqb_neq in Hne. now rewrite Hne.
    + now rewrite IH.
Qed.

Lemma Map_get_filter_keep {B} (p : string * B -> bool) (k : string) (e : B)
  (m : list (string * B)) :
  Map_get k m = Some e -> p (k, e) = true -> Map_get k (filter p m) = Some e.
Proof.
  unfold Map_get. intros H P. induction m as [|[k' v'] r IH]; simpl in *; [discriminate|].
  destruct (String.eqb k k') eqn:E.
  - injection H as ->. apply String.eqb_eq in E. subst k'. rewrite P. simpl.
    now rewrite String.eqb_refl.
  - destruct (p (k', v')); simpl; [rewrite E|]; now apply IH.
Qed.

Lemma Map_get_filter_none {B} (p : string * B -> bool) (k : string)
  (m : list (string * B)) :
  (forall e, In (k, e) m -> p (k, e) = false) -> Map_get k (filter p m) = None.
Proof.
  unfold Map_get. induction m as [|[k' v'] r IH]; intros H; simpl; [reflexivity|].
  destruct (p (k', v')) eqn:P; simpl.
  - destruct (String.eqb k k') eqn:E.
    + apply String.eqb_eq in E. subst k'. rewrite (H v') in P by now left. discriminate.
    + apply IH. intros e He. apply H. now right.
  - apply IH. intros e He. apply H. now right.
Qed.

Lemma In_Map_set_other {B} (k k' : string) (e v : B) (m : list (string * B)) :
  k <> k' -> In (k, e) (Map_set k' v m) -> In (k, e) m.
Proof.
  intros Hne. induction m as [|[k2 v2] r IH]; simpl.
  - intros [H|[]]. congruence.
  - destruct (String.eqb k' k2) eqn:E; simpl.
    + intros [H|H]; [congruence|now right].
    + intros [H|H]; [now left|right; now apply IH].
Qed.

(** While the window of a key is open, its calls pass until the count of
    the window reaches the maximum. *)
Lemma serve_open_window key (calls : list (string * Z)) : forall requests e,
  Map_get key requests = Some e ->
  Forall (fun c => snd c <= re_resetTime e) calls ->
  map passed (outcomes_of key calls (serve requests calls))
  = map (fun i => re_count e + 1 + Z.of_nat i <=? MAX_REQUESTS)
        (seq 0 (List.length (calls_of key calls))).
Proof.
  induction calls as [|[k now] rest IH]; intros requests e G F; [reflexivity|].
  inversion F as [|? ? Hnow F']; subst. simpl in Hnow.
  cbn [serve]. unfold rateLimit.
  set (requests1 := filter (fun kv : string * RateEntry =>
                              negb (re_resetTime (snd kv) <? now)) requests).
  assert (G1 : Map_get key requests1 = Some e).
  { apply Map_get_filter_keep; [exact G|]. simpl. apply negb_true_iff, Z.ltb_ge. lia. }
  unfold outcomes_of, calls_of in *.
  destruct (String.eqb_spec k key) as [->|Hne].
  - rewrite G1. replace (re_resetTime e <? now) with false by (symmetry; apply Z.ltb_ge; lia).
    cbn [re_count re_resetTime].
    set (e' := mkRateEntry (re_count e + 1) (re_resetTime e)).
    assert (IH' := IH (Map_set key e' requests1) e' (Map_get_set_same key e' requests1) F').
    destruct (MAX_REQUESTS <? re_count e + 1) eqn:M;
      cbn [serve combine filter fst snd map]; rewrite String.eqb_refl;
      cbn [map snd List.length seq passed]; rewrite IH';
      rewrite <- seq_shift, map_map; cbn [re_count e'];
      (f_equal; [|apply map_ext; intros i; f_equal; lia]).
    + symmetry. apply Z.leb_gt. apply Z.ltb_lt in M. lia.
    + symmetry. apply Z.leb_le. apply Z.ltb_ge in M. lia.
  - set (entry' := mkRateEntry _ _).
    assert (G2 : Map_get key (Map_set k entry' requests1) = Some e)
      by (rewrite Map_get_set_other; [exact G1|congruence]).
    assert (IH' := IH (Map_set k entry' requests1) e G2 F').
    apply String.eqb_neq in Hne.
    destruct (MAX_REQUESTS <? re_count entry');
      cbn [serve combine filter fst snd map]; rewrite Hne; exact IH'.
Qed.

(** X18.  From a point in time at which a caller has no open window, the
    rate limiter lets the first 100 calls of that caller through and
    refuses every further one, for all calls made within the next 60
    seconds, whatever other callers do in between. *)
Theorem rate_limit_window requests key t calls :
  (forall e, In (key, e) requests -> re_resetTime e < t) ->
  Forall (fun c => t <= snd c <= t + WINDOW_SIZE) calls ->
  map passed (outcomes_of key calls (serve requests calls))
  = map (fun i => (i <? 100)%nat) (seq 0 (List.length (calls_of key calls))).
Proof.
  revert requests. induction calls as [|[k now] rest IH]; intros requests Old F;
    [reflexivity|].
  inversion F as [|? ? Hnow F']; subst. simpl in Hnow.
  cbn [serve]. unfold rateLimit.
  set (requests1 := filter (fun kv : string * RateEntry =>
                              negb (re_resetTime (snd kv) <? now)) requests).
  unfold outcomes_of, calls_of in *.
  destruct (String.eqb_spec k key) as [->|Hne].
  - assert (G1 : Map_get key requests1 = None).
    { apply Map_get_filter_none. intros e He. simpl.
      apply negb_false_iff, Z.ltb_lt. specialize (Old e He). lia. }
    rewrite G1. cbn [re_count re_resetTime].
    set (e' := mkRateEntry (0 + 1) (now + WINDOW_SIZE)).
    assert (Open : Forall (fun c => snd c <= re_resetTime e') rest).
    { eapply Forall_impl; [|exact F']. intros c Hc. simpl in *. lia. }
    pose proof (serve_open_window key rest (Map_set key e' requests1) e'
                  (Map_get_set_same key e' requests1) Open) as Srv.
    unfold outcomes_of, calls_of in Srv.
    replace (MAX_REQUESTS <? 0 + 1) with false by reflexivity.
    cbn [serve combine filter fst snd map]. rewrite String.eqb_refl.
    cbn [map snd List.length seq passed]. rewrite Srv.
    rewrite <- seq_shift, map_map. f_equal. apply map_ext. intros i.
    cbn [re_count e']. unfold MAX_REQUESTS.
    destruct (Nat.ltb_spec (S i) 100); [apply Z.leb_le|apply Z.leb_gt]; lia.
  - set (entry' := mkRateEntry _ _).
    assert (Old' : forall e, In (key, e) (Map_set k entry' requests1) ->
                             re_resetTime e < t).
    { intros e He. apply In_Map_set_other in He; [|congruence].
      apply filter_In in He as [He _]. now apply Old. }
    assert (IH' := IH (Map_set k entry' requests1) Old' F').
    apply String.eqb_neq in Hne.
    destruct (MAX_REQUESTS <? re_count entry');
      cbn [serve combine filter fst snd map]; rewrite Hne; exact IH'.
Qed.

Lemma rate_limit_window_example :
  let calls := repeat ("10.0.0.1", 5) 101 in
  map passed (outcomes_of "10.0.0.1" calls (serve [] calls))
  = map (fun i => (i <? 100)%nat) (seq 0 (List.length (calls_of "10.0.0.1" calls))).
Proof.
  intros calls. apply (rate_limit_window [] "10.0.0.1" 0 calls).
  - intros e [].
  - unfold calls. apply Forall_forall. intros c Hc. apply repeat_spec in Hc. subst c.
    simpl. unfold WINDOW_SIZE. lia.
Defined.

(** ** Resolving account codes *)

Lemma dedupe_sound (l : list string) : forall seen c,
  In c (dedupe seen l) -> In c l /\ existsb (String.eqb c) seen = false.
Proof.
  induction l as [|x r IH]; intros seen c H; simpl in H; [destruct H|].
  destruct (existsb (String.eqb x) seen) eqn:E.
  - apply IH in H as [H S]. split; [now right|exact S].
  - destruct H as [<-|H]; [split; [now left|exact E]|].
    apply IH in H as [H S]. simpl in S. apply orb_false_iff in S as [_ S].
    split; [now right|exact S].
Qed.

Lemma dedupe_NoDup (l : list string) : forall seen, NoDup (dedupe seen l).
Proof.
  induction l as [|x r IH]; intros seen; simpl; [constructor|].
  destruct (existsb (String.eqb x) seen); [apply IH|].
  constructor; [|apply IH]. intros H. apply dedupe_sound in H as [_ S].
  simpl in S. now rewrite String.eqb_refl in S.
Qed.

Lemma existsb_eqb_In (c : string) (l : list string) :
  existsb (String.eqb c) l = true <-> In c l.
Proof.
  rewrite existsb_exists. split.
  - intros (x & Hx & E). apply String.eqb_eq in E. now subst.
  - intros H. exists c. split; [exact H|apply String.eqb_refl].
Qed.

Lemma fold_set_get (P : Account -> Prop) (c : string) (accs : list Account) :
  forall accountMap,
  (forall a, In a accs -> acc_code a = c -> P a) ->
  (exists a, In a accs /\ acc_code a = c)
  \/ (exists a, Map_get c accountMap = Some a /\ P a) ->
  exists a,
    Map_get c (fold_left (fun m account => Map_set (acc_code account) account m)
                         accs accountMap) = Some a
    /\ P a.
Proof.
  induction accs as [|x r IH]; intros m HP H; simpl.
  - destruct H as [(a & [] & _)|H]; exact H.
  - apply IH; [intros a Ha; apply HP; now right|].
    destruct (String.eqb_spec (acc_code x) c) as [E|Hne].
    + right. exists x. rewrite E. split; [apply Map_get_set_same|].
      apply HP; [now left|exact E].
    + destruct H as [(a & [->|Ha] & Ea)|(a & G & Pa)]; [congruence|left; eauto|].
      right. exists a. split; [|exact Pa].
      rewrite Map_get_set_other; [exact G|congruence].
Qed.

(** X19.  Resolving a list of account codes either answers with accounts of
    the directory, one at least for every code asked for and none for any
    other code, or fails with NotFound naming exactly the codes asked for
    that are not in the directory, each once.  The look-up map built from
    the answer finds, for every code asked for, an account of the
    directory with that code. *)
Theorem account_codes_are_resolved db codes :
  (forall accs, AccountService_validateAccountsExist db codes = Ok accs ->
     (forall c, In c codes -> exists a, In a accs /\ acc_code a = c)
     /\ (forall a, In a accs -> In a (accounts db) /\ In (acc_code a) codes))
  /\ (forall m, AccountService_validateAccountsExist db codes = Err (NotFoundError m) ->
        exists missing,
          m = MsgAccountsNotFound missing /\ NoDup missing
          /\ forall c, In c missing
                       <-> In c codes /\ ~ In c (map acc_code (accounts db)))
  /\ (forall accountMap, AccountService_getAccountMapBycodes db codes = Ok accountMap ->
        forall c, In c codes ->
          exists a, Map_get c accountMap = Some a /\ acc_code a = c
                    /\ In a (accounts db)).
Proof.
  assert (Ok_ : forall accs, AccountService_validateAccountsExist db codes = Ok accs ->
            (forall c, In c codes -> exists a, In a accs /\ acc_code a = c)
            /\ (forall a, In a accs -> In a (accounts db) /\ In (acc_code a) codes)).
  { intros accs H. split; [exact (validateAccountsExist_covers db codes accs H)|].
    intros a Ha. split; [exact (validateAccountsExist_incl db codes accs H a Ha)|].
    unfold AccountService_validateAccountsExist in H.
    destruct codes as [|c0 r]; [discriminate|].
    destruct (find is_blank _); [discriminate|].
    unfold AccountRepository_getAccountsByCodesWithValidation in H.
    destruct (dedupe [] (c0 :: r)) as [|u us] eqn:U;
      [injection H as <-; destruct Ha|].
    destruct (filter (fun code => negb _) (u :: us)); [|discriminate].
    injection H as <-. apply filter_In in Ha as [_ Ha].
    apply (proj1 (existsb_exists (String.eqb (acc_code a)) (u :: us))) in Ha
      as (c & Hc & E).
    apply String.eqb_eq in E.
    rewrite E. rewrite <- U in Hc. now apply dedupe_sound in Hc as [Hc _]. }
  split; [exact Ok_|]. split.
  - intros m H. unfold AccountService_validateAccountsExist in H.
    destruct codes as [|c0 r]; [discriminate|].
    destruct (find is_blank _); [discriminate|].
    unfold AccountRepository_getAccountsByCodesWithValidation in H.
    destruct (dedupe [] (c0 :: r)) as [|u us] eqn:U; [discriminate|].
    set (result := filter _ (accounts db)) in H.
    destruct (filter (fun code => negb _) (u :: us)) as [|m0 ms] eqn:M; [discriminate|].
    injection H as <-. exists (m0 :: ms). split; [reflexivity|].
    rewrite <- M, <- U. split; [apply NoDup_filter, dedupe_NoDup|].
    intros c. rewrite filter_In, negb_true_iff. split.
    + intros [Hc N]. pose proof (dedupe_sound _ _ _ Hc) as [Hin _].
      split; [exact Hin|]. intros Hdir. apply in_map_iff in Hdir as (a & Ea & Ha).
      assert (T : existsb (String.eqb c) (map acc_code result) = true).
      { apply existsb_eqb_In. rewrite <- Ea. apply in_map. apply filter_In.
        split; [exact Ha|]. rewrite U in Hc. rewrite Ea.
        apply existsb_exists. exists c. split; [exact Hc|apply String.eqb_refl]. }
      congruence.
    + intros [Hin N]. split.
      * destruct (dedupe_In (c0 :: r) [] c Hin) as [S|S]; [discriminate|exact S].
      * destruct (existsb (String.eqb c) (map acc_code result)) eqn:T; [|reflexivity].
        exfalso. apply N. apply existsb_eqb_In in T.
        apply in_map_iff in T as (a & Ea & Ha). apply filter_In in Ha as [Ha _].
        rewrite <- Ea. now apply in_map.
  - intros accountMap H c Hc. unfold AccountService_getAccountMapBycodes in H.
    destruct (AccountService_validateAccountsExist db codes) as [accs|] eqn:A;
      [|discriminate].
    simpl in H. injection H as <-. destruct (Ok_ accs eq_refl) as [Cov Inc].
    destruct (fold_set_get (fun a => acc_code a = c /\ In a (accounts db)) c accs []) as
      (a & G & Ea & Ha).
    + intros a Ha Ea. split; [exact Ea|]. now apply Inc.
    + left. now apply Cov.
    + exists a. auto.
Qed.

(** ** A key used again with another request *)

Lemma token_eqb_sym_trans (x y z : Token) :
  token_eqb x y = true -> token_eqb x z = true -> token_eqb y z = true.
Proof.
  destruct x, y; simpl; try discriminate; destruct z; simpl; try discriminate; auto.
  - intros A B. apply String.eqb_eq in A, B. subst. apply String.eqb_refl.
  - intros A B. apply String.eqb_eq in A, B. subst. apply String.eqb_refl.
  - intros A B. apply Qeq_bool_iff in A, B. apply Qeq_bool_iff.
    now rewrite <- A, <- B.
Qed.

Lemma digest_eqb_sym_trans (a : Digest) : forall b c,
  digest_eqb a b = true -> digest_eqb a c = true -> digest_eqb b c = true.
Proof.
  induction a as [|x a IH]; intros [|y b] [|z c]; simpl; try discriminate; auto.
  intros A B. apply andb_true_iff in A as [A1 A2]. apply andb_true_iff in B as [B1 B2].
  apply andb_true_iff. split; [eapply token_eqb_sym_trans; eauto|eapply IH; eauto].
Qed.

Lemma number_eqb_eq (a b : Z) :
  token_eqb (TNumber (inject_Z a)) (TNumber (inject_Z b)) = true -> a = b.
Proof.
  unfold token_eqb. intros H. apply Qeq_bool_iff in H.
  exact (proj1 (inject_Z_injective a b) H).
Qed.

Lemma digest_line_objects (xs ys : list CreateJournalLineRequest) (r1 r2 : Digest) :
  digest_eqb (flat_map (fun _ => [TBeginObject; TEndObject]) xs ++ TEndArray :: r1)
             (flat_map (fun _ => [TBeginObject; TEndObject]) ys ++ TEndArray :: r2) = true ->
  List.length xs = List.length ys /\ digest_eqb r1 r2 = true.
Proof.
  revert ys. induction xs as [|x xs IH]; intros [|y ys]; simpl; try discriminate.
  - auto.
  - intros H. apply IH in H as [L D]. auto.
Qed.

(** Requests with equal hashes agree on the fields the hash covers. *)
Lemma equal_hash_same_request r r' :
  digest_eqb (hashRequest (request_json r)) (hashRequest (request_json r')) = true ->
  ~ different_request r r'.
Proof.
  rewrite !hashRequest_text. cbn [app digest_eqb]. intros H.
  repeat (apply andb_true_iff in H as [? H]).
  match goal with X : token_eqb (TNumber _) (TNumber _) = true |- _ =>
    apply number_eqb_eq in X as Ed end.
  apply digest_line_objects in H as [El H].
  cbn [app digest_eqb] in H.
  apply andb_true_iff in H as [_ H]. apply andb_true_iff in H as [En H].
  simpl in En. apply String.eqb_eq in En.
  assert (Er : reverses_entry_id r = reverses_entry_id r').
  { destruct (reverses_entry_id r) as [i|], (reverses_entry_id r') as [j|];
      cbn [app digest_eqb token_eqb] in H; try discriminate; [|reflexivity].
    apply andb_true_iff in H as [_ H]. apply andb_true_iff in H as [H _].
    apply Qeq_bool_iff in H. apply (proj1 (inject_Z_injective _ _)) in H.
    apply Nat2Z.inj in H. now subst. }
  unfold different_request. tauto.
Qed.

(** After a call with a key has returned an entry, the key is recorded
    with the hash of the request as it was validated. *)
Lemma returned_key_is_recorded today db body key db1 e1 :
  JournalService_createJournalEntry today db body (Some key) = (db1, Ok e1) ->
  key <> "" ->
  is_blank key = false
  /\ exists v rec,
       validateInput (journalEntrySchema today) body = Ok v
       /\ IdempotencyRepository_findByKey db1 key = Some rec
       /\ digest_eqb (ik_request_hash rec) (hashRequest (request_json v)) = true.
Proof.
  intros H Hk. apply String.eqb_neq in Hk.
  apply createJournalEntry_outcome in H
    as [(_ & x & E)|[(-> & v & existing & V & I & _)
                    |(v & accs & db2 & e & V & _ & _ & _ & _ & _ & K)]].
  - discriminate.
  - unfold idempotency_block, given in I. rewrite Hk in I.
    unfold IdempotencyService_validateRequest in I.
    destruct (is_blank key); [discriminate|]. split; [reflexivity|].
    simpl in I. unfold IdempotencyRepository_validateRequest in I.
    destruct (IdempotencyRepository_findByKey db key) as [rec|] eqn:F; [|discriminate].
    destruct (digest_eqb (ik_request_hash rec) _) eqn:D; [|discriminate].
    exists v, rec. auto.
  - unfold given in K. rewrite Hk in K.
    destruct (IdempotencyService_recordRequest db2 key _ _) as [db3|] eqn:Rec;
      destruct K as [-> E]; [|discriminate].
    assert (B : is_blank key = false)
      by (unfold IdempotencyService_recordRequest in Rec;
          destruct (is_blank key); [discriminate|reflexivity]).
    split; [exact B|].
    apply recordRequest_effect, IdempotencyRepository_create_effect in Rec as (N & _ & ->).
    exists v, (mkIdempotencyRecord key (hashRequest (request_json v)) (je_id e)).
    split; [exact V|]. split; [|apply digest_eqb_refl].
    unfold IdempotencyRepository_findByKey. cbn [idempotency_keys].
    apply find_snoc_new; [exact N|apply String.eqb_refl].
Qed.

(** X20.  After create-entry has returned an entry for a key, a call with
    the same key and a request that passes the schema but has another
    date, another narration, another reversed entry or another number of
    lines fails with Conflict, and the ledger is left as it was. *)
Theorem key_reuse_is_conflict today1 today2 db body1 body2 key db1 e1 v2 :
  key <> "" ->
  JournalService_createJournalEntry today1 db body1 (Some key) = (db1, Ok e1) ->
  validateInput (journalEntrySchema today2) body2 = Ok v2 ->
  different_request body1 body2 ->
  JournalService_createJournalEntry today2 db1 body2 (Some key)
  = (db1, Err (ConflictError (MsgKeyReused key))).
Proof.
  intros Hk H V2 Diff.
  destruct (returned_key_is_recorded today1 db body1 key db1 e1 H Hk)
    as (B & v1 & rec & V1 & F & D).
  assert (N : digest_eqb (ik_request_hash rec) (hashRequest (request_json v2)) = false).
  { destruct (digest_eqb (ik_request_hash rec) (hashRequest (request_json v2))) eqn:D2;
      [|reflexivity].
    exfalso.
    pose proof (digest_eqb_sym_trans _ _ _ D D2) as E.
    apply equal_hash_same_request in E. apply E. clear E.
    apply journalEntrySchema_ok in V1 as ((A1 & A2 & A3 & A4 & _) & _).
    apply journalEntrySchema_ok in V2 as ((B1 & B2 & B3 & B4 & _) & _).
    apply map_length_eq in A4, B4.
    unfold different_request in *. rewrite A1, A2, A3, A4, B1, B2, B3, B4. exact Diff. }
  unfold JournalService_createJournalEntry. rewrite V2.
  unfold idempotency_block, given. apply String.eqb_neq in Hk. rewrite Hk.
  unfold IdempotencyService_validateRequest. rewrite B. cbn [bind].
  unfold IdempotencyRepository_validateRequest. rewrite F, N. reflexivity.
Qed.

Lemma key_reuse_is_conflict_example :
  exists db1 e1,
    JournalService_createJournalEntry 31 chart seed_capital (Some "k1") = (db1, Ok e1)
    /\ JournalService_createJournalEntry 31 db1
         (mkEntryReq 2 "Seed capital" (lines seed_capital) None) (Some "k1")
       = (db1, Err (ConflictError (MsgKeyReused "k1"))).
Proof.
  destruct (JournalService_createJournalEntry 31 chart seed_capital (Some "k1"))
    as [db1 [e1|x]] eqn:H; [|vm_compute in H; discriminate].
  exists db1, e1. split; [reflexivity|].
  assert (V : validateInput (journalEntrySchema 31)
                (mkEntryReq 2 "Seed capital" (lines seed_capital) None)
              = Ok (mkEntryReq 2 "Seed capital"
                      [mkLineReq "1001" (Some (100000 # 100)) (Some (0 # 100));
                       mkLineReq "3001" (Some (0 # 100)) (Some (100000 # 100))] None))
    by (vm_compute; reflexivity).
  apply (key_reuse_is_conflict 31 31 chart seed_capital _ "k1" db1 e1 _
           ltac:(discriminate) H V).
  left. simpl. lia.
Defined.

(** ** Recorded idempotency keys *)

Lemma find_unique_key (l : list IdempotencyRecord) (r : IdempotencyRecord) :
  NoDup (map ik_key l) -> In r l ->
  find (fun x => String.eqb (ik_key x) (ik_key r)) l = Some r.
Proof.
  induction l as [|y l IH]; intros ND Hin; simpl in *; [contradiction|].
  inversion ND as [|? ? Hnot ND']; subst.
  destruct Hin as [->|Hin].
  - now rewrite String.eqb_refl.
  - replace (String.eqb (ik_key y) (ik_key r)) with false; [now apply IH|].
    symmetry. apply String.eqb_neq. intros E. apply Hnot. rewrite E. now apply in_map.
Qed.

Lemma recorded_keys db ts :
  interleaved db ts ->
  NoDup (map ik_key (idempotency_keys db))
  /\ Forall (fun r => is_blank (ik_key r) = false) (idempotency_keys db).
Proof.
  induction 1 as [|db ts r _ IH|db ts today entryData key _ IH|db ts i t _ IH Nth].
  - split; constructor.
  - destruct (AccountService_createAccount db r) as [db' res] eqn:C.
    now apply createAccount_cases in C as [[-> _]|(_ & _ & -> & _)].
  - exact IH.
  - destruct t as [today entryData key|v accs key|v e key|key res]; simpl.
    + exact IH.
    + destruct (JournalRepository_create db v accs) as [[db1 e1]|] eqn:C; [|exact IH].
      apply JournalRepository_create_effect in C as (out & _ & _ & _ & ->).
      now destruct (given key).
    + destruct (given key) as [k|]; [|exact IH].
      destruct (IdempotencyService_recordRequest db k _ _) as [db2|] eqn:Rec; [|exact IH].
      assert (B : is_blank k = false)
        by (unfold IdempotencyService_recordRequest in Rec;
            destruct (is_blank k); [discriminate|reflexivity]).
      apply recordRequest_effect, IdempotencyRepository_create_effect in Rec
        as (N & _ & ->).
      destruct IH as [ND F]. simpl. split.
      * rewrite map_app. apply NoDup_snoc; [exact ND|]. simpl. intros Hin.
        apply in_map_iff in Hin as (r & E & Hr).
        rewrite existsb_false_forall in N. specialize (N r Hr).
        rewrite E, String.eqb_refl in N. discriminate.
      * apply Forall_app. split; [exact F|]. constructor; [exact B|constructor].
    + exact IH.
Qed.

(** X21.  However requests interleave, no idempotency key is recorded
    twice and no recorded key is blank; so every record is the one found
    for its key, and its key is reported as existing. *)
Theorem recorded_keys_are_unique db ts :
  interleaved db ts ->
  NoDup (map ik_key (idempotency_keys db))
  /\ forall r, In r (idempotency_keys db) ->
       is_blank (ik_key r) = false
       /\ IdempotencyService_getByKey db (ik_key r) = Some r
       /\ IdempotencyService_keyExists db (ik_key r) = true.
Proof.
  intros H. destruct (recorded_keys db ts H) as [ND F]. split; [exact ND|].
  intros r Hr. rewrite Forall_forall in F. pose proof (F r Hr) as B.
  assert (E : String.eqb (ik_key r) "" = false).
  { destruct (String.eqb_spec (ik_key r) "") as [E|]; [|reflexivity].
    rewrite E in B. discriminate. }
  split; [exact B|]. unfold IdempotencyService_getByKey, IdempotencyService_keyExists.
  rewrite E. split.
  - apply (find_unique_key _ r ND Hr).
  - unfold IdempotencyRepository_exists.
    assert (Hin : In r (filter (fun x => String.eqb (ik_key x) (ik_key r))
                               (idempotency_keys db)))
      by (apply filter_In; split; [exact Hr|apply String.eqb_refl]).
    now destruct (filter _ (idempotency_keys db)).
Qed.

Lemma recorded_keys_are_unique_racing :
  interleaved (fst racing) (snd racing)
  /\ NoDup (map ik_key (idempotency_keys (fst racing))).
Proof.
  split; [exact racing_interleaved|].
  exact (proj1 (recorded_keys_are_unique (fst racing) (snd racing) racing_interleaved)).
Defined.

(** ** Authentication *)

(** X22.  The API-key check lets a request through only with the key of
    the header, not blank, and the key of a row that is active; it then
    stamps the time on the rows of that key.  Whatever it answers, it
    leaves the key, the name and the active flag of every row as they
    were, and a request it refuses changes nothing. *)
Theorem api_key_check api_keys now header :
  let result := validateApiKey api_keys now header in
  map credentials (fst result) = map credentials api_keys
  /\ (forall apiKey, snd result = inr apiKey ->
        header = Some apiKey /\ is_blank apiKey = false
        /\ (exists r, In r api_keys /\ ak_key r = apiKey /\ ak_is_active r = Some true)
        /\ forall r, In r (fst result) -> ak_key r = apiKey ->
                     ak_last_used_at r = Some now)
  /\ (forall reason, snd result = inl reason -> fst result = api_keys).
Proof.
  cbv zeta. unfold validateApiKey.
  assert (Refused : forall reason,
            map credentials (fst (api_keys, @inl Unauthorized string reason))
            = map credentials api_keys
            /\ (forall apiKey,
                  snd (api_keys, @inl Unauthorized string reason) = inr apiKey ->
                  header = Some apiKey /\ is_blank apiKey = false
                  /\ (exists r, In r api_keys /\ ak_key r = apiKey
                                /\ ak_is_active r = Some true)
                  /\ forall r, In r (fst (api_keys, @inl Unauthorized string reason)) ->
                               ak_key r = apiKey -> ak_last_used_at r = Some now)
            /\ (forall reason', snd (api_keys, @inl Unauthorized string reason)
                                = inl reason' ->
                                fst (api_keys, @inl Unauthorized string reason) = api_keys)).
  { intros reason. split; [reflexivity|]. split; [intros ? E; discriminate E|].
    intros; reflexivity. }
  destruct (given header) as [k|] eqn:G; [|apply Refused].
  apply given_some in G. subst header.
  destruct (is_blank k) eqn:B; [apply Refused|].
  destruct (filter (active_key k) api_keys) as [|r0 rs] eqn:F; [apply Refused|].
  clear Refused.
  cbn [fst snd]. split; [|split; [|discriminate]].
  - rewrite map_map. apply map_ext. intros r. now destruct (String.eqb (ak_key r) k).
  - intros apiKey E. injection E as <-. repeat split; auto.
    + assert (Hr : In r0 (filter (active_key k) api_keys)) by (rewrite F; now left).
      apply filter_In in Hr as [Hr A]. unfold active_key in A.
      apply andb_true_iff in A as [A1 A2]. apply String.eqb_eq in A1.
      exists r0. repeat split; auto. now destruct (ak_is_active r0) as [[]|].
    + intros r Hr E. apply in_map_iff in Hr as (x & <- & _).
      destruct (String.eqb_spec (ak_key x) k) as [|Hne]; [reflexivity|].
      contradiction.
Qed.

(** ** Requests that are accepted *)

















(** ** Every posted entry can be reversed *)





(** ** The trial-balance report *)

Lemma trial_balance_totals_equal db fromDate toDate :
  wf db ->
  tb_total_debits (BalanceRepository_getTrialBalance db fromDate toDate)
  = tb_total_credits (BalanceRepository_getTrialBalance db fromDate toDate).
Proof.
  intros W.
  change (tb_total_debits (BalanceRepository_getTrialBalance db fromDate toDate))
    with (sumZ (map ab_debits
                    (tb_accounts (BalanceRepository_getTrialBalance db fromDate toDate)))).
  change (tb_total_credits (BalanceRepository_getTrialBalance db fromDate toDate))
    with (sumZ (map ab_credits
                    (tb_accounts (BalanceRepository_getTrialBalance db fromDate toDate)))).
  rewrite (trial_balance_total db fromDate toDate lr_debit_cents ab_debits W)
    by (intros a [|r rows]; reflexivity).
  rewrite (trial_balance_total db fromDate toDate lr_credit_cents ab_credits W)
    by (intros a [|r rows]; reflexivity).
  apply sumZ_map_ext. intros e He.
  destruct (wf_balanced W e He) as [B _]. unfold entry_debits, entry_credits in B.
  now rewrite B.
Qed.

(** X25.  The trial-balance report of the controller, asked with both
    dates: when [to] is before [from] the answer is status 400 with the
    code VALIDATION_ERROR; otherwise the answer is status 200, never the
    internal error of the service, the report shows one row for each row
    of the repository with the amounts in units, the two totals shown are
    equal and [is_balanced] is true. *)
Theorem trial_balance_report db from to :
  reachable db ->
  (to < from ->
   BalanceController_getTrialBalance db from to
   = Failed 400 VALIDATION_ERROR (Some (ValidationError [MsgInvalidDateRange])))
  /\ (from <= to ->
      exists view,
        BalanceController_getTrialBalance db from to = Sent 200 view
        /\ tv_is_balanced view = true
        /\ tv_total_debits view = tv_total_credits view
        /\ tv_accounts view
           = map (fun account =>
                    (ab_account_code account, ab_account_name account,
                     ab_account_type account, fromCents (ab_debits account),
                     fromCents (ab_credits account), fromCents (ab_balance account)))
                 (tb_accounts (BalanceRepository_getTrialBalance db from to))).
Proof.
  intros R. pose proof (reachable_wf db R) as W.
  unfold BalanceController_getTrialBalance, BalanceService_getTrialBalance.
  unfold validateInput, trialBalanceQuerySchema, when. cbn [fst snd].
  split; intros H.
  - replace (to <? from) with true by (symmetry; apply Z.ltb_lt; lia). reflexivity.
  - replace (to <? from) with false by (symmetry; apply Z.ltb_ge; lia).
    cbn [bind fst snd].
    rewrite (trial_balance_totals_equal db from to W), Z.eqb_refl. cbn [negb].
    eexists. split; [reflexivity|]. cbn [tv_is_balanced tv_total_debits
                                          tv_total_credits tv_accounts].
    rewrite (trial_balance_totals_equal db from to W), Z.eqb_refl. auto.
Qed.

Lemma trial_balance_report_scenario :
  reachable scenario
  /\ exists view,
       BalanceController_getTrialBalance scenario 1 31 = Sent 200 view
       /\ tv_is_balanced view = true.
Proof.
  split; [exact scenario_reachable|].
  destruct (proj2 (trial_balance_report scenario 1 31 scenario_reachable) ltac:(lia))
    as (view & H & B & _).
  exists view. split; [exact H|exact B].
Defined.

(** ** Answers to the creation of an account *)


(** ** Accounts by id and by code *)

Lemma find_unique_id (l : list Account) (a : Account) :
  NoDup (map acc_id l) -> In a l ->
  find (fun b => acc_id b =? acc_id a)%nat l = Some a.
Proof.
  induction l as [|y r IH]; intros ND Hin; simpl in *; [contradiction|].
  inversion ND as [|? ? Hnot ND']; subst.
  destruct Hin as [->|Hin].
  - now rewrite Nat.eqb_refl.
  - replace (acc_id y =? acc_id a)%nat with false; [now apply IH|].
    symmetry. apply Nat.eqb_neq. intros E. apply Hnot. rewrite E. now apply in_map.
Qed.

Lemma some_row_iff_found {A} (p : A -> bool) (l : list A) :
  (0 <? List.length (filter p l))%nat = true <-> exists a, find p l = Some a.
Proof.
  induction l as [|x l IH]; simpl.
  - split; [discriminate|intros (a & H); discriminate].
  - destruct (p x); simpl; [split; eauto|exact IH].
Qed.

(** X27.  The three lookups of the accounts agree in every ledger reached
    through the service: [exists] says true exactly for the codes that
    [findByCode] finds, the account found under a code has that code and is
    the one found under its id, and the account found under an id has that
    id and is the one found under its code. *)
Theorem account_lookups_agree db :
  reachable db ->
  (forall code,
     AccountRepository_exists db code = true
     <-> exists a, AccountRepository_findByCode db code = Some a)
  /\ (forall code a,
        AccountRepository_findByCode db code = Some a ->
        acc_code a = code /\ AccountRepository_findById db (acc_id a) = Some a)
  /\ (forall id a,
        AccountRepository_findById db id = Some a ->
        acc_id a = id /\ AccountRepository_findByCode db (acc_code a) = Some a).
Proof.
  intros R. pose proof (reachable_wf db R) as W.
  unfold AccountRepository_exists, AccountRepository_findByCode, AccountRepository_findById.
  split; [intros code; apply some_row_iff_found|]. split.
  - intros code a F. apply find_some in F as (Hin & E). apply String.eqb_eq in E.
    split; [exact E|]. exact (find_unique_id (accounts db) a (wf_acc_ids W) Hin).
  - intros id a F. apply find_some in F as (Hin & E). apply Nat.eqb_eq in E.
    split; [exact E|]. exact (find_unique_code (accounts db) a (wf_acc_codes W) Hin).
Qed.

Lemma account_lookups_agree_chart :
  reachable chart
  /\ (AccountRepository_exists chart "4001" = true
      <-> exists a, AccountRepository_findByCode chart "4001" = Some a).
Proof.
  split; [exact chart_reachable|].
  exact (proj1 (account_lookups_agree chart chart_reachable) "4001").
Defined.
